(** * PackageRequest: version resolution and cache-aside metadata lookup

    A shallow embedding of [src/routes/lib/v1/PackageRequest.js].

    JavaScript values are an inductive type, exceptions are an error type,
    and the asynchronous methods of the class are computations in a state
    and error monad over the Redis store, the request context and a trace of
    the calls made to upstream services.  The libraries the file calls
    ([semver], [JSON], [encodeURIComponent]) are interfaces; the models of
    them used to evaluate the code on concrete inputs come after the
    embedding. *)

From Stdlib Require Import ZArith List String Ascii Lia Bool.
From Stdlib Require Import Permutation Sorted DecimalString.
From stdpp Require Import gmap strings.
Import ListNotations.

Set Warnings "-register-all".
Local Open Scope Z_scope.
Local Open Scope string_scope.

(** ** JavaScript values *)

Inductive value : Type :=
| VUndefined
| VNull
| VBool (b : bool)
| VNum (n : Z)
| VStr (s : string)
| VArr (items : list value)
| VObj (props : list (string * value)).

(** Template literals: [`${a}/${b}`]. *)
Definition tpl (parts : list string) : string := String.concat EmptyString parts.

(** A request parameter that may be absent reads ["undefined"] inside a
    template literal and when used as a property key. *)
Definition param_text (p : option string) : string :=
  match p with Some s => s | None => "undefined" end.

Definition param_value (p : option string) : value :=
  match p with Some s => VStr s | None => VUndefined end.

(** [!p] for a parameter: absent and the empty string are falsy. *)
Definition param_falsy (p : option string) : bool :=
  match p with Some s => String.eqb s EmptyString | None => true end.

Definition truthy (v : value) : bool :=
  match v with
  | VUndefined | VNull => false
  | VBool b => b
  | VNum n => negb (Z.eqb n 0)
  | VStr s => negb (String.eqb s EmptyString)
  | VArr _ | VObj _ => true
  end.

(** [x === p] where [p] is a request parameter. *)
Definition strict_eq_param (p : option string) (x : value) : bool :=
  match p, x with
  | Some s, VStr t => String.eqb s t
  | None, VUndefined => true
  | _, _ => false
  end.

Fixpoint assoc {A : Type} (k : string) (l : list (string * A)) : option A :=
  match l with
  | [] => None
  | (k', v) :: l' => if String.eqb k k' then Some v else assoc k l'
  end.

Definition nat_text (n : nat) : string := NilZero.string_of_uint (Nat.to_uint n).

Definition Z_text (z : Z) : string := NilZero.string_of_int (Z.to_int z).

(** A property key that is an array index: the canonical decimal text of a
    natural number. *)
Definition array_index (k : string) : option nat :=
  match NilZero.uint_of_string k with
  | Some d => let n := Nat.of_uint d in
              if String.eqb (nat_text n) k then Some n else None
  | None => None
  end.

(** Own properties.  Objects own their members; arrays and strings own
    [length] and their indices; numbers and booleans own nothing. *)
Definition own_prop (v : value) (k : string) : option value :=
  match v with
  | VObj props => assoc k props
  | VArr items =>
      if String.eqb k "length" then Some (VNum (Z.of_nat (List.length items)))
      else match array_index k with
           | Some i => nth_error items i
           | None => None
           end
  | VStr s =>
      if String.eqb k "length" then Some (VNum (Z.of_nat (String.length s)))
      else match array_index k with
           | Some i => option_map (fun c => VStr (String c EmptyString)) (String.get i s)
           | None => None
           end
  | _ => None
  end.

(** ** Exceptions and results *)

(** What [got] attaches to an error as [error.response]. *)
Record response : Type := { statusCode : option Z; body : value }.

Inductive exn : Type :=
| HTTPError (r : response)            (* got.HTTPError: a non-2xx reply *)
| ParseError (r : response)           (* got.ParseError: a reply that is not JSON *)
| RequestError (msg : string)         (* got.RequestError, timeouts: no response attached *)
| GitHubError (code : Z) (msg : string)
| AggregateError (errs : list exn)    (* every racer of Promise.any rejected *)
| TypeError (msg : string)
| SyntaxError (msg : string)
| Error (msg : string).

(** [response.statusCode === 403] *)
Definition status_is_403 (r : response) : bool :=
  match statusCode r with Some n => Z.eqb n 403 | None => false end.

Definition error_response (e : exn) : option response :=
  match e with
  | HTTPError r | ParseError r => Some r
  | _ => None
  end.

(** [error instanceof got.ParseError] *)
Definition is_ParseError (e : exn) : bool :=
  match e with ParseError _ => true | _ => false end.

(** [err.code === 403] *)
Definition code_is_403 (e : exn) : bool :=
  match e with GitHubError c _ => Z.eqb c 403 | _ => false end.

Inductive outcome (A : Type) : Type :=
| Ok (a : A)
| Throw (e : exn).
Arguments Ok {A} a.
Arguments Throw {A} e.

Definition obind {A B : Type} (o : outcome A) (k : A -> outcome B) : outcome B :=
  match o with Ok a => k a | Throw e => Throw e end.

Notation "'let?' x ':=' c 'in' k" := (obind c (fun x => k))
  (at level 10, x pattern, c at level 100, k at level 200).

(** [v.k] and [v[k]] for keys that no prototype defines: reading from
    [undefined] or [null] throws, a missing own property reads [undefined]. *)
Definition member (v : value) (k : string) : outcome value :=
  match v with
  | VUndefined => Throw (TypeError (tpl ["Cannot read property '"; k; "' of undefined"]))
  | VNull => Throw (TypeError (tpl ["Cannot read property '"; k; "' of null"]))
  | _ => Ok (match own_prop v k with Some x => x | None => VUndefined end)
  end.

(** [v.hasOwnProperty] names the method of [Object.prototype] only on a
    value that is neither [undefined] nor [null] and owns no key
    ["hasOwnProperty"] itself: an own member shadows the inherited one. *)
Definition inherits_hasOwnProperty (v : value) : bool :=
  match v with
  | VUndefined | VNull => false
  | _ => match own_prop v "hasOwnProperty" with Some _ => false | None => true end
  end.

(** [v.hasOwnProperty(k)]: the method is looked up on [v] before it is
    called.  An own member of that name is what gets called, and no [value]
    is a function, so the call throws. *)
Definition hasOwnProperty (v : value) (k : string) : outcome bool :=
  match v with
  | VUndefined => Throw (TypeError "Cannot read property 'hasOwnProperty' of undefined")
  | VNull => Throw (TypeError "Cannot read property 'hasOwnProperty' of null")
  | _ => match own_prop v "hasOwnProperty" with
         | Some _ => Throw (TypeError "hasOwnProperty is not a function")
         | None => Ok (match own_prop v k with Some _ => true | None => false end)
         end
  end.

Fixpoint is_substring (needle hay : string) : bool :=
  if String.prefix needle hay then true
  else match hay with
       | EmptyString => false
       | String _ rest => is_substring needle rest
       end.

(** [v.includes(p)]: arrays test membership, strings test for a substring,
    nothing else has the method. *)
Definition includes (v : value) (p : option string) : outcome bool :=
  match v with
  | VArr items => Ok (existsb (strict_eq_param p) items)
  | VStr s => Ok (is_substring (param_text p) s)
  | VUndefined => Throw (TypeError "Cannot read property 'includes' of undefined")
  | VNull => Throw (TypeError "Cannot read property 'includes' of null")
  | _ => Throw (TypeError "includes is not a function")
  end.

(** [v.filter(f)]: only arrays have the method. *)
Definition array_filter (f : value -> bool) (v : value) : outcome (list value) :=
  match v with
  | VArr items => Ok (List.filter f items)
  | VUndefined => Throw (TypeError "Cannot read property 'filter' of undefined")
  | VNull => Throw (TypeError "Cannot read property 'filter' of null")
  | _ => Throw (TypeError "filter is not a function")
  end.

(** [Object.keys(v)] for a truthy [v]. *)
Definition Object_keys (v : value) : list string :=
  match v with
  | VObj props => List.map fst props
  | VArr items => List.map nat_text (seq 0 (List.length items))
  | VStr s => List.map nat_text (seq 0 (String.length s))
  | _ => []
  end.

(** ** [Array.prototype.sort] with a comparator that may throw

    Insertion from the right: an element goes before the first element it
    does not sort after, so elements that compare equal keep their order. *)

Section Sort.
Context {A : Type} (cmp : A -> A -> outcome Z).

Fixpoint insert_by (x : A) (l : list A) : outcome (list A) :=
  match l with
  | [] => Ok [x]
  | y :: l' =>
      let? c := cmp x y in
      if Z.leb c 0 then Ok (x :: y :: l')
      else let? r := insert_by x l' in Ok (y :: r)
  end.

Fixpoint sort_by (l : list A) : outcome (list A) :=
  match l with
  | [] => Ok []
  | x :: l' => let? s := sort_by l' in insert_by x s
  end.

(** [a] may stand before [b]: the comparator answers and does not put [a]
    after [b]. *)
Definition before (a b : A) : Prop := exists c, cmp a b = Ok c /\ c <= 0.
End Sort.

(** ** The libraries the file calls *)

(** The [semver] package: [valid] and [prerelease] are used for their
    truthiness only, [rcompare] throws on a version it cannot parse,
    [maxSatisfying] answers [null] when nothing satisfies the range. *)
Class SemVer : Type := {
  semver_valid : string -> bool;
  semver_prerelease : string -> bool;
  semver_rcompare : string -> string -> outcome Z;
  semver_maxSatisfying : list string -> string -> option string;
}.

(** [JSON.stringify(v, null, '\t')] and [JSON.parse]. *)
Class JSON : Type := {
  JSON_stringify : value -> string;
  JSON_parse : string -> outcome value;
}.

Class URI : Type := {
  encodeURIComponent : string -> string;
}.

(** [config.get('v1')]: the fields the file reads. *)
Record config : Type := {
  cdn_sourceUrl : string;
  npm_sourceUrl : string + list string;
  npm_maxAge : Z;
  gh_maxAge : Z;
  maxAgeStatic : Z;
}.

(** ** The world a request runs in *)

(** A Redis string with the expiry it was written with. *)
Record entry : Type := { payload : string; ttl : option Z }.

Inductive event : Type :=
| RedisGet (key : string)
| RedisSet (key data : string) (ex : option Z)
| HttpGet (url : string)
| GitHubGetTags (owner repository : string)
| GitHubNextPage
| LogError (msg : string).

Record world : Type := {
  redis : gmap string entry;
  trace : list event;
  ctx_body : value;
  ctx_maxAge : option Z;
}.

(** A reply of the GitHub client to a tag listing: a rejection, or a page
    with its data and, when the reply links to a next page, what asking for
    that page gives. *)
Inductive gh_reply : Type :=
| GhRejected (e : exn)
| GhPage (data : value) (next : option gh_reply).

(** What the upstream services answer during one call. [arrival] orders the
    completion of requests that run concurrently. *)
Record upstream : Type := {
  http_get : string -> outcome response;
  arrival : string -> nat;
  listTags : string -> string -> gh_reply;
}.

(** [this.params] *)
Record params : Type := {
  type : string;
  name : string;
  version : option string;
  user : string;
  repo : string;
}.

(** ** The monad of asynchronous methods *)

Definition M (A : Type) : Type := world -> outcome A * world.

Definition ret {A : Type} (a : A) : M A := fun w => (Ok a, w).

Definition throw {A : Type} (e : exn) : M A := fun w => (Throw e, w).

Definition bind {A B : Type} (c : M A) (k : A -> M B) : M B :=
  fun w => match c w with
           | (Ok a, w') => k a w'
           | (Throw e, w') => (Throw e, w')
           end.

Notation "'let!' x ':=' c 'in' k" := (bind c (fun x => k))
  (at level 10, x pattern, c at level 100, k at level 200).

Definition lift {A : Type} (o : outcome A) : M A := fun w => (o, w).

(** [try { c } catch (e) { h e }] *)
Definition try_catch {A : Type} (c : M A) (h : exn -> M A) : M A :=
  fun w => match c w with
           | (Ok a, w') => (Ok a, w')
           | (Throw e, w') => h e w'
           end.

Definition emit (e : event) : M unit :=
  fun w => (Ok tt, {| redis := redis w; trace := (trace w ++ [e])%list;
                      ctx_body := ctx_body w; ctx_maxAge := ctx_maxAge w |}).

Definition redis_getAsync (key : string) : M (option string) :=
  let! _ := emit (RedisGet key) in
  fun w => (Ok (payload <$> redis w !! key), w).

Definition redis_setAsync (key data : string) (ex : option Z) : M unit :=
  let! _ := emit (RedisSet key data ex) in
  fun w => (Ok tt, {| redis := <[key := {| payload := data; ttl := ex |}]> (redis w);
                      trace := trace w; ctx_body := ctx_body w; ctx_maxAge := ctx_maxAge w |}).

(** [this.ctx.body = v] *)
Definition set_body (v : value) : M unit :=
  fun w => (Ok tt, {| redis := redis w; trace := trace w;
                      ctx_body := v; ctx_maxAge := ctx_maxAge w |}).

(** [this.ctx.maxAge = n] *)
Definition set_maxAge (n : Z) : M unit :=
  fun w => (Ok tt, {| redis := redis w; trace := trace w;
                      ctx_body := ctx_body w; ctx_maxAge := Some n |}).

(** [if (s)] on what [getAsync] answered: [null] and the empty string are falsy. *)
Definition cached (s : option string) : option string :=
  match s with
  | Some t => if String.eqb t EmptyString then None else Some t
  | None => None
  end.

(** [got(url, { json: true, timeout: 30000 })] *)
Definition got (up : upstream) (url : string) : M response :=
  let! _ := emit (HttpGet url) in lift (http_get up url).

(** [Promise.any]: every request is issued; the reply that fulfils first wins
    (the earlier request on a tie); when none fulfils the rejections are
    gathered. *)
Fixpoint first_fulfilled (up : upstream) (urls : list string) (best : option (nat * response))
  : option (nat * response) :=
  match urls with
  | [] => best
  | url :: rest =>
      let best' :=
        match http_get up url, best with
        | Ok r, Some (t, _) => if Nat.ltb (arrival up url) t then Some (arrival up url, r) else best
        | Ok r, None => Some (arrival up url, r)
        | Throw _, _ => best
        end in
      first_fulfilled up rest best'
  end.

Definition rejections (up : upstream) (urls : list string) : list exn :=
  flat_map (fun url => match http_get up url with Ok _ => [] | Throw e => [e] end) urls.

Fixpoint emit_all (es : list event) : M unit :=
  match es with
  | [] => ret tt
  | e :: rest => let! _ := emit e in emit_all rest
  end.

Definition Promise_any_got (up : upstream) (urls : list string) : M response :=
  let! _ := emit_all (List.map HttpGet urls) in
  match first_fulfilled up urls None with
  | Some (_, r) => ret r
  | None => throw (AggregateError (rejections up urls))
  end.

(** [_.pick(v, ks)] for keys without dots. *)
Definition pick (v : value) (ks : list string) : value :=
  VObj (flat_map (fun k => match v with
                           | VObj props => match assoc k props with
                                           | Some x => [(k, x)]
                                           | None => []
                                           end
                           | _ => []
                           end) ks).

(** [_.map(v, 'name')]: an array is mapped element by element, a string
    character by character, another object over its own values in key
    order.  (An object with a numeric [length] lodash walks by index
    instead; the pages of the tag listing are arrays.) *)
Definition map_name (v : value) : list value :=
  let name_of x := match own_prop x "name" with Some n => n | None => VUndefined end in
  match v with
  | VArr items => List.map name_of items
  | VObj props => List.map (fun kv => name_of (snd kv)) props
  | VStr s => List.map (fun _ => VUndefined) (seq 0 (String.length s))
  | _ => []
  end.

(** ** The class [PackageRequest] *)

Section PackageRequest.
Context `{SemVer} `{JSON} `{URI}.
Variable v1Config : config.

(** *** Module-level functions *)

(** [semver.valid(v) && !semver.prerelease(v)] on an array element. *)
Definition stable_release (v : value) : bool :=
  match v with
  | VStr s => semver_valid s && negb (semver_prerelease s)
  | _ => false
  end.

(** [semver.rcompare] as the comparator of an array of values. *)
Definition rcompare_value (a b : value) : outcome Z :=
  match a, b with
  | VStr x, VStr y => semver_rcompare x y
  | _, _ => Throw (TypeError "Invalid Version")
  end.

Definition strings_of (l : list value) : list string :=
  flat_map (fun v => match v with VStr s => [s] | _ => [] end) l.

(** The [loadMore] closure of [fetchGitHubMetadata]; [versions] is the
    array it pushes to. *)
Fixpoint loadMore (versions : list value) (reply : gh_reply) : M value :=
  match reply with
  | GhRejected e => throw e
  | GhPage data next =>
      let versions' := (versions ++ map_name data)%list in
      let done := ret (VObj [("tags", VArr []); ("versions", VArr versions')]) in
      match next with
      | Some reply' =>
          if truthy data then let! _ := emit GitHubNextPage in loadMore versions' reply'
          else done
      | None => done
      end
  end.

Definition fetchGitHubMetadata (up : upstream) (owner repository : string) : M value :=
  try_catch
    (let! _ := emit (GitHubGetTags owner repository) in
     loadMore [] (listTags up owner repository))
    (fun err =>
       let! _ := (if code_is_403 err then emit (LogError "GitHub API rate limit exceeded.")
                  else ret tt) in
       throw err).

(** [name.charAt(0) === '@' ? '@' + encodeURIComponent(name.substr(1))
                            : encodeURIComponent(name)] *)
Definition encoded_name (n : string) : string :=
  match n with
  | String "@"%char rest => String "@"%char (encodeURIComponent rest)
  | _ => encodeURIComponent n
  end.

(** The query to the registry: one request when [sourceUrl] is a string,
    a race between all of them otherwise. *)
Definition registry_response (up : upstream) (n : string) : M response :=
  match npm_sourceUrl v1Config with
  | inl sourceUrl => got up (tpl [sourceUrl; "/"; n])
  | inr sourceUrls =>
      Promise_any_got up (List.map (fun sourceUrl => tpl [sourceUrl; "/"; n]) sourceUrls)
  end.

Definition fetchNpmMetadata (up : upstream) (n : string) : M value :=
  let n := encoded_name n in
  let! response := registry_response up n in
  if negb (truthy (body response)) then
    throw (Error (tpl ["Unable to retrieve versions for package "; n; "."]))
  else
    let! versions := lift (member (body response) "versions") in
    if negb (truthy versions) then
      throw (Error (tpl ["Unable to retrieve versions for package "; n; "."]))
    else
      let! tags := lift (member (body response) "dist-tags") in
      let! sorted := lift (sort_by semver_rcompare (Object_keys versions)) in
      ret (VObj [("tags", tags); ("versions", VArr (List.map VStr sorted))]).

(** *** Methods *)

Variable up : upstream.
Variable this : params.

Definition keys_files : string :=
  tpl ["package/"; type this; "/"; name this; "@"; param_text (version this); "/files"].

Definition keys_metadata : string :=
  tpl ["package/"; type this; "/"; name this; "/metadata"].

(** The address of the file listing. *)
Definition files_url : string :=
  tpl [cdn_sourceUrl v1Config; "/"; type this; "/"; name this; "@";
       param_text (version this); "/+json"].

Definition fetchFiles : M value :=
  try_catch
    (let! response := got up files_url in
     ret (pick (body response) ["default"; "files"]))
    (fun error =>
       match error_response error with
       | None => throw (TypeError "Cannot read property 'statusCode' of undefined")
       | Some r =>
           if status_is_403 r
           then ret (VObj [("status", VNum 403); ("message", body r)])
           else throw error
       end).

Definition fetchMetadata : M value :=
  if String.eqb (type this) "npm" then fetchNpmMetadata up (name this)
  else if String.eqb (type this) "gh" then fetchGitHubMetadata up (user this) (repo this)
  else throw (Error (tpl ["Unknown package type "; type this; "."])).

Definition getFilesAsJson : M string :=
  let! files := redis_getAsync keys_files in
  match cached files with
  | Some files => ret files
  | None =>
      let! fetched := fetchFiles in
      let files := JSON_stringify fetched in
      let! _ := redis_setAsync keys_files files None in
      ret files
  end.

Definition getFiles : M value :=
  let! files := getFilesAsJson in lift (JSON_parse files).

(** [v1Config[this.params.type].maxAge] *)
Definition config_maxAge : outcome Z :=
  if String.eqb (type this) "npm" then Ok (npm_maxAge v1Config)
  else if String.eqb (type this) "gh" then Ok (gh_maxAge v1Config)
  else Throw (TypeError "Cannot read property 'maxAge' of undefined").

Definition getMetadataAsJson : M string :=
  let! metadata := redis_getAsync keys_metadata in
  match cached metadata with
  | Some metadata => ret metadata
  | None =>
      let! fetched := fetchMetadata in
      let metadata := JSON_stringify fetched in
      let! maxAge := lift config_maxAge in
      let! _ := redis_setAsync keys_metadata metadata (Some maxAge) in
      ret metadata
  end.

Definition getMetadata : M value :=
  let! metadata := getMetadataAsJson in lift (JSON_parse metadata).

(** The callback of [getResolvedVersion], run on the parsed metadata. *)
Definition resolve (metadata : value) : outcome value :=
  let? all := member metadata "versions" in
  let? kept := array_filter stable_release all in
  let? versions := sort_by rcompare_value kept in
  let? pinned := includes all (version this) in
  if pinned then Ok (param_value (version this))
  else
    let? tags := member metadata "tags" in
    let? tagged := hasOwnProperty tags (param_text (version this)) in
    if tagged then member tags (param_text (version this))
    else if strict_eq_param (Some "latest") (param_value (version this))
            || param_falsy (version this)
    then Ok (nth 0 versions VUndefined)
    else Ok (match semver_maxSatisfying (strings_of versions) (param_text (version this)) with
             | Some v => VStr v
             | None => VNull
             end).

Definition getResolvedVersion : M value :=
  let! metadata := getMetadata in lift (resolve metadata).

Definition responseNotFound : M unit :=
  set_body (VObj [("status", VNum 404);
                  ("message", VStr (tpl ["Couldn't find "; name this; "@";
                                         param_text (version this); "."]))]).

Definition handleResolveVersion : M unit :=
  try_catch
    (let! resolved := getResolvedVersion in set_body (VObj [("version", resolved)]))
    (fun e => responseNotFound).

Definition handleVersions : M unit :=
  try_catch
    (let! metadata := getMetadataAsJson in set_body (VStr metadata))
    (fun e => responseNotFound).

(** [error.response.statusCode || 502] *)
Definition status_or_502 (r : response) : Z :=
  match statusCode r with
  | Some n => if Z.eqb n 0 then 502 else n
  | None => 502
  end.

Definition handleVersionFiles : M unit :=
  fun w =>
    match getMetadata w with
    | (Throw e, w') => responseNotFound w'
    | (Ok metadata, w') =>
        (let! all := lift (member metadata "versions") in
         let! pinned := lift (includes all (version this)) in
         if negb pinned then
           set_body (VObj [("status", VNum 404);
                           ("message", VStr (tpl ["Couldn't find version ";
                              param_text (version this); " for "; name this;
                              ". Make sure you use a specific version number, and not a version range or a tag."]))])
         else
           try_catch
             (let! files := getFiles in
              let! _ := set_body files in
              set_maxAge (maxAgeStatic v1Config))
             (fun error =>
                if is_ParseError error then
                  match error_response error with
                  | Some r => set_body (VObj [("status", VNum (status_or_502 r));
                                              ("message", body r)])
                  | None => throw (TypeError "Cannot read property 'statusCode' of undefined")
                  end
                else throw error)) w'
    end.

End PackageRequest.

(** ** A model of the [semver] package

    The parts of node-semver the file relies on, for strict versions
    [[v]MAJOR.MINOR.PATCH[-prerelease][+build]].  Two things are outside the
    model: numeric prerelease identifiers above [2^53 - 1] (compared as
    floating-point numbers by the package; refused here) and ranges other
    than x-ranges and plain versions (no range at all here). *)

Module NodeSemver.

Inductive ident : Type :=
| INum (n : N)
| IStr (s : string).

Record semver : Type := {
  major : N; minor : N; patch : N;
  prerelease : list ident;
}.

Definition is_digit (c : ascii) : bool :=
  let n := N_of_ascii c in (N.leb 48 n && N.leb n 57)%bool.

Definition is_ident_char (c : ascii) : bool :=
  let n := N_of_ascii c in
  (is_digit c || (N.leb 65 n && N.leb n 90) || (N.leb 97 n && N.leb n 122) || N.eqb n 45)%bool.

Definition is_space (c : ascii) : bool :=
  let n := N_of_ascii c in ((N.leb 9 n && N.leb n 13) || N.eqb n 32)%bool.

Fixpoint all_chars (f : ascii -> bool) (s : string) : bool :=
  match s with
  | EmptyString => true
  | String c rest => f c && all_chars f rest
  end.

Fixpoint rev_string (s acc : string) : string :=
  match s with
  | EmptyString => acc
  | String c rest => rev_string rest (String c acc)
  end.

Fixpoint trim_left (s : string) : string :=
  match s with
  | String c rest => if is_space c then trim_left rest else s
  | EmptyString => s
  end.

(** [s.trim()] for ASCII white space. *)
Definition trim (s : string) : string :=
  rev_string (trim_left (rev_string (trim_left s) EmptyString)) EmptyString.

(** [s.split(sep)] *)
Fixpoint split_on (sep : ascii) (s : string) : list string :=
  match s with
  | EmptyString => [EmptyString]
  | String c rest =>
      if Ascii.eqb c sep then EmptyString :: split_on sep rest
      else match split_on sep rest with
           | h :: t => String c h :: t
           | [] => [String c EmptyString]
           end
  end.

(** The text before the first [sep] and, when there is one, the text after it. *)
Fixpoint cut_at (sep : ascii) (s : string) : string * option string :=
  match s with
  | EmptyString => (EmptyString, None)
  | String c rest =>
      if Ascii.eqb c sep then (EmptyString, Some rest)
      else let (a, b) := cut_at sep rest in (String c a, b)
  end.

Definition MAX_SAFE_INTEGER : N := 9007199254740991.

(** [0|[1-9]\d*], at most [MAX_SAFE_INTEGER]. *)
Definition numeric (s : string) : option N :=
  match s with
  | EmptyString => None
  | String c rest =>
      if (all_chars is_digit s && (negb (Ascii.eqb c "0") || String.eqb rest EmptyString))%bool then
        match NilZero.uint_of_string s with
        | Some d => let n := N.of_uint d in
                    if N.leb n MAX_SAFE_INTEGER then Some n else None
        | None => None
        end
      else None
  end.

(** A prerelease identifier: numeric, or [\d*[a-zA-Z-][a-zA-Z0-9-]*]. *)
Definition identifier (s : string) : option ident :=
  if all_chars is_digit s then option_map INum (numeric s)
  else if all_chars is_ident_char s then Some (IStr s)
  else None.

Fixpoint all_some {A : Type} (l : list (option A)) : option (list A) :=
  match l with
  | [] => Some []
  | Some a :: rest => option_map (cons a) (all_some rest)
  | None :: _ => None
  end.

Definition build_ok (s : string) : bool :=
  forallb (fun part => negb (String.eqb part EmptyString) && all_chars is_ident_char part)%bool
          (split_on "." s).

(** The regular expression [FULL]. *)
Definition parse_full (s : string) : option semver :=
  let s := match s with String "v" rest => rest | _ => s end in
  let (main_pre, build) := cut_at "+" s in
  let (main, pre) := cut_at "-" main_pre in
  if match build with Some b => build_ok b | None => true end then
    match List.map numeric (split_on "." main) with
    | [Some a; Some b; Some c] =>
        match pre with
        | None => Some {| major := a; minor := b; patch := c; prerelease := [] |}
        | Some p =>
            match all_some (List.map identifier (split_on "." p)) with
            | Some ids => Some {| major := a; minor := b; patch := c; prerelease := ids |}
            | None => None
            end
        end
    | _ => None
    end
  else None.

Definition MAX_LENGTH : nat := 256.

(** [parse(version)]: the text as given has to match. *)
Definition parse (s : string) : option semver :=
  if Nat.ltb MAX_LENGTH (String.length s) then None else parse_full s.

(** [new SemVer(version)]: the text is trimmed first. *)
Definition construct (s : string) : outcome semver :=
  if Nat.ltb MAX_LENGTH (String.length s) then
    Throw (TypeError "version is longer than 256 characters")
  else match parse_full (trim s) with
       | Some v => Ok v
       | None => Throw (TypeError (tpl ["Invalid Version: "; s]))
       end.

(** *** Precedence *)

Definition lexc (c1 c2 : comparison) : comparison :=
  match c1 with Eq => c2 | _ => c1 end.

Fixpoint lex_list {A : Type} (cmp : A -> A -> comparison) (l1 l2 : list A) : comparison :=
  match l1, l2 with
  | [], [] => Eq
  | [], _ :: _ => Lt
  | _ :: _, [] => Gt
  | a :: l1', b :: l2' => lexc (cmp a b) (lex_list cmp l1' l2')
  end.

Definition codes (s : string) : list N := List.map N_of_ascii (list_ascii_of_string s).

(** [compareIdentifiers] *)
Definition compareIdentifiers (a b : ident) : comparison :=
  match a, b with
  | INum x, INum y => N.compare x y
  | INum _, IStr _ => Lt
  | IStr _, INum _ => Gt
  | IStr x, IStr y => lex_list N.compare (codes x) (codes y)
  end.

(** [comparePre]: a release is above its prereleases. *)
Definition comparePre (a b : list ident) : comparison :=
  match a, b with
  | [], [] => Eq
  | [], _ :: _ => Gt
  | _ :: _, [] => Lt
  | _, _ => lex_list compareIdentifiers a b
  end.

Definition compareMain (a b : semver) : comparison :=
  lexc (N.compare (major a) (major b))
       (lexc (N.compare (minor a) (minor b)) (N.compare (patch a) (patch b))).

Definition compare_parsed (a b : semver) : comparison :=
  lexc (compareMain a b) (comparePre (prerelease a) (prerelease b)).

Definition sign (c : comparison) : Z :=
  match c with Lt => -1 | Eq => 0 | Gt => 1 end.

(** [compare(a, b)] is [new SemVer(a).compare(new SemVer(b))]. *)
Definition compare (a b : string) : outcome Z :=
  let? x := construct a in
  let? y := construct b in
  Ok (sign (compare_parsed x y)).

Definition rcompare (a b : string) : outcome Z := compare b a.

Definition valid (s : string) : bool :=
  match parse s with Some _ => true | None => false end.

Definition has_prerelease (s : string) : bool :=
  match parse s with
  | Some v => match prerelease v with [] => false | _ => true end
  | None => false
  end.

(** *** X-ranges *)

Inductive xr : Type := XAny | XNum (n : N).

Definition xr_of (s : string) : option xr :=
  if (String.eqb s "x" || String.eqb s "X" || String.eqb s "*")%bool then Some XAny
  else option_map XNum (numeric s).

(** The versions [lo <= v < hi] (no upper bound when [hi] is [None]). *)
Record bounds : Type := { lo : N * N * N; hi : option (N * N * N) }.

Definition x_range (r : string) : option bounds :=
  let r := trim r in
  if String.eqb r EmptyString then Some {| lo := (0, 0, 0)%N; hi := None |}
  else
    match all_some (List.map xr_of (split_on "." r)) with
    | Some (XAny :: _) =>
        if Nat.leb (List.length (split_on "." r)) 3
        then Some {| lo := (0, 0, 0)%N; hi := None |} else None
    | Some [XNum a] | Some [XNum a; XAny] | Some [XNum a; XAny; _] =>
        Some {| lo := (a, 0, 0)%N; hi := Some (a + 1, 0, 0)%N |}
    | Some [XNum a; XNum b] | Some [XNum a; XNum b; XAny] =>
        Some {| lo := (a, b, 0)%N; hi := Some (a, b + 1, 0)%N |}
    | Some [XNum a; XNum b; XNum c] =>
        Some {| lo := (a, b, c)%N; hi := Some (a, b, c + 1)%N |}
    | _ => None
    end.

Definition triple_cmp (x y : N * N * N) : comparison :=
  let '(a, b, c) := x in
  let '(a', b', c') := y in
  lexc (N.compare a a') (lexc (N.compare b b') (N.compare c c')).

Definition in_bounds (b : bounds) (v : semver) : bool :=
  match prerelease v with
  | [] =>
      let t := (major v, minor v, patch v) in
      (match triple_cmp (lo b) t with Gt => false | _ => true end)
      && (match hi b with
          | Some h => match triple_cmp t h with Lt => true | _ => false end
          | None => true
          end)
  | _ => false
  end.

(** [satisfies(version, range)] *)
Definition satisfies (version : string) (b : bounds) : bool :=
  match construct version with
  | Ok v => in_bounds b v
  | Throw _ => false
  end.

(** [maxSatisfying]: the first of the highest satisfying versions. *)
Fixpoint max_of (b : bounds) (versions : list string) (best : option (string * semver))
  : option string :=
  match versions with
  | [] => option_map fst best
  | v :: rest =>
      let best' :=
        if satisfies v b then
          match construct v, best with
          | Ok sv, Some (_, m) =>
              match compare_parsed m sv with Lt => Some (v, sv) | _ => best end
          | Ok sv, None => Some (v, sv)
          | Throw _, _ => best
          end
        else best in
      max_of b rest best'
  end.

Definition maxSatisfying (versions : list string) (range : string) : option string :=
  match x_range range with
  | Some b => max_of b versions None
  | None => None
  end.

(** *** Vocabulary of the facts about the model *)

(** A three-way comparison that is a total preorder. *)
Record order_laws {A : Type} (cmp : A -> A -> comparison) : Prop := {
  ol_sym : forall a b, cmp b a = CompOpp (cmp a b);
  ol_eq : forall a b c, cmp a b = Eq -> cmp a c = cmp b c;
  ol_lt : forall a b c, cmp a b = Lt -> cmp b c = Lt -> cmp a c = Lt;
}.
Arguments ol_sym {A cmp}.
Arguments ol_eq {A cmp}.
Arguments ol_lt {A cmp}.

(** The characters a strict version is written with. *)
Definition version_char (c : ascii) : bool :=
  (is_ident_char c || Ascii.eqb c "." || Ascii.eqb c "+" || Ascii.eqb c "v")%bool.

End NodeSemver.

#[local] Instance node_semver : SemVer := {|
  semver_valid := NodeSemver.valid;
  semver_prerelease := NodeSemver.has_prerelease;
  semver_rcompare := NodeSemver.rcompare;
  semver_maxSatisfying := NodeSemver.maxSatisfying;
|}.

(** ** A model of [JSON] and of [encodeURIComponent]

    Texts are byte strings.  Numbers are integers: a fraction or an exponent
    is outside the model and refused by the parser. *)

Module JsJSON.

Definition hex_digit (upper : bool) (n : N) : ascii :=
  ascii_of_N (if N.ltb n 10 then 48 + n else (if upper then 55 else 87) + n).

Definition hex2 (upper : bool) (c : ascii) : string :=
  let n := N_of_ascii c in
  String (hex_digit upper (N.div n 16)) (String (hex_digit upper (N.modulo n 16)) EmptyString).

Definition dquote : ascii := ascii_of_N 34.
Definition dq : string := String dquote EmptyString.

(** [QuoteJSONString]: the escapes of a string literal. *)
Fixpoint escape (s : string) : string :=
  match s with
  | EmptyString => EmptyString
  | String c rest =>
      let n := N_of_ascii c in
      let e :=
        if N.eqb n 34 then String "\" dq
        else if N.eqb n 92 then "\\"
        else if N.eqb n 8 then "\b"
        else if N.eqb n 12 then "\f"
        else if N.eqb n 10 then "\n"
        else if N.eqb n 13 then "\r"
        else if N.eqb n 9 then "\t"
        else if N.ltb n 32 then String.append "\u00" (hex2 false c)
        else String c EmptyString in
      String.append e (escape rest)
  end.

Definition quote (s : string) : string := tpl [dq; escape s; dq].

Definition tab : string := String (ascii_of_N 9) EmptyString.
Definition newline : string := String (ascii_of_N 10) EmptyString.

(** [SerializeJSONProperty] with the gap ['\t']; [None] is [undefined]. *)
Fixpoint serialize (indent : string) (v : value) : option string :=
  match v with
  | VUndefined => None
  | VNull => Some "null"
  | VBool true => Some "true"
  | VBool false => Some "false"
  | VNum n => Some (Z_text n)
  | VStr s => Some (quote s)
  | VArr items =>
      let stepback := indent in
      let indent := String.append indent tab in
      match List.map (fun x => match serialize indent x with
                               | Some t => t
                               | None => "null"
                               end) items with
      | [] => Some "[]"
      | partial =>
          Some (tpl ["["; newline; indent;
                     String.concat (tpl [","; newline; indent]) partial;
                     newline; stepback; "]"])
      end
  | VObj props =>
      let stepback := indent in
      let indent := String.append indent tab in
      match flat_map (fun kv => match serialize indent (snd kv) with
                                | Some t => [tpl [quote (fst kv); ": "; t]]
                                | None => []
                                end) props with
      | [] => Some "{}"
      | partial =>
          Some (tpl ["{"; newline; indent;
                     String.concat (tpl [","; newline; indent]) partial;
                     newline; stepback; "}"])
      end
  end.

(** [JSON.stringify(v, null, '\t')]; the text ["undefined"] stands for the
    value [undefined] it answers for [undefined] itself. *)
Definition stringify (v : value) : string :=
  match serialize EmptyString v with Some t => t | None => "undefined" end.

(** *** Parsing *)

Definition is_ws (c : ascii) : bool :=
  let n := N_of_ascii c in (N.eqb n 32 || N.eqb n 9 || N.eqb n 10 || N.eqb n 13)%bool.

Fixpoint skip_ws (s : string) : string :=
  match s with
  | String c rest => if is_ws c then skip_ws rest else s
  | EmptyString => s
  end.

Definition hex_value (c : ascii) : option N :=
  let n := N_of_ascii c in
  if (N.leb 48 n && N.leb n 57)%bool then Some (n - 48)%N
  else if (N.leb 65 n && N.leb n 70)%bool then Some (n - 55)%N
  else if (N.leb 97 n && N.leb n 102)%bool then Some (n - 87)%N
  else None.

(** The UTF-8 bytes of a code unit of the basic plane. *)
Definition utf8 (u : N) : string :=
  if N.ltb u 128 then String (ascii_of_N u) EmptyString
  else if N.ltb u 2048 then
    String (ascii_of_N (192 + N.div u 64)) (String (ascii_of_N (128 + N.modulo u 64)) EmptyString)
  else
    String (ascii_of_N (224 + N.div u 4096))
      (String (ascii_of_N (128 + N.modulo (N.div u 64) 64))
         (String (ascii_of_N (128 + N.modulo u 64)) EmptyString)).

(** The rest of a string literal, after its opening quote. *)
Fixpoint string_body (s : string) : option (string * string) :=
  match s with
  | EmptyString => None
  | String c rest =>
      let n := N_of_ascii c in
      if N.eqb n 34 then Some (EmptyString, rest)
      else if N.ltb n 32 then None
      else if N.eqb n 92 then
        match rest with
        | String "u" (String a (String b (String c' (String d rest')))) =>
            match hex_value a, hex_value b, hex_value c', hex_value d with
            | Some w, Some x, Some y, Some z =>
                option_map (fun r => (String.append (utf8 (((w * 16 + x) * 16 + y) * 16 + z)%N)
                                                    (fst r), snd r))
                           (string_body rest')
            | _, _, _, _ => None
            end
        | String e rest' =>
            let m := N_of_ascii e in
            let plain (k : N) :=
              option_map (fun r => (String (ascii_of_N k) (fst r), snd r)) (string_body rest') in
            if N.eqb m 34 then plain 34%N
            else if N.eqb m 92 then plain 92%N
            else if N.eqb m 47 then plain 47%N
            else if N.eqb m 98 then plain 8%N
            else if N.eqb m 102 then plain 12%N
            else if N.eqb m 110 then plain 10%N
            else if N.eqb m 114 then plain 13%N
            else if N.eqb m 116 then plain 9%N
            else None
        | EmptyString => None
        end
      else option_map (fun r => (String c (fst r), snd r)) (string_body rest)
  end.

Fixpoint take_digits (s : string) : string * string :=
  match s with
  | String c rest =>
      if NodeSemver.is_digit c then let (d, r) := take_digits rest in (String c d, r)
      else (EmptyString, s)
  | EmptyString => (EmptyString, s)
  end.

(** An optional minus sign and [0|[1-9]\d*], not followed by a fraction or
    an exponent. *)
Definition number (s : string) : option (Z * string) :=
  let (negative, s') := match s with String "-" r => (true, r) | _ => (false, s) end in
  let (digits, rest) := take_digits s' in
  match NodeSemver.numeric digits, NilZero.uint_of_string digits with
  | Some _, Some d =>
      match rest with
      | String "." _ | String "e" _ | String "E" _ => None
      | _ => Some (if negative then Z.opp (Z.of_N (N.of_uint d)) else Z.of_N (N.of_uint d), rest)
      end
  | None, Some d =>
      (* digits above 2^53 - 1 are read as written *)
      match digits, rest with
      | String "0" (String _ _), _ => None
      | _, String "." _ | _, String "e" _ | _, String "E" _ => None
      | _, _ => Some (if negative then Z.opp (Z.of_N (N.of_uint d)) else Z.of_N (N.of_uint d), rest)
      end
  | _, None => None
  end.

Definition is_array_index (k : string) : option N :=
  match NodeSemver.numeric k with
  | Some n => if N.ltb n 4294967295 then Some n else None
  | None => None
  end.

(** [CreateDataProperty]: a key that is present keeps its place; a new
    array index goes among the indices in ascending order, before every
    other key; any other new key goes last. *)
Fixpoint define (k : string) (v : value) (props : list (string * value))
  : list (string * value) :=
  match props with
  | [] => [(k, v)]
  | (k', v') :: rest =>
      if String.eqb k k' then (k, v) :: rest
      else if existsb (fun kv => String.eqb k (fst kv)) rest then (k', v') :: define k v rest
      else match is_array_index k, is_array_index k' with
           | Some i, Some j => if N.ltb i j then (k, v) :: props else (k', v') :: define k v rest
           | Some _, None => (k, v) :: props
           | None, _ => (k', v') :: define k v rest
           end
  end.

Fixpoint starts (lit s : string) : option string :=
  match lit, s with
  | EmptyString, _ => Some s
  | String a lit', String b s' => if Ascii.eqb a b then starts lit' s' else None
  | _, EmptyString => None
  end.

Fixpoint parse_value (fuel : nat) (s : string) : option (value * string) :=
  match fuel with
  | O => None
  | S fuel' =>
      match skip_ws s with
      | String "[" rest =>
          match skip_ws rest with
          | String "]" rest' => Some (VArr [], rest')
          | _ => parse_elements fuel' [] rest
          end
      | String "{" rest =>
          match skip_ws rest with
          | String "}" rest' => Some (VObj [], rest')
          | _ => parse_members fuel' [] rest
          end
      | String "n" _ as t => option_map (fun r => (VNull, r)) (starts "null" t)
      | String "t" _ as t => option_map (fun r => (VBool true, r)) (starts "true" t)
      | String "f" _ as t => option_map (fun r => (VBool false, r)) (starts "false" t)
      | String c rest as t =>
          if Ascii.eqb c dquote
          then option_map (fun r => (VStr (fst r), snd r)) (string_body rest)
          else option_map (fun r => (VNum (fst r), snd r)) (number t)
      | EmptyString => None
      end
  end
with parse_elements (fuel : nat) (acc : list value) (s : string) : option (value * string) :=
  match fuel with
  | O => None
  | S fuel' =>
      match parse_value fuel' s with
      | Some (v, rest) =>
          match skip_ws rest with
          | String "," rest' => parse_elements fuel' (acc ++ [v])%list rest'
          | String "]" rest' => Some (VArr (acc ++ [v])%list, rest')
          | _ => None
          end
      | None => None
      end
  end
with parse_members (fuel : nat) (acc : list (string * value)) (s : string)
  : option (value * string) :=
  match fuel with
  | O => None
  | S fuel' =>
      match skip_ws s with
      | String c rest =>
          if Ascii.eqb c dquote then
            match string_body rest with
            | Some (k, rest1) =>
                match skip_ws rest1 with
                | String ":" rest2 =>
                    match parse_value fuel' rest2 with
                    | Some (v, rest3) =>
                        match skip_ws rest3 with
                        | String "," rest4 => parse_members fuel' (define k v acc) rest4
                        | String "}" rest4 => Some (VObj (define k v acc), rest4)
                        | _ => None
                        end
                    | None => None
                    end
                | _ => None
                end
            | None => None
            end
          else None
      | EmptyString => None
      end
  end.

(** [JSON.parse] *)
Definition parse (s : string) : outcome value :=
  match parse_value (S (String.length s)) s with
  | Some (v, rest) =>
      match skip_ws rest with
      | EmptyString => Ok v
      | _ => Throw (SyntaxError "Unexpected token in JSON")
      end
  | None => Throw (SyntaxError "Unexpected token in JSON")
  end.

(** *** [encodeURIComponent] *)

Definition unreserved (c : ascii) : bool :=
  let n := N_of_ascii c in
  (NodeSemver.is_digit c || (N.leb 65 n && N.leb n 90) || (N.leb 97 n && N.leb n 122)
   || existsb (N.eqb n) [45; 95; 46; 33; 126; 42; 39; 40; 41]%N)%bool.

Fixpoint encodeURIComponent (s : string) : string :=
  match s with
  | EmptyString => EmptyString
  | String c rest =>
      if unreserved c then String c (encodeURIComponent rest)
      else String "%" (String.append (hex2 true c) (encodeURIComponent rest))
  end.

End JsJSON.

#[local] Instance js_json : JSON := {|
  JSON_stringify := JsJSON.stringify;
  JSON_parse := JsJSON.parse;
|}.

#[local] Instance js_uri : URI := {|
  encodeURIComponent := JsJSON.encodeURIComponent;
|}.

(** ** Vocabulary of the properties *)

(** Descending precedence: [a] is not below [b]. *)
Definition sorts_before `{SemVer} (a b : string) : Prop := before semver_rcompare a b.

(** What the file relies on from [semver]: versions that are valid compare
    without throwing, precedence is a total preorder where it is defined,
    and [maxSatisfying] answers one of the versions it was given. *)
Class SemVerLaws `{SemVer} : Prop := {
  rcompare_valid : forall a b,
    semver_valid a = true -> semver_valid b = true -> exists c, semver_rcompare a b = Ok c;
  rcompare_total : forall a b c, semver_rcompare a b = Ok c -> 0 < c -> sorts_before b a;
  rcompare_trans : forall a b c, sorts_before a b -> sorts_before b c -> sorts_before a c;
  maxSatisfying_In : forall l r v, semver_maxSatisfying l r = Some v -> In v l;
}.

(** [JSON.stringify] never answers the empty text. *)
Class JSONLaws `{JSON} : Prop := {
  stringify_truthy : forall v, JSON_stringify v <> EmptyString;
}.

(** The shape both fetchers answer with. *)
Definition PackageMetadata (tags : value) (versions : list string) : value :=
  VObj [("tags", tags); ("versions", VArr (List.map VStr versions))].

(** The world after more calls were traced. *)
Definition logged (w : world) (evs : list event) : world :=
  {| redis := redis w; trace := (trace w ++ evs)%list;
     ctx_body := ctx_body w; ctx_maxAge := ctx_maxAge w |}.

Definition with_body (w : world) (v : value) : world :=
  {| redis := redis w; trace := trace w; ctx_body := v; ctx_maxAge := ctx_maxAge w |}.

Definition is_write (e : event) : bool :=
  match e with RedisSet _ _ _ => true | _ => false end.


(** A computation that only adds calls other than cache writes to the
    trace: it leaves the store and the request context alone. *)
Definition quiet {A : Type} (c : M A) : Prop :=
  forall w, exists evs,
    snd (c w) = logged w evs /\ forallb (fun e => negb (is_write e)) evs = true.

(** The body of [responseNotFound]. *)
Definition not_found (this : params) : value :=
  VObj [("status", VNum 404);
        ("message", VStr (tpl ["Couldn't find "; name this; "@"; param_text (version this); "."]))].

(** The specifier is literally one of the versions. *)
Definition pinned_in (vs : list string) (p : option string) : bool :=
  match p with
  | Some s => if in_dec string_dec s vs then true else false
  | None => false
  end.

(** [specifier === 'latest' || !specifier] *)
Definition latest_or_absent (p : option string) : bool :=
  match p with
  | Some s => String.eqb s "latest" || String.eqb s EmptyString
  | None => true
  end.

(** ** Vocabulary of the further properties *)

(** A computation that leaves the request context alone. *)
Definition keeps_ctx {A : Type} (c : M A) : Prop :=
  forall w, ctx_body (snd (c w)) = ctx_body w /\ ctx_maxAge (snd (c w)) = ctx_maxAge w.

Definition is_throw {A : Type} (o : outcome A) : bool :=
  match o with Throw _ => true | Ok _ => false end.

Fixpoint last_char (s : string) : option ascii :=
  match s with
  | EmptyString => None
  | String c rest => match last_char rest with Some d => Some d | None => Some c end
  end.

(** The characters that cannot end or extend a path segment of a URL. *)
Definition path_safe (c : ascii) : bool :=
  negb (Ascii.eqb c "/") && negb (Ascii.eqb c "?") && negb (Ascii.eqb c "#").

(** The own enumerable properties of a value, as [Object.assign] reads them
    from a source. *)
Definition Object_entries (v : value) : list (string * value) :=
  match v with
  | VObj props => props
  | VArr items => combine (List.map nat_text (seq 0 (List.length items))) items
  | VStr s =>
      combine (List.map nat_text (seq 0 (String.length s)))
              (List.map (fun c => VStr (String c EmptyString)) (list_ascii_of_string s))
  | _ => []
  end.

(** [Object.assign(target, source)]: every property of the source is set on
    the target, in order. *)
Definition Object_assign (target : list (string * value)) (source : value)
  : list (string * value) :=
  fold_left (fun acc kv => JsJSON.define (fst kv) (snd kv) acc) (Object_entries source) target.

(** [src/lib/db/index.js]: the [connection] option given to [knex], from
    [dbConfig.connection]. *)
Definition knex_connection (dbConfig_connection : value) : list (string * value) :=
  Object_assign [("timezone", VStr "UTC"); ("multipleStatements", VBool true)]
                dbConfig_connection.

(** The TTL [getMetadataAsJson] writes with, for the two source types. *)
Definition maxAge_of (v1Config : config) (this : params) : Z :=
  if String.eqb (type this) "npm" then npm_maxAge v1Config else gh_maxAge v1Config.

(** ** Concrete requests *)

Module Examples.

Definition cfg : config :=
  {| cdn_sourceUrl := "https://cdn.jsdelivr.net";
     npm_sourceUrl := inl "https://registry.npmjs.org";
     npm_maxAge := 300; gh_maxAge := 300; maxAgeStatic := 31536000 |}.

Definition request (t n : string) (v : option string) : params :=
  {| type := t; name := n; version := v; user := "jquery"; repo := "jquery" |}.

Definition left_pad : option string -> params := request "npm" "left-pad".

Definition fresh : world :=
  {| redis := ∅; trace := []; ctx_body := VUndefined; ctx_maxAge := None |}.

(** A store that holds the metadata of one package. *)
Definition holding (this : params) (metadata : value) : world :=
  {| redis := {[ keys_metadata this :=
                   {| payload := JsJSON.stringify metadata; ttl := Some 300 |} ]};
     trace := []; ctx_body := VUndefined; ctx_maxAge := None |}.

(** No upstream service answers. *)
Definition offline : upstream :=
  {| http_get := fun _ => Throw (RequestError "ETIMEDOUT");
     arrival := fun _ => 0%nat;
     listTags := fun _ _ => GhRejected (GitHubError 500 "Server Error") |}.

(** One address answers. *)
Definition serving (url : string) (answer : outcome response) : upstream :=
  {| http_get := fun u => if String.eqb u url then answer
                          else Throw (RequestError "ETIMEDOUT");
     arrival := fun _ => 0%nat;
     listTags := fun _ _ => GhRejected (GitHubError 500 "Server Error") |}.

Definition ok (v : value) : outcome response := Ok {| statusCode := Some 200; body := v |}.

Definition left_pad_metadata : value :=
  PackageMetadata (VObj [("latest", VStr "2.0.0")]) ["1.0.0"; "1.1.1"; "2.0.0"].

Definition left_pad_reply : value :=
  VObj [("name", VStr "left-pad");
        ("dist-tags", VObj [("latest", VStr "2.0.0")]);
        ("versions", VObj [("1.0.0", VObj []); ("1.1.1", VObj []); ("2.0.0", VObj [])])].

(** A reply whose [versions] has a key that is not a semantic version. *)
Definition odd_reply : value :=
  VObj [("name", VStr "left-pad");
        ("dist-tags", VObj [("latest", VStr "1.0.0")]);
        ("versions", VObj [("foo", VObj []); ("1.0.0", VObj [])])].

Definition release_metadata : value :=
  PackageMetadata (VObj [("latest", VStr "2.0.0")]) ["2.0.0"; "1.5.0"; "1.0.0-beta"].

Definition nine_x : params := left_pad (Some "9.x").
Definition one_x : params := left_pad (Some "1.x").
Definition bower : params := request "bower" "x" (Some "9.x").

Definition pinned_tag : params := request "gh" "jquery/jquery" (Some "latest").
Definition next_tag : params := request "npm" "pkg" (Some "next").
Definition no_specifier : params := request "npm" "pkg" None.
Definition empty_specifier : params := request "npm" "pkg" (Some EmptyString).
Definition latest : params := request "npm" "pkg" (Some "latest").

Definition registry_url : string := "https://registry.npmjs.org/left-pad".

Definition one_one_one : params := left_pad (Some "1.1.1").

Definition listing_url : string := "https://cdn.jsdelivr.net/npm/left-pad@1.1.1/+json".

Definition forbidden_reply : response :=
  {| statusCode := Some 403;
     body := VStr "Package size exceeded the configured limit of 50 MB." |}.

Definition broken_reply : response :=
  {| statusCode := None; body := VStr "<html>" |}.

Definition bad_gateway_reply : response :=
  {| statusCode := Some 504; body := VStr "<html>" |}.

Definition file_listing : value :=
  VObj [("default", VStr "/index.js");
        ("files", VArr [VObj [("name", VStr "index.js"); ("size", VNum 1024)]]);
        ("extra", VNull)].

(** A store that holds the metadata and the file listing of a version. *)
Definition holding_files (this : params) (metadata : value) (files : string) : world :=
  {| redis := <[ keys_files this := {| payload := files; ttl := None |} ]>
                (redis (holding this metadata));
     trace := []; ctx_body := VUndefined; ctx_maxAge := None |}.

(** The GitHub client answers a listing. *)
Definition tagged (listing : gh_reply) : upstream :=
  {| http_get := fun _ => Throw (RequestError "ETIMEDOUT");
     arrival := fun _ => 0%nat;
     listTags := fun _ _ => listing |}.

Definition tag (n : string) : value :=
  VObj [("name", VStr n); ("commit", VObj [("sha", VStr "0000000")])].

(** Pages of tags numbered from [first]. *)
Definition page (first count : nat) : value :=
  VArr (List.map (fun i => tag (String.append "v1.0." (nat_text i))) (seq first count)).

Definition three_pages : gh_reply :=
  GhPage (page 0 100) (Some (GhPage (page 100 100) (Some (GhPage (page 200 37) None)))).

(** A listing given page by page: every page but the last links to the next. *)
Fixpoint listing (pages : list value) (last : value) : gh_reply :=
  match pages with
  | [] => GhPage last None
  | data :: rest => GhPage data (Some (listing rest last))
  end.

(** A store that holds one text under one key. *)
Definition storing (key text : string) : world :=
  {| redis := {[ key := {| payload := text; ttl := Some 300 |} ]};
     trace := []; ctx_body := VUndefined; ctx_maxAge := None |}.

Definition server_error_reply : response :=
  {| statusCode := Some 500; body := VStr "Internal Server Error" |}.

(** Three registries are configured. *)
Definition mirrors : config :=
  {| cdn_sourceUrl := "https://cdn.jsdelivr.net";
     npm_sourceUrl := inr ["https://a.example"; "https://b.example"; "https://c.example"];
     npm_maxAge := 300; gh_maxAge := 300; maxAgeStatic := 31536000 |}.

(** The second and the third registry answer, the third one first. *)
Definition two_answer : upstream :=
  {| http_get := fun u =>
       if String.eqb u "https://b.example/left-pad" then ok left_pad_reply
       else if String.eqb u "https://c.example/left-pad" then ok odd_reply
       else Throw (RequestError "ETIMEDOUT");
     arrival := fun u => if String.eqb u "https://c.example/left-pad" then 1%nat else 2%nat;
     listTags := fun _ _ => GhRejected (GitHubError 500 "Server Error") |}.

(** The listing is refused at its second page. *)
Definition rate_limited : gh_reply :=
  GhPage (page 0 2) (Some (GhRejected (GitHubError 403 "API rate limit exceeded"))).


Definition unreleased_metadata : value :=
  PackageMetadata (VObj []) ["1.0.0-beta"; "nightly"].

Definition configured_connection : value :=
  VObj [("host", VStr "db.internal"); ("timezone", VStr "+02:00")].

End Examples.

(** * Properties *)

(** ** Sorting with a comparator that may throw *)

Section SortFacts.
Context {A : Type} (cmp : A -> A -> outcome Z).

Local Abbreviation before := (before cmp).

Lemma insert_by_perm (x : A) (l r : list A) :
  insert_by cmp x l = Ok r -> Permutation r (x :: l).
Proof.
  revert r. induction l as [|y l IH]; simpl; intros r Hr.
  - injection Hr as <-. reflexivity.
  - destruct (cmp x y) as [c|e]; simpl in Hr; [|discriminate].
    destruct (Z.leb c 0).
    + injection Hr as <-. reflexivity.
    + destruct (insert_by cmp x l) as [r'|e]; simpl in Hr; [|discriminate].
      injection Hr as <-.
      rewrite (IH r' eq_refl). apply perm_swap.
Qed.

Lemma sort_by_perm (l r : list A) : sort_by cmp l = Ok r -> Permutation r l.
Proof.
  revert r. induction l as [|x l IH]; simpl; intros r Hr.
  - injection Hr as <-. reflexivity.
  - destruct (sort_by cmp l) as [s|e]; simpl in Hr; [|discriminate].
    rewrite (insert_by_perm _ _ _ Hr). constructor. exact (IH s eq_refl).
Qed.

Lemma insert_by_answers (x : A) (l : list A) :
  (forall y, In y l -> exists c, cmp x y = Ok c) ->
  exists r, insert_by cmp x l = Ok r.
Proof.
  induction l as [|y l IH]; simpl; intros Hc.
  - eauto.
  - destruct (Hc y (or_introl eq_refl)) as [c ->]. simpl.
    destruct (Z.leb c 0); [eauto|].
    destruct IH as [r ->]; [intros; apply Hc; auto|]. simpl. eauto.
Qed.

(** A comparator that answers on every pair of elements sorts the list. *)
Lemma sort_by_answers (l : list A) :
  (forall x y, In x l -> In y l -> exists c, cmp x y = Ok c) ->
  exists r, sort_by cmp l = Ok r.
Proof.
  induction l as [|x l IH]; simpl; intros Hc.
  - eauto.
  - destruct IH as [s Hs]; [intros; apply Hc; auto|].
    rewrite Hs. simpl. apply insert_by_answers.
    intros y Hy. apply Hc; [auto|].
    right. apply (Permutation_in _ (sort_by_perm _ _ Hs)). exact Hy.
Qed.

Hypothesis total : forall a b c, cmp a b = Ok c -> 0 < c -> before b a.

Lemma insert_by_sorted (x : A) (l r : list A) :
  Sorted before l -> insert_by cmp x l = Ok r -> Sorted before r.
Proof.
  revert r. induction l as [|y l IH]; simpl; intros r Hs Hr.
  - injection Hr as <-. repeat constructor.
  - destruct (cmp x y) as [c|e] eqn:Hc; simpl in Hr; [|discriminate].
    destruct (Z.leb c 0) eqn:Hle.
    + injection Hr as <-. constructor; [exact Hs|].
      constructor. exists c. split; [exact Hc|]. apply Z.leb_le. exact Hle.
    + destruct (insert_by cmp x l) as [r'|e] eqn:Hi; simpl in Hr; [|discriminate].
      injection Hr as <-.
      apply Z.leb_gt in Hle.
      inversion Hs as [|? ? Hs' Hhd]; subst.
      constructor; [apply IH; auto|].
      destruct l as [|z l'].
      * simpl in Hi. injection Hi as <-. constructor. eapply total; eauto.
      * simpl in Hi. destruct (cmp x z) as [c'|e']; simpl in Hi; [|discriminate].
        destruct (Z.leb c' 0).
        -- injection Hi as <-. constructor. eapply total; eauto.
        -- destruct (insert_by cmp x l'); simpl in Hi; [|discriminate].
           injection Hi as <-. constructor. inversion Hhd; subst. assumption.
Qed.

Lemma sort_by_sorted (l r : list A) : sort_by cmp l = Ok r -> Sorted before r.
Proof.
  revert r. induction l as [|x l IH]; simpl; intros r Hr.
  - injection Hr as <-. constructor.
  - destruct (sort_by cmp l) as [s|e]; simpl in Hr; [|discriminate].
    eapply insert_by_sorted; [apply IH; reflexivity|exact Hr].
Qed.

Hypothesis trans : forall a b c, before a b -> before b c -> before a c.

Lemma before_refl (a : A) (c : Z) : cmp a a = Ok c -> before a a.
Proof.
  intros Hc. destruct (Z_le_gt_dec c 0) as [Hle|Hgt].
  - exists c. auto.
  - eapply total; eauto. lia.
Qed.

(** The first element of the sorted list stands before every element. *)
Lemma sort_by_head (l r : list A) (h : A) :
  sort_by cmp l = Ok (h :: r) ->
  forall x, In x l -> (exists c, cmp x x = Ok c) -> before h x.
Proof.
  intros Hs x Hx [c Hc].
  pose proof (sort_by_sorted _ _ Hs) as Hsorted.
  apply Sorted_StronglySorted in Hsorted; [|exact trans].
  apply (Permutation_in _ (Permutation_sym (sort_by_perm _ _ Hs))) in Hx.
  inversion Hsorted as [|? ? _ Hall]; subst.
  destruct Hx as [<-|Hx].
  - eapply before_refl; eauto.
  - exact (proj1 (List.Forall_forall _ _) Hall x Hx).
Qed.
End SortFacts.

(** ** Version resolution *)

Section Resolution.
Context `{SemVerLaws}.

Lemma before_value_inv (a b : value) :
  before rcompare_value a b ->
  exists x y, a = VStr x /\ b = VStr y /\ sorts_before x y.
Proof.
  intros [c [Hc Hle]]. destruct a, b; simpl in Hc; try discriminate.
  eexists _, _. repeat split. exists c. auto.
Qed.

Lemma rcompare_value_total (a b : value) (c : Z) :
  rcompare_value a b = Ok c -> 0 < c -> before rcompare_value b a.
Proof.
  destruct a, b; simpl; try discriminate. intros Hc Hpos.
  exact (rcompare_total _ _ _ Hc Hpos).
Qed.

Lemma rcompare_value_trans (a b c : value) :
  before rcompare_value a b -> before rcompare_value b c -> before rcompare_value a c.
Proof.
  intros Hab Hbc.
  destruct (before_value_inv _ _ Hab) as (x & y & -> & -> & Hxy).
  destruct (before_value_inv _ _ Hbc) as (y' & z & Hy & -> & Hyz).
  injection Hy as <-. exact (rcompare_trans _ _ _ Hxy Hyz).
Qed.

Lemma stable_release_inv (v : value) :
  stable_release v = true ->
  exists s, v = VStr s /\ semver_valid s = true /\ semver_prerelease s = false.
Proof.
  destruct v; simpl; try discriminate. intros Hs.
  apply andb_true_iff in Hs as [Hv Hp]. apply negb_true_iff in Hp. eauto.
Qed.

Lemma In_kept (vs : list string) (v : value) :
  In v (List.filter stable_release (List.map VStr vs)) ->
  exists s, v = VStr s /\ In s vs /\ semver_valid s = true /\ semver_prerelease s = false.
Proof.
  intros Hin. apply filter_In in Hin as [Hin Hst].
  apply in_map_iff in Hin as (s & <- & Hs).
  destruct (stable_release_inv _ Hst) as (s' & Heq & Hv & Hp).
  injection Heq as <-. eauto.
Qed.

(** The array of valid, non-prerelease versions always sorts. *)
Lemma kept_sorts (vs : list string) :
  exists versions,
    sort_by rcompare_value (List.filter stable_release (List.map VStr vs)) = Ok versions.
Proof.
  apply sort_by_answers. intros x y Hx Hy.
  destruct (In_kept _ _ Hx) as (a & -> & _ & Ha & _).
  destruct (In_kept _ _ Hy) as (b & -> & _ & Hb & _).
  simpl. apply rcompare_valid; assumption.
Qed.

Lemma includes_versions (vs : list string) (p : option string) :
  includes (VArr (List.map VStr vs)) p = Ok (pinned_in vs p).
Proof.
  unfold pinned_in. simpl. f_equal. destruct p as [s|].
  - destruct (in_dec string_dec s vs) as [Hin|Hout].
    + apply existsb_exists. exists (VStr s). split; [apply in_map; exact Hin|].
      simpl. apply String.eqb_refl.
    + destruct (existsb _ _) eqn:He; [|reflexivity].
      apply existsb_exists in He as (x & Hx & Heq).
      apply in_map_iff in Hx as (t & <- & Ht). simpl in Heq.
      apply String.eqb_eq in Heq. subst. contradiction.
  - induction vs as [|v vs IH]; simpl; auto.
Qed.

Lemma strings_of_In (l : list value) (s : string) :
  In s (strings_of l) -> In (VStr s) l.
Proof.
  unfold strings_of. intros Hin. apply in_flat_map in Hin as (v & Hv & Hs).
  destruct v; simpl in Hs; try contradiction.
  destruct Hs as [<-|[]]. exact Hv.
Qed.
End Resolution.

Section ResolutionRules.
Context `{SemVerLaws}.
Variable this : params.

(** On metadata of the fetchers' shape the sort never throws, and the
    callback is a cascade of three tests. *)
Lemma resolve_eq (tags : value) (vs : list string) :
  let p := version this in
  exists versions,
    sort_by rcompare_value (List.filter stable_release (List.map VStr vs)) = Ok versions
    /\ resolve this (PackageMetadata tags vs) =
       if pinned_in vs p then Ok (param_value p)
       else
         let? tagged := hasOwnProperty tags (param_text p) in
         if tagged then member tags (param_text p)
         else Ok (if latest_or_absent p then nth 0 versions VUndefined
                  else match semver_maxSatisfying (strings_of versions) (param_text p) with
                       | Some v => VStr v
                       | None => VNull
                       end).
Proof.
  intros p. destruct (kept_sorts vs) as [versions Hsort].
  exists versions. split; [exact Hsort|].
  unfold resolve, PackageMetadata.
  cbn [member own_prop assoc String.eqb Ascii.eqb Bool.eqb obind array_filter].
  rewrite Hsort. cbn [obind]. rewrite includes_versions. fold p. cbn [obind].
  destruct (pinned_in vs p); [reflexivity|].
  destruct (hasOwnProperty tags (param_text p)) as [[|]|e]; cbn [obind]; try reflexivity.
  replace (strict_eq_param (Some "latest") (param_value p) || param_falsy p)
    with (latest_or_absent p).
  - destruct (latest_or_absent p); reflexivity.
  - destruct p as [s|]; simpl; [|reflexivity].
    rewrite (String.eqb_sym s "latest"). reflexivity.
Qed.

Lemma pinned_in_true (vs : list string) (p : option string) :
  pinned_in vs p = true <-> exists s, p = Some s /\ In s vs.
Proof.
  unfold pinned_in. destruct p as [s|].
  - destruct (in_dec string_dec s vs); split; intros Hx; eauto; try discriminate.
    destruct Hx as (s' & Heq & Hin). injection Heq as <-. contradiction.
  - split; [discriminate|]. intros (s & Heq & _). discriminate.
Qed.

Lemma not_pinned (vs : list string) (p : option string) :
  (forall s, p = Some s -> ~ In s vs) -> pinned_in vs p = false.
Proof.
  intros Hout. destruct (pinned_in vs p) eqn:Hp; [|reflexivity].
  apply pinned_in_true in Hp as (s & Heq & Hin). destruct (Hout s Heq Hin).
Qed.

(** The tags lookup [tags.hasOwnProperty(k)] answers exactly when [tags]
    inherits the method, and then tells whether [k] is an own key. *)
Lemma hasOwnProperty_inherited (v : value) (k : string) :
  inherits_hasOwnProperty v = true ->
  hasOwnProperty v k = Ok (match own_prop v k with Some _ => true | None => false end).
Proof.
  unfold inherits_hasOwnProperty, hasOwnProperty.
  destruct v; try discriminate;
    destruct (own_prop _ "hasOwnProperty"); try discriminate; reflexivity.
Qed.

Lemma hasOwnProperty_shadowed (v : value) (k : string) :
  inherits_hasOwnProperty v = false ->
  exists msg, hasOwnProperty v k = Throw (TypeError msg).
Proof.
  unfold inherits_hasOwnProperty, hasOwnProperty.
  destruct v; try discriminate; eauto;
    destruct (own_prop _ "hasOwnProperty"); try discriminate; eauto.
Qed.

Lemma member_own (v : value) (k : string) (t : value) :
  own_prop v k = Some t -> member v k = Ok t.
Proof.
  unfold member. intros Hk. destruct v; try discriminate; rewrite Hk; reflexivity.
Qed.


Lemma head_of_kept (vs : list string) (versions : list value) (v : value) :
  sort_by rcompare_value (List.filter stable_release (List.map VStr vs)) = Ok versions ->
  In v versions ->
  exists s, v = VStr s /\ In s vs /\ semver_valid s = true /\ semver_prerelease s = false.
Proof.
  intros Hsort Hin. apply In_kept.
  exact (Permutation_in _ (sort_by_perm _ _ _ Hsort) Hin).
Qed.

(** C3. When [getResolvedVersion] answers a version string, the string is
    a member of the metadata's [versions], or it is the value that [tags]
    holds under the specifier as an own key: the tag branch returns that
    value without looking for it in [versions]. *)
Theorem resolve_member (tags : value) (vs : list string) (r : string) :
  resolve this (PackageMetadata tags vs) = Ok (VStr r) ->
  In r vs \/ own_prop tags (param_text (version this)) = Some (VStr r).
Proof.
  destruct (resolve_eq tags vs) as (versions & Hsort & Heq).
  rewrite Heq. clear Heq.
  destruct (pinned_in vs (version this)) eqn:Hpin.
  - apply pinned_in_true in Hpin as (s & Hp & Hin). rewrite Hp. simpl.
    intros Hr. injection Hr as <-. left. exact Hin.
  - destruct (inherits_hasOwnProperty tags) eqn:Hinh.
    + rewrite (hasOwnProperty_inherited _ _ Hinh).
      destruct (own_prop tags (param_text (version this))) as [t|] eqn:Ht; cbn [obind].
      * rewrite (member_own _ _ _ Ht). intros Hr. injection Hr as ->.
        right. reflexivity.
      * destruct (latest_or_absent (version this)).
        -- intros Hr. injection Hr as Hr. left.
           destruct versions as [|v rest]; [discriminate|]. simpl in Hr. subst v.
           destruct (head_of_kept vs _ (VStr r) Hsort (or_introl eq_refl))
             as (s & Hs & Hin & _).
           injection Hs as ->. exact Hin.
        -- destruct (semver_maxSatisfying _ _) as [v|] eqn:Hmax; [|discriminate].
           intros Hr. injection Hr as ->. left.
           apply maxSatisfying_In, strings_of_In in Hmax.
           destruct (head_of_kept vs _ _ Hsort Hmax) as (s & Hs & Hin & _).
           injection Hs as ->. exact Hin.
    + destruct (hasOwnProperty_shadowed tags (param_text (version this)) Hinh)
        as [msg Hmsg].
      rewrite Hmsg. discriminate.
Qed.

(** C4. For metadata with at least one valid, non-prerelease version, the
    specifier "latest", the empty specifier and the absent specifier (read
    as "undefined" where a key is needed), when the specifier is not a
    member of [versions] and [tags] inherits [hasOwnProperty] and does not
    own the specifier as a key, resolve to a valid, non-prerelease member of
    [versions] that no valid, non-prerelease member precedes in descending
    semantic-version order. *)
Theorem resolve_latest (tags : value) (vs : list string) :
  let p := version this in
  latest_or_absent p = true ->
  (forall s, p = Some s -> ~ In s vs) ->
  inherits_hasOwnProperty tags = true ->
  own_prop tags (param_text p) = None ->
  (exists v, In v vs /\ semver_valid v = true /\ semver_prerelease v = false) ->
  exists r,
    resolve this (PackageMetadata tags vs) = Ok (VStr r)
    /\ In r vs /\ semver_valid r = true /\ semver_prerelease r = false
    /\ forall v, In v vs -> semver_valid v = true -> semver_prerelease v = false ->
                 sorts_before r v.
Proof.
  intros p Hlatest Hout Hinh Htag (v0 & Hv0 & Hvalid0 & Hpre0).
  destruct (resolve_eq tags vs) as (versions & Hsort & Heq). fold p in Heq.
  rewrite (not_pinned _ _ Hout) in Heq.
  rewrite (hasOwnProperty_inherited _ _ Hinh), Htag in Heq. cbn [obind] in Heq.
  rewrite Hlatest in Heq.
  assert (Hkept : forall s, In s vs -> semver_valid s = true -> semver_prerelease s = false ->
                            In (VStr s) (List.filter stable_release (List.map VStr vs))).
  { intros s Hs Hv Hp. apply filter_In. split; [apply in_map; exact Hs|].
    simpl. rewrite Hv, Hp. reflexivity. }
  destruct versions as [|h rest].
  - pose proof (Permutation_in _ (Permutation_sym (sort_by_perm _ _ _ Hsort))
                  (Hkept v0 Hv0 Hvalid0 Hpre0)) as Hnil.
    destruct Hnil.
  - destruct (head_of_kept vs _ h Hsort (or_introl eq_refl)) as (r & -> & Hr & Hvr & Hpr).
    exists r. split; [exact Heq|]. repeat split; try assumption.
    intros v Hv Hvalid Hpre.
    assert (Hb : before rcompare_value (VStr r) (VStr v)).
    { eapply sort_by_head.
      - exact rcompare_value_total.
      - exact rcompare_value_trans.
      - exact Hsort.
      - apply Hkept; assumption.
      - simpl. apply rcompare_valid; assumption. }
    exact Hb.
Qed.
End ResolutionRules.

(** ** The model of [semver] satisfies the laws *)

Module NodeSemverFacts.
Import NodeSemver.

Section Laws.
Context {A : Type} {cmp : A -> A -> comparison} (L : order_laws cmp).

Lemma ol_eq_r (a b c : A) : cmp b c = Eq -> cmp a b = cmp a c.
Proof.
  intros Hbc. rewrite (ol_sym L b a), (ol_sym L c a). f_equal.
  apply (ol_eq L). exact Hbc.
Qed.

(** Not-above is transitive. *)
Lemma ol_le_trans (a b c : A) : cmp a b <> Gt -> cmp b c <> Gt -> cmp a c <> Gt.
Proof.
  intros Hab Hbc.
  destruct (cmp a b) eqn:Eab; [| |congruence].
  - rewrite (ol_eq L a b c Eab). exact Hbc.
  - destruct (cmp b c) eqn:Ebc; [| |congruence].
    + rewrite <- (ol_eq_r a b c Ebc), Eab. discriminate.
    + rewrite (ol_lt L a b c Eab Ebc). discriminate.
Qed.

Lemma lex_list_laws : order_laws (lex_list cmp).
Proof.
  split.
  - induction a as [|x a IH]; destruct b as [|y b]; simpl; try reflexivity.
    rewrite (ol_sym L x y), IH. destruct (cmp x y); reflexivity.
  - induction a as [|x a IH]; destruct b as [|y b]; simpl; try discriminate;
      intros c Hab; [reflexivity|].
    destruct (cmp x y) eqn:Exy; simpl in Hab; try discriminate.
    destruct c as [|z c]; simpl; [reflexivity|].
    rewrite (ol_eq L x y z Exy), (IH b c Hab). reflexivity.
  - induction a as [|x a IH]; destruct b as [|y b]; destruct c as [|z c]; simpl;
      try discriminate; try reflexivity.
    destruct (cmp x y) eqn:Exy; destruct (cmp y z) eqn:Eyz; simpl;
      try discriminate; intros Hab Hbc.
    + rewrite (ol_eq L x y z Exy), Eyz. simpl. eapply IH; eauto.
    + rewrite (ol_eq L x y z Exy), Eyz. reflexivity.
    + rewrite <- (ol_eq_r x y z Eyz), Exy. reflexivity.
    + rewrite (ol_lt L x y z Exy Eyz). reflexivity.
Qed.

Lemma pullback_laws {B : Type} (f : B -> A) : order_laws (fun a b => cmp (f a) (f b)).
Proof.
  split; intros.
  - apply (ol_sym L).
  - apply (ol_eq L). assumption.
  - eapply (ol_lt L); eassumption.
Qed.
End Laws.

Lemma lexc_laws {A : Type} (f g : A -> A -> comparison) :
  order_laws f -> order_laws g -> order_laws (fun a b => lexc (f a b) (g a b)).
Proof.
  intros F G. split.
  - intros a b. rewrite (ol_sym F a b), (ol_sym G a b).
    destruct (f a b); reflexivity.
  - intros a b c Hab.
    destruct (f a b) eqn:Ef; simpl in Hab; try discriminate.
    rewrite (ol_eq F a b c Ef), (ol_eq G a b c Hab). reflexivity.
  - intros a b c.
    destruct (f a b) eqn:Eab; destruct (f b c) eqn:Ebc; simpl;
      try discriminate; intros Hab Hbc.
    + rewrite (ol_eq F a b c Eab), Ebc. simpl. eapply (ol_lt G); eauto.
    + rewrite (ol_eq F a b c Eab), Ebc. reflexivity.
    + rewrite <- (ol_eq_r F a b c Ebc), Eab. reflexivity.
    + rewrite (ol_lt F a b c Eab Ebc). reflexivity.
Qed.

Lemma N_laws : order_laws N.compare.
Proof.
  split.
  - intros a b. apply N.compare_antisym.
  - intros a b c Hab. apply N.compare_eq_iff in Hab. subst. reflexivity.
  - intros a b c Hab Hbc. rewrite N.compare_lt_iff in *. lia.
Qed.

Lemma compareIdentifiers_laws : order_laws compareIdentifiers.
Proof.
  pose proof (lex_list_laws N_laws) as S.
  split.
  - intros [x|x] [y|y]; simpl; try reflexivity.
    + apply (ol_sym N_laws).
    + apply (ol_sym S).
  - intros [x|x] [y|y] [z|z]; simpl; try discriminate; try reflexivity.
    + apply (ol_eq N_laws).
    + apply (ol_eq S).
  - intros [x|x] [y|y] [z|z]; simpl; try discriminate; try reflexivity.
    + apply (ol_lt N_laws).
    + apply (ol_lt S).
Qed.

Lemma comparePre_laws : order_laws comparePre.
Proof.
  pose proof (lex_list_laws compareIdentifiers_laws) as S.
  split.
  - intros [|x a] [|y b]; try reflexivity. apply (ol_sym S (x :: a) (y :: b)).
  - intros [|x a] [|y b] [|z c]; try discriminate; try reflexivity.
    apply (ol_eq S (x :: a) (y :: b) (z :: c)).
  - intros [|x a] [|y b] [|z c]; try discriminate; try reflexivity.
    apply (ol_lt S (x :: a) (y :: b) (z :: c)).
Qed.

Lemma compare_parsed_laws : order_laws compare_parsed.
Proof.
  unfold compare_parsed, compareMain.
  apply (lexc_laws (fun a b => lexc (N.compare (major a) (major b)) _)
                   (fun a b => comparePre (prerelease a) (prerelease b))).
  - apply (lexc_laws (fun a b => N.compare (major a) (major b))
                     (fun a b => lexc (N.compare (minor a) (minor b)) _)).
    + apply (pullback_laws N_laws).
    + apply (lexc_laws (fun a b => N.compare (minor a) (minor b))
                       (fun a b => N.compare (patch a) (patch b)));
        apply (pullback_laws N_laws).
  - apply (pullback_laws comparePre_laws).
Qed.

(** *** A valid version has no white space to trim *)

Lemma version_char_not_space (c : ascii) : version_char c = true -> is_space c = false.
Proof.
  destruct c as [b0 b1 b2 b3 b4 b5 b6 b7].
  destruct b0, b1, b2, b3, b4, b5, b6, b7; vm_compute; congruence.
Qed.

Lemma digit_ident_char (c : ascii) : is_digit c = true -> is_ident_char c = true.
Proof. unfold is_ident_char. intros ->. reflexivity. Qed.

Lemma all_chars_impl (f g : ascii -> bool) (s : string) :
  (forall c, f c = true -> g c = true) -> all_chars f s = true -> all_chars g s = true.
Proof.
  intros Hfg. induction s as [|c s IH]; simpl; [reflexivity|].
  intros Hs. apply andb_true_iff in Hs as [Hc Hs].
  rewrite (Hfg c Hc), (IH Hs). reflexivity.
Qed.

Lemma all_chars_app (f : ascii -> bool) (a b : string) :
  all_chars f (String.append a b) = (all_chars f a && all_chars f b)%bool.
Proof.
  induction a as [|c a IH]; simpl; [reflexivity|].
  rewrite IH. apply andb_assoc.
Qed.

Lemma append_cons (c : ascii) (a b : string) :
  String.append (String c a) b = String c (String.append a b).
Proof. reflexivity. Qed.

Lemma cut_at_eq (sep : ascii) (s a : string) (b : option string) :
  cut_at sep s = (a, b) ->
  s = String.append a (match b with Some r => String sep r | None => EmptyString end).
Proof.
  revert a b. induction s as [|c s IH]; simpl; intros a b Hc.
  - injection Hc as <- <-. reflexivity.
  - destruct (Ascii.eqb c sep) eqn:Heq.
    + injection Hc as <- <-. apply Ascii.eqb_eq in Heq. subst. reflexivity.
    + destruct (cut_at sep s) as [a' b']. injection Hc as <- <-.
      rewrite append_cons. f_equal. apply IH. reflexivity.
Qed.

Lemma split_on_nonempty (sep : ascii) (s : string) : split_on sep s <> [].
Proof.
  destruct s as [|c s]; simpl; [discriminate|].
  destruct (Ascii.eqb c sep); [discriminate|].
  destruct (split_on sep s); discriminate.
Qed.

Lemma split_on_all (f : ascii -> bool) (sep : ascii) (s : string) :
  f sep = true ->
  (forall part, In part (split_on sep s) -> all_chars f part = true) ->
  all_chars f s = true.
Proof.
  intros Hsep. induction s as [|c s IH]; simpl; [reflexivity|].
  destruct (Ascii.eqb c sep) eqn:Heq.
  - apply Ascii.eqb_eq in Heq. subst c. intros Hparts.
    rewrite Hsep. apply IH. intros part Hin. apply Hparts. right. exact Hin.
  - destruct (split_on sep s) as [|h t] eqn:Hsplit.
    + destruct (split_on_nonempty _ _ Hsplit).
    + intros Hparts.
      pose proof (Hparts _ (or_introl eq_refl)) as Hhead. simpl in Hhead.
      apply andb_true_iff in Hhead as [Hc Hh]. rewrite Hc. apply IH.
      intros part [<-|Hin]; [exact Hh|]. apply Hparts. right. exact Hin.
Qed.

Lemma numeric_digits (s : string) (n : N) :
  numeric s = Some n -> all_chars is_digit s = true.
Proof.
  unfold numeric. destruct s as [|c rest]; [discriminate|].
  destruct (all_chars is_digit (String c rest)); [reflexivity|].
  simpl. discriminate.
Qed.

Lemma identifier_chars (s : string) (i : ident) :
  identifier s = Some i -> all_chars is_ident_char s = true.
Proof.
  unfold identifier. destruct (all_chars is_digit s) eqn:Hd.
  - intros _. exact (all_chars_impl _ _ _ digit_ident_char Hd).
  - destruct (all_chars is_ident_char s); [reflexivity|discriminate].
Qed.

Lemma all_some_In {A : Type} (l : list (option A)) (r : list A) (o : option A) :
  all_some l = Some r -> In o l -> exists a, o = Some a.
Proof.
  revert r. induction l as [|[a|] l IH]; simpl; intros r Hr Hin;
    [contradiction| |discriminate].
  destruct Hin as [<-|Hin]; [eauto|].
  destruct (all_some l) as [r'|]; [|discriminate]. eapply IH; eauto.
Qed.

Lemma parse_full_chars (s : string) (v : semver) :
  parse_full s = Some v -> all_chars version_char s = true.
Proof.
  assert (Hid : forall c, is_ident_char c = true -> version_char c = true).
  { intros c Hc. unfold version_char. rewrite Hc. reflexivity. }
  assert (Hstrip : forall t, (parse_full t = Some v -> False) \/
            all_chars version_char
              (match t with String "v" rest => rest | _ => t end) = true ->
            parse_full t = Some v -> all_chars version_char t = true).
  { intros t [Hno|Hall] Hp; [destruct (Hno Hp)|].
    destruct t as [|c rest]; [reflexivity|].
    destruct (Ascii.eqb c "v") eqn:Hv.
    - apply Ascii.eqb_eq in Hv. subst c. simpl. exact Hall.
    - assert (Hsame : (match String c rest with String "v" r => r | _ => String c rest end)
                      = String c rest).
      { destruct c as [[] [] [] [] [] [] [] []]; try reflexivity. discriminate. }
      rewrite Hsame in Hall. exact Hall. }
  intros Hp. apply Hstrip; [|exact Hp]. right.
  unfold parse_full in Hp.
  set (t := match s with String "v" rest => rest | _ => s end) in *.
  destruct (cut_at "+" t) as [main_pre build] eqn:Hcut1.
  destruct (cut_at "-" main_pre) as [main pre] eqn:Hcut2.
  apply cut_at_eq in Hcut1. apply cut_at_eq in Hcut2.
  destruct (match build with Some b => build_ok b | None => true end) eqn:Hbuild;
    [|discriminate].
  destruct (List.map numeric (split_on "." main)) as [|[a|] [|[b|] [|[c|] [|? ?]]]] eqn:Hmain;
    try discriminate.
  assert (Hm : all_chars version_char main = true).
  { apply (split_on_all version_char "."); [reflexivity|].
    intros part Hin. apply (in_map numeric) in Hin. rewrite Hmain in Hin.
    apply (all_chars_impl is_digit); [intros; apply Hid, digit_ident_char; assumption|].
    destruct Hin as [Hn|[Hn|[Hn|[]]]]; symmetry in Hn; eapply numeric_digits; eauto. }
  assert (Hpre : all_chars version_char
                   (match pre with Some r => String "-" r | None => EmptyString end) = true).
  { destruct pre as [pr|]; [|reflexivity].
    destruct (all_some (List.map identifier (split_on "." pr))) as [ids|] eqn:Hids;
      [|discriminate].
    simpl. apply (split_on_all version_char "."); [reflexivity|].
    intros part Hin. apply (in_map identifier) in Hin.
    destruct (all_some_In _ _ _ Hids Hin) as [i Hi].
    apply (all_chars_impl is_ident_char); [exact Hid|]. eapply identifier_chars; eauto. }
  assert (Hb : all_chars version_char
                 (match build with Some r => String "+" r | None => EmptyString end) = true).
  { destruct build as [bd|]; [|reflexivity].
    simpl. apply (split_on_all version_char "."); [reflexivity|].
    intros part Hin. unfold build_ok in Hbuild.
    rewrite forallb_forall in Hbuild. specialize (Hbuild part Hin).
    apply andb_true_iff in Hbuild as [_ Hchars].
    exact (all_chars_impl _ _ _ Hid Hchars). }
  rewrite Hcut1, Hcut2, !all_chars_app, Hm, Hpre, Hb. reflexivity.
Qed.

Lemma rev_string_rev (s a b : string) :
  rev_string (rev_string s a) b = rev_string a (String.append s b).
Proof.
  revert a b. induction s as [|c s IH]; simpl; intros a b; [reflexivity|].
  rewrite IH. reflexivity.
Qed.

Lemma all_chars_rev (f : ascii -> bool) (s a : string) :
  all_chars f (rev_string s a) = (all_chars f s && all_chars f a)%bool.
Proof.
  revert a. induction s as [|c s IH]; simpl; intros a; [reflexivity|].
  rewrite IH. simpl. destruct (f c), (all_chars f s), (all_chars f a); reflexivity.
Qed.

Lemma trim_left_id (s : string) :
  all_chars (fun c => negb (is_space c)) s = true -> trim_left s = s.
Proof.
  destruct s as [|c s]; simpl; [reflexivity|].
  destruct (is_space c); [discriminate|reflexivity].
Qed.

Lemma append_empty (s : string) : String.append s EmptyString = s.
Proof.
  induction s as [|c s IH]; [reflexivity|]. rewrite append_cons, IH. reflexivity.
Qed.

Lemma trim_id (s : string) :
  all_chars (fun c => negb (is_space c)) s = true -> trim s = s.
Proof.
  intros Hs. unfold trim. rewrite (trim_left_id s Hs).
  rewrite trim_left_id.
  - rewrite rev_string_rev. simpl. apply append_empty.
  - rewrite all_chars_rev, Hs. reflexivity.
Qed.

Lemma valid_construct (s : string) :
  valid s = true -> exists v, construct s = Ok v.
Proof.
  unfold valid, parse, construct.
  destruct (Nat.ltb MAX_LENGTH (String.length s)); [discriminate|].
  destruct (parse_full s) as [v|] eqn:Hp; [|discriminate]. intros _.
  rewrite trim_id.
  - rewrite Hp. eauto.
  - apply (all_chars_impl version_char); [|eapply parse_full_chars; eauto].
    intros c Hc. rewrite (version_char_not_space c Hc). reflexivity.
Qed.

(** *** The laws *)

Lemma rcompare_inv (a b : string) (c : Z) :
  rcompare a b = Ok c ->
  exists x y, construct b = Ok x /\ construct a = Ok y /\ c = sign (compare_parsed x y).
Proof.
  unfold rcompare, compare.
  destruct (construct b) as [x|]; [|discriminate].
  destruct (construct a) as [y|]; [|discriminate].
  simpl. intros Hc. injection Hc as <-. eauto.
Qed.

Lemma sorts_before_inv (a b : string) :
  sorts_before a b ->
  exists x y, construct b = Ok x /\ construct a = Ok y /\ compare_parsed x y <> Gt.
Proof.
  intros (c & Hc & Hle). apply rcompare_inv in Hc as (x & y & Hx & Hy & ->).
  exists x, y. repeat split; try assumption.
  destruct (compare_parsed x y); simpl in Hle; [discriminate|discriminate|lia].
Qed.

Lemma sorts_before_intro (a b : string) (x y : semver) :
  construct b = Ok x -> construct a = Ok y -> compare_parsed x y <> Gt ->
  sorts_before a b.
Proof.
  intros Hx Hy Hle. exists (sign (compare_parsed x y)). split.
  - simpl. unfold rcompare, compare. rewrite Hx, Hy. reflexivity.
  - destruct (compare_parsed x y); simpl; [lia|lia|congruence].
Qed.

Lemma max_of_In (b : bounds) (versions : list string) (best : option (string * semver))
      (r : string) :
  max_of b versions best = Some r ->
  In r versions \/ exists m, best = Some (r, m).
Proof.
  revert best. induction versions as [|v rest IH]; simpl; intros best Hr.
  - right. destruct best as [[r' m]|]; [|discriminate].
    injection Hr as <-. eauto.
  - apply IH in Hr as [Hin|(m & Hm)]; [auto|].
    destruct (satisfies v b); [|eauto].
    destruct (construct v) as [sv|]; [|eauto].
    destruct best as [[r' m']|].
    + destruct (compare_parsed m' sv); [eauto| |eauto].
      injection Hm as <- <-. auto.
    + injection Hm as <- <-. auto.
Qed.

Lemma node_semver_laws : @SemVerLaws node_semver.
Proof.
  split.
  - intros a b Ha Hb. simpl in *.
    destruct (valid_construct a Ha) as [x Hx].
    destruct (valid_construct b Hb) as [y Hy].
    unfold rcompare, compare. rewrite Hx, Hy. simpl. eauto.
  - intros a b c Hc Hpos. simpl in Hc.
    apply rcompare_inv in Hc as (x & y & Hx & Hy & ->).
    apply (sorts_before_intro b a y x Hy Hx).
    rewrite (ol_sym compare_parsed_laws x y).
    destruct (compare_parsed x y); simpl in *; [lia|lia|discriminate].
  - intros a b c Hab Hbc.
    apply sorts_before_inv in Hab as (xb & xa & Hb & Ha & Hle1).
    apply sorts_before_inv in Hbc as (xc & xb' & Hc & Hb' & Hle2).
    rewrite Hb in Hb'. injection Hb' as <-.
    apply (sorts_before_intro a c xc xa Hc Ha).
    exact (ol_le_trans compare_parsed_laws _ _ _ Hle2 Hle1).
  - intros l r v. simpl. unfold maxSatisfying.
    destruct (x_range r) as [b|]; [|discriminate].
    intros Hm. apply max_of_In in Hm as [Hin|(m & Hm)]; [exact Hin|discriminate].
Qed.

End NodeSemverFacts.

(** ** Template literals *)

Lemma length_append (a b : string) :
  String.length (String.append a b) = (String.length a + String.length b)%nat.
Proof.
  induction a as [|c a IH]; [reflexivity|].
  change (String.append (String c a) b) with (String c (String.append a b)).
  simpl. rewrite IH. reflexivity.
Qed.

(** ** The model of [JSON] satisfies the law *)

Lemma tpl_nonempty (c : ascii) (a : string) (rest : list string) :
  tpl (String c a :: rest) <> EmptyString.
Proof. unfold tpl. destruct rest; discriminate. Qed.

Lemma Z_text_nonempty (n : Z) : Z_text n <> EmptyString.
Proof.
  unfold Z_text, NilZero.string_of_int, NilZero.string_of_uint.
  destruct (Z.to_int n) as [d|d]; [|discriminate].
  destruct d; discriminate.
Qed.

Lemma js_json_laws : @JSONLaws js_json.
Proof.
  split. intros v. simpl. unfold JsJSON.stringify.
  destruct v as [| |[|]|n|s|items|props]; cbn [JsJSON.serialize]; try discriminate.
  - apply Z_text_nonempty.
  - destruct (List.map _ items); [discriminate|apply tpl_nonempty].
  - destruct (flat_map _ props); [discriminate|apply tpl_nonempty].
Qed.

(** ** Effects of the computations *)

Lemma logged_nil (w : world) : logged w [] = w.
Proof. destruct w. unfold logged. simpl. rewrite app_nil_r. reflexivity. Qed.

Lemma logged_logged (w : world) (e1 e2 : list event) :
  logged (logged w e1) e2 = logged w (e1 ++ e2)%list.
Proof. unfold logged. simpl. rewrite app_assoc. reflexivity. Qed.

Lemma emit_eq (e : event) (w : world) : emit e w = (Ok tt, logged w [e]).
Proof. reflexivity. Qed.

Lemma redis_getAsync_eq (key : string) (w : world) :
  redis_getAsync key w = (Ok (payload <$> redis w !! key), logged w [RedisGet key]).
Proof. reflexivity. Qed.

(** Induction on a listing: a rejection, a last page, a page and the rest. *)
Lemma gh_reply_induction (P : gh_reply -> Prop) :
  (forall e, P (GhRejected e)) ->
  (forall data, P (GhPage data None)) ->
  (forall data reply, P reply -> P (GhPage data (Some reply))) ->
  forall reply, P reply.
Proof.
  intros Hrejected Hlast Hnext. fix IH 1.
  intros [e|data [reply|]].
  - apply Hrejected.
  - apply Hnext. apply IH.
  - apply Hlast.
Qed.

Section Quiet.
Lemma quiet_ret {A : Type} (a : A) : quiet (ret a).
Proof. intros w. exists []. rewrite logged_nil. auto. Qed.

Lemma quiet_throw {A : Type} (e : exn) : quiet (@throw A e).
Proof. intros w. exists []. rewrite logged_nil. auto. Qed.

Lemma quiet_lift {A : Type} (o : outcome A) : quiet (lift o).
Proof. intros w. exists []. rewrite logged_nil. auto. Qed.

Lemma quiet_emit (e : event) : is_write e = false -> quiet (emit e).
Proof. intros He w. exists [e]. simpl. rewrite He. auto. Qed.

Lemma quiet_bind {A B : Type} (c : M A) (k : A -> M B) :
  quiet c -> (forall a, quiet (k a)) -> quiet (bind c k).
Proof.
  intros Hc Hk w. unfold bind. destruct (Hc w) as (e1 & Hw & H1).
  destruct (c w) as [[a|e] w1]; simpl in Hw; subst w1.
  - destruct (Hk a (logged w e1)) as (e2 & Hw & H2).
    exists (e1 ++ e2)%list. rewrite Hw, logged_logged, forallb_app, H1, H2. auto.
  - exists e1. auto.
Qed.

Lemma quiet_try_catch {A : Type} (c : M A) (h : exn -> M A) :
  quiet c -> (forall e, quiet (h e)) -> quiet (try_catch c h).
Proof.
  intros Hc Hh w. unfold try_catch. destruct (Hc w) as (e1 & Hw & H1).
  destruct (c w) as [[a|e] w1]; simpl in Hw; subst w1.
  - exists e1. auto.
  - destruct (Hh e (logged w e1)) as (e2 & Hw & H2).
    exists (e1 ++ e2)%list. rewrite Hw, logged_logged, forallb_app, H1, H2. auto.
Qed.

Lemma quiet_got (up : upstream) (url : string) : quiet (got up url).
Proof. apply quiet_bind; [apply quiet_emit; reflexivity|intros; apply quiet_lift]. Qed.

Lemma quiet_emit_all (es : list event) :
  forallb (fun e => negb (is_write e)) es = true -> quiet (emit_all es).
Proof.
  induction es as [|e es IH]; simpl; intros Hes; [apply quiet_ret|].
  apply andb_true_iff in Hes as [He Hes]. apply negb_true_iff in He.
  apply quiet_bind; [apply quiet_emit; exact He|intros; apply IH; exact Hes].
Qed.

Lemma quiet_Promise_any_got (up : upstream) (urls : list string) :
  quiet (Promise_any_got up urls).
Proof.
  apply quiet_bind.
  - apply quiet_emit_all. induction urls; simpl; auto.
  - intros _. destruct (first_fulfilled up urls None) as [[t r]|];
      [apply quiet_ret|apply quiet_throw].
Qed.

Context `{SemVer} `{JSON} `{URI}.
Variable v1Config : config.
Variable up : upstream.

Lemma quiet_loadMore (reply : gh_reply) : forall versions, quiet (loadMore versions reply).
Proof.
  induction reply as [e|data|data reply' IH] using gh_reply_induction;
    intros versions; simpl.
  - apply quiet_throw.
  - apply quiet_ret.
  - destruct (truthy data); [|apply quiet_ret].
    apply quiet_bind; [apply quiet_emit; reflexivity|].
    intros _. apply IH.
Qed.

Lemma quiet_fetchGitHubMetadata (owner repository : string) :
  quiet (fetchGitHubMetadata up owner repository).
Proof.
  apply quiet_try_catch.
  - apply quiet_bind; [apply quiet_emit; reflexivity|intros; apply quiet_loadMore].
  - intros e. apply quiet_bind; [|intros; apply quiet_throw].
    destruct (code_is_403 e); [apply quiet_emit; reflexivity|apply quiet_ret].
Qed.

Lemma quiet_fetchNpmMetadata (n : string) : quiet (fetchNpmMetadata v1Config up n).
Proof.
  apply quiet_bind.
  - unfold registry_response. destruct (npm_sourceUrl v1Config);
      [apply quiet_got|apply quiet_Promise_any_got].
  - intros response. destruct (negb (truthy (body response))); [apply quiet_throw|].
    apply quiet_bind; [apply quiet_lift|]. intros versions.
    destruct (negb (truthy versions)); [apply quiet_throw|].
    apply quiet_bind; [apply quiet_lift|]. intros tags.
    apply quiet_bind; [apply quiet_lift|]. intros sorted. apply quiet_ret.
Qed.

Lemma quiet_fetchMetadata (this : params) : quiet (fetchMetadata v1Config up this).
Proof.
  unfold fetchMetadata.
  destruct (String.eqb (type this) "npm"); [apply quiet_fetchNpmMetadata|].
  destruct (String.eqb (type this) "gh"); [apply quiet_fetchGitHubMetadata|].
  apply quiet_throw.
Qed.

Lemma quiet_fetchFiles (this : params) : quiet (fetchFiles v1Config up this).
Proof.
  apply quiet_try_catch.
  - apply quiet_bind; [apply quiet_got|intros; apply quiet_ret].
  - intros e. destruct (error_response e) as [r|]; [|apply quiet_throw].
    destruct (status_is_403 r); [apply quiet_ret|apply quiet_throw].
Qed.
End Quiet.

(** ** The cache-aside reads *)

Section CacheAside.
Context `{SemVer} `{JSON} `{URI}.
Variable v1Config : config.
Variable this : params.

Lemma cached_payload (w : world) (key : string) (e : entry) :
  redis w !! key = Some e -> payload e <> EmptyString ->
  cached (payload <$> redis w !! key) = Some (payload e).
Proof.
  intros -> Hne. simpl. destruct (String.eqb (payload e) EmptyString) eqn:Heq; [|reflexivity].
  apply String.eqb_eq in Heq. contradiction.
Qed.

Lemma getFilesAsJson_hit (up : upstream) (w : world) (e : entry) :
  redis w !! keys_files this = Some e -> payload e <> EmptyString ->
  getFilesAsJson v1Config up this w = (Ok (payload e), logged w [RedisGet (keys_files this)]).
Proof.
  intros He Hne. unfold getFilesAsJson, bind. rewrite redis_getAsync_eq.
  rewrite (cached_payload w _ e He Hne). reflexivity.
Qed.

Lemma getMetadataAsJson_hit (up : upstream) (w : world) (e : entry) :
  redis w !! keys_metadata this = Some e -> payload e <> EmptyString ->
  getMetadataAsJson v1Config up this w
  = (Ok (payload e), logged w [RedisGet (keys_metadata this)]).
Proof.
  intros He Hne. unfold getMetadataAsJson, bind. rewrite redis_getAsync_eq.
  rewrite (cached_payload w _ e He Hne). reflexivity.
Qed.

Lemma getMetadata_hit (up : upstream) (w : world) (e : entry) :
  redis w !! keys_metadata this = Some e -> payload e <> EmptyString ->
  getMetadata v1Config up this w
  = (JSON_parse (payload e), logged w [RedisGet (keys_metadata this)]).
Proof.
  intros He Hne. unfold getMetadata, bind.
  rewrite (getMetadataAsJson_hit up w e He Hne). reflexivity.
Qed.

(** C9. When the metadata is not cached and [fetchMetadata] fails, whatever
    the failure (the "no versions" error and the unknown-package-type error
    included), [getMetadataAsJson] fails with the same error and writes
    nothing: the store is the one it started from and no write to it was
    issued. *)
Theorem getMetadataAsJson_failure (up : upstream) (w w' : world) (e : exn) :
  cached (payload <$> redis w !! keys_metadata this) = None ->
  fetchMetadata v1Config up this (logged w [RedisGet (keys_metadata this)]) = (Throw e, w') ->
  getMetadataAsJson v1Config up this w = (Throw e, w')
  /\ redis w' = redis w
  /\ List.filter is_write (trace w') = List.filter is_write (trace w).
Proof.
  intros Hmiss Hfetch. split; [|split].
  - unfold getMetadataAsJson. unfold bind at 1. rewrite redis_getAsync_eq, Hmiss.
    unfold bind at 1. rewrite Hfetch. reflexivity.
  - destruct (quiet_fetchMetadata v1Config up this (logged w [RedisGet (keys_metadata this)]))
      as (evs & Hw & _).
    rewrite Hfetch in Hw. simpl in Hw. subst w'. reflexivity.
  - destruct (quiet_fetchMetadata v1Config up this (logged w [RedisGet (keys_metadata this)]))
      as (evs & Hw & Hq).
    rewrite Hfetch in Hw. simpl in Hw. subst w'. simpl.
    rewrite !List.filter_app. simpl.
    assert (Hnone : List.filter is_write evs = []).
    { clear Hfetch. induction evs as [|x evs IH]; simpl in *; [reflexivity|].
      apply andb_true_iff in Hq as [Hx Hq]. apply negb_true_iff in Hx.
      rewrite Hx. apply IH. exact Hq. }
    rewrite Hnone, !app_nil_r. reflexivity.
Qed.

(** C10. A file listing that is in the store (any non-empty text) is
    answered from the store: [getFilesAsJson] returns the text and
    [getFiles] its parse, and the only call made is the read of the key,
    with no upstream request and no write.  Everything [getFilesAsJson]
    stores is such a text, written without an expiry, so whatever upstream
    would answer later, the next call returns the same serialization; the
    status-403 payload of [fetchFiles] is such a value. *)
Theorem getFilesAsJson_cached `{!JSONLaws} :
  (forall up w e,
      redis w !! keys_files this = Some e -> payload e <> EmptyString ->
      getFilesAsJson v1Config up this w
      = (Ok (payload e), logged w [RedisGet (keys_files this)])
      /\ getFiles v1Config up this w
         = (JSON_parse (payload e), logged w [RedisGet (keys_files this)]))
  /\ (forall up w v w',
        cached (payload <$> redis w !! keys_files this) = None ->
        fetchFiles v1Config up this (logged w [RedisGet (keys_files this)]) = (Ok v, w') ->
        exists w'',
          getFilesAsJson v1Config up this w = (Ok (JSON_stringify v), w'')
          /\ redis w'' !! keys_files this
             = Some {| payload := JSON_stringify v; ttl := None |}
          /\ forall up',
              getFilesAsJson v1Config up' this w''
              = (Ok (JSON_stringify v), logged w'' [RedisGet (keys_files this)])
              /\ getFiles v1Config up' this w''
                 = (JSON_parse (JSON_stringify v), logged w'' [RedisGet (keys_files this)]))
  /\ (forall up w err r,
        http_get up (files_url v1Config this) = Throw err ->
        error_response err = Some r -> statusCode r = Some 403 ->
        fetchFiles v1Config up this w
        = (Ok (VObj [("status", VNum 403); ("message", body r)]),
           logged w [HttpGet (files_url v1Config this)])).
Proof.
  assert (Hhit : forall up w e,
      redis w !! keys_files this = Some e -> payload e <> EmptyString ->
      getFilesAsJson v1Config up this w
      = (Ok (payload e), logged w [RedisGet (keys_files this)])
      /\ getFiles v1Config up this w
         = (JSON_parse (payload e), logged w [RedisGet (keys_files this)])).
  { intros up w e He Hne. split; [apply getFilesAsJson_hit; assumption|].
    unfold getFiles, bind. rewrite (getFilesAsJson_hit up w e He Hne). reflexivity. }
  split; [exact Hhit|split].
  - intros up w v w' Hmiss Hfetch.
    unfold getFilesAsJson at 1. unfold bind at 1. rewrite redis_getAsync_eq, Hmiss.
    unfold bind at 1. rewrite Hfetch.
    eexists. split; [reflexivity|].
    match goal with |- ?l = _ /\ _ => assert (Hl : l = Some {| payload := JSON_stringify v; ttl := None |}) end.
    { simpl. apply lookup_insert_eq. }
    split; [exact Hl|].
    intros up'. apply (Hhit up' _ _ Hl). simpl. apply stringify_truthy.
  - intros up w err r Hget Hresp Hstatus.
    unfold fetchFiles, try_catch, got, bind, lift. rewrite emit_eq, Hget, Hresp.
    unfold status_is_403. rewrite Hstatus. reflexivity.
Qed.
End CacheAside.

(** ** The handlers *)

Section Handlers.
Context `{SemVer} `{JSON} `{URI}.
Variable v1Config : config.
Variable this : params.

(** C7. When the metadata is available and the requested version is not
    literally one of its [versions] (a tag name or a satisfiable range is
    not), [handleVersionFiles] answers the status-404 payload that asks for
    a specific version number, whose message is never the general
    not-found message, and nothing happens after the metadata was read: no
    request for the file listing, no read or write of its key.  With cached
    metadata the only call of the whole request is the read of the metadata
    key. *)
Theorem handleVersionFiles_not_listed (up : upstream) (w w1 : world) (metadata all : value) :
  getMetadata v1Config up this w = (Ok metadata, w1) ->
  member metadata "versions" = Ok all ->
  includes all (version this) = Ok false ->
  handleVersionFiles v1Config up this w
  = (Ok tt,
     with_body w1
       (VObj [("status", VNum 404);
              ("message",
               VStr (tpl ["Couldn't find version "; param_text (version this); " for ";
                          name this;
                          ". Make sure you use a specific version number, and not a version range or a tag."]))]))
  /\ VStr (tpl ["Couldn't find version "; param_text (version this); " for "; name this;
                ". Make sure you use a specific version number, and not a version range or a tag."])
     <> VStr (tpl ["Couldn't find "; name this; "@"; param_text (version this); "."])
  /\ (forall e, redis w !! keys_metadata this = Some e -> payload e <> EmptyString ->
                w1 = logged w [RedisGet (keys_metadata this)]).
Proof.
  intros Hmeta Hall Hinc. split; [|split].
  - unfold handleVersionFiles. rewrite Hmeta.
    unfold bind, lift. rewrite Hall, Hinc. reflexivity.
  - intros Hsame. injection Hsame as Hsame.
    apply (f_equal String.length) in Hsame. rewrite !length_append in Hsame.
    simpl in Hsame. lia.
  - intros e He Hne. rewrite (getMetadata_hit v1Config this up w e He Hne) in Hmeta.
    injection Hmeta as _ <-. reflexivity.
Qed.

(** C8. In [handleVersionFiles], once the version is known to be listed:
    an upstream reply with status 403 to the file-listing request is not an
    exception but the value [{status: 403, message: <upstream body>}],
    which is stored and, read back, becomes the response body; and a
    [got.ParseError] from the file listing becomes the body
    [{status, message}] whose status is the upstream status code, or 502
    when there is none. *)
Theorem handleVersionFiles_failures (up : upstream) (w w1 : world) (metadata all : value) :
  getMetadata v1Config up this w = (Ok metadata, w1) ->
  member metadata "versions" = Ok all ->
  includes all (version this) = Ok true ->
  (forall err r,
      cached (payload <$> redis w1 !! keys_files this) = None ->
      http_get up (files_url v1Config this) = Throw err ->
      error_response err = Some r -> statusCode r = Some 403 ->
      let forbidden := VObj [("status", VNum 403); ("message", body r)] in
      JSON_parse (JSON_stringify forbidden) = Ok forbidden ->
      exists w2,
        handleVersionFiles v1Config up this w = (Ok tt, w2)
        /\ ctx_body w2 = forbidden
        /\ redis w2 !! keys_files this
           = Some {| payload := JSON_stringify forbidden; ttl := None |})
  /\ (forall r w2,
        getFiles v1Config up this w1 = (Throw (ParseError r), w2) ->
        exists status,
          handleVersionFiles v1Config up this w
          = (Ok tt, with_body w2 (VObj [("status", VNum status); ("message", body r)]))
          /\ (statusCode r = None -> status = 502)
          /\ (forall n, statusCode r = Some n -> n <> 0 -> status = n)).
Proof.
  intros Hmeta Hall Hinc. split.
  - intros err r Hmiss Hget Hresp Hstatus forbidden Hround. subst forbidden.
    unfold handleVersionFiles. rewrite Hmeta.
    unfold bind at 1. unfold lift at 1. rewrite Hall.
    unfold bind at 1. unfold lift at 1. rewrite Hinc. cbn [negb].
    unfold try_catch, getFiles, getFilesAsJson.
    unfold bind at 1. unfold bind at 1. unfold bind at 1.
    rewrite redis_getAsync_eq, Hmiss.
    unfold bind at 1.
    assert (Hf : fetchFiles v1Config up this (logged w1 [RedisGet (keys_files this)])
                 = (Ok (VObj [("status", VNum 403); ("message", body r)]),
                    logged (logged w1 [RedisGet (keys_files this)])
                           [HttpGet (files_url v1Config this)])).
    { unfold fetchFiles, try_catch, got, bind, lift. rewrite emit_eq, Hget, Hresp.
      unfold status_is_403. rewrite Hstatus. reflexivity. }
    rewrite Hf. cbv [bind redis_setAsync emit ret lift set_body set_maxAge].
    rewrite Hround.
    eexists. split; [reflexivity|]. split; [reflexivity|].
    cbn [redis]. apply lookup_insert_eq.
  - intros r w2 Hfiles.
    exists (status_or_502 r). split; [|split].
    + unfold handleVersionFiles. rewrite Hmeta.
      unfold bind at 1. unfold lift at 1. rewrite Hall.
      unfold bind at 1. unfold lift at 1. rewrite Hinc. cbn [negb].
      unfold try_catch. unfold bind at 1. rewrite Hfiles. reflexivity.
    + intros Hnone. unfold status_or_502. rewrite Hnone. reflexivity.
    + intros n Hn Hnz. unfold status_or_502. rewrite Hn.
      destruct (Z.eqb n 0) eqn:Hzero; [|reflexivity].
      apply Z.eqb_eq in Hzero. contradiction.
Qed.
End Handlers.

Section Answers.
Context `{SemVerLaws} `{JSON} `{URI}.
Variable v1Config : config.
Variable this : params.

(** C1. [handleResolveVersion] never raises.  When [getResolvedVersion]
    throws, whatever the exception (from the cache read, the metadata
    fetch, the parse or the resolution), the body is the status-404
    payload; when it returns a value the body is [{version: <value>}].  A
    range that no version satisfies is not a failure: on metadata whose
    [tags] inherits [hasOwnProperty] and does not own the range as a key,
    resolution answers [null] and the body is [{version: null}]. *)
Theorem handleResolveVersion_answers (up : upstream) (w : world) :
  (forall e w1,
      getResolvedVersion v1Config up this w = (Throw e, w1) ->
      handleResolveVersion v1Config up this w = (Ok tt, with_body w1 (not_found this)))
  /\ (forall v w1,
        getResolvedVersion v1Config up this w = (Ok v, w1) ->
        handleResolveVersion v1Config up this w
        = (Ok tt, with_body w1 (VObj [("version", v)])))
  /\ (forall e tags vs s,
        redis w !! keys_metadata this = Some e -> payload e <> EmptyString ->
        JSON_parse (payload e) = Ok (PackageMetadata tags vs) ->
        version this = Some s -> ~ In s vs ->
        inherits_hasOwnProperty tags = true -> own_prop tags s = None ->
        latest_or_absent (Some s) = false ->
        (forall versions,
            sort_by rcompare_value (List.filter stable_release (List.map VStr vs))
            = Ok versions ->
            semver_maxSatisfying (strings_of versions) s = None) ->
        handleResolveVersion v1Config up this w
        = (Ok tt, with_body (logged w [RedisGet (keys_metadata this)])
                            (VObj [("version", VNull)]))).
Proof.
  assert (Hok : forall v w1,
             getResolvedVersion v1Config up this w = (Ok v, w1) ->
             handleResolveVersion v1Config up this w
             = (Ok tt, with_body w1 (VObj [("version", v)]))).
  { intros v w1 Hr. unfold handleResolveVersion, try_catch. unfold bind at 1.
    rewrite Hr. reflexivity. }
  split; [|split; [exact Hok|]].
  - intros e w1 Hr. unfold handleResolveVersion, try_catch. unfold bind at 1.
    rewrite Hr. reflexivity.
  - intros e tags vs s He Hne Hparse Hs Hout Hinh Htag Hlatest Hnone.
    apply Hok. unfold getResolvedVersion. unfold bind at 1.
    rewrite (getMetadata_hit v1Config this up w e He Hne), Hparse. unfold lift.
    f_equal.
    destruct (resolve_eq this tags vs) as (versions & Hsort & Heq).
    rewrite Heq, not_pinned by (intros s' Hs'; rewrite Hs in Hs'; injection Hs' as <-; exact Hout).
    rewrite Hs. cbn [param_text].
    rewrite (hasOwnProperty_inherited _ _ Hinh), Htag. cbn [obind].
    rewrite Hlatest, (Hnone versions Hsort). reflexivity.
Qed.

(** C5. For every reply of the registry: when the body is missing (falsy)
    or has no (truthy) [versions], [fetchNpmMetadata] fails with
    "Unable to retrieve versions for package <name>." where <name> is the
    URL-encoded name that was requested; otherwise, when every key of
    [versions] is a valid semantic version, it returns metadata whose
    [versions] are exactly those keys in descending semantic-version order
    and whose [tags] are the reply's [dist-tags] as they came. *)
Theorem fetchNpmMetadata_answers (up : upstream) (n : string) (w w1 : world)
        (reply : response) :
  registry_response v1Config up (encoded_name n) w = (Ok reply, w1) ->
  let missing :=
    Throw (Error (tpl ["Unable to retrieve versions for package "; encoded_name n; "."])) in
  (truthy (body reply) = false -> fetchNpmMetadata v1Config up n w = (missing, w1))
  /\ (forall versions,
        truthy (body reply) = true ->
        member (body reply) "versions" = Ok versions -> truthy versions = false ->
        fetchNpmMetadata v1Config up n w = (missing, w1))
  /\ (forall versions tags,
        truthy (body reply) = true ->
        member (body reply) "versions" = Ok versions -> truthy versions = true ->
        member (body reply) "dist-tags" = Ok tags ->
        (forall k, In k (Object_keys versions) -> semver_valid k = true) ->
        exists sorted,
          fetchNpmMetadata v1Config up n w = (Ok (PackageMetadata tags sorted), w1)
          /\ Permutation sorted (Object_keys versions)
          /\ StronglySorted sorts_before sorted).
Proof.
  intros Hreq missing. split; [|split].
  - intros Hbody. unfold fetchNpmMetadata. unfold bind at 1. rewrite Hreq, Hbody.
    reflexivity.
  - intros versions Hbody Hversions Hfalsy.
    unfold fetchNpmMetadata. unfold bind at 1. rewrite Hreq, Hbody. cbn [negb].
    unfold bind at 1. unfold lift at 1. rewrite Hversions, Hfalsy. reflexivity.
  - intros versions tags Hbody Hversions Htruthy Htags Hvalid.
    destruct (sort_by_answers semver_rcompare (Object_keys versions)) as [sorted Hsort].
    { intros x y Hx Hy. apply rcompare_valid; apply Hvalid; assumption. }
    exists sorted. split; [|split].
    + unfold fetchNpmMetadata. unfold bind at 1. rewrite Hreq, Hbody. cbn [negb].
      unfold bind at 1. unfold lift at 1. rewrite Hversions, Htruthy. cbn [negb].
      unfold bind at 1. unfold lift at 1. rewrite Htags.
      unfold bind at 1. unfold lift at 1. rewrite Hsort. reflexivity.
    + exact (sort_by_perm _ _ _ Hsort).
    + apply Sorted_StronglySorted.
      * intros a b c. apply rcompare_trans.
      * apply (sort_by_sorted semver_rcompare rcompare_total _ _ Hsort).
Qed.
End Answers.

(** ** The tag listing of a repository *)

(** A listing given page by page, each with tags, accumulates the names of
    all pages in the order they came; the tags are the empty array. *)
Lemma loadMore_listing (pages : list value) (last : value) (acc : list value) (w : world) :
  Forall (fun data => truthy data = true) pages ->
  loadMore acc (Examples.listing pages last) w
  = (Ok (VObj [("tags", VArr []);
               ("versions", VArr (acc ++ flat_map map_name (pages ++ [last]))%list)]),
     logged w (repeat GitHubNextPage (List.length pages))).
Proof.
  intros Hpages. revert acc w.
  induction Hpages as [|data rest Hdata _ IH]; intros acc w; simpl.
  - rewrite app_nil_r, logged_nil. reflexivity.
  - rewrite Hdata. unfold bind. rewrite emit_eq, IH, logged_logged, app_assoc. reflexivity.
Qed.

Lemma fetchGitHubMetadata_listing (pages : list value) (last : value) (w : world) :
  Forall (fun data => truthy data = true) pages ->
  fetchGitHubMetadata (Examples.tagged (Examples.listing pages last)) "jquery" "jquery" w
  = (Ok (VObj [("tags", VArr []);
               ("versions", VArr (flat_map map_name (pages ++ [last])))]),
     logged w (GitHubGetTags "jquery" "jquery" :: repeat GitHubNextPage (List.length pages))).
Proof.
  intros Hpages. unfold fetchGitHubMetadata, try_catch, bind. rewrite emit_eq.
  simpl listTags. rewrite (loadMore_listing pages last [] _ Hpages), logged_logged.
  reflexivity.
Qed.

(** ** The handlers on concrete requests *)

Section Concrete.
Import Examples.

(** The specifier "9.x" against the versions 1.0.0, 1.1.1 and 2.0.0: the
    handler does not raise, and the body is [{version: null}], not the
    status-404 payload. *)
Lemma unmatched_range_is_not_404 :
  fst (handleResolveVersion cfg offline nine_x (holding nine_x left_pad_metadata)) = Ok tt
  /\ ctx_body (snd (handleResolveVersion cfg offline nine_x (holding nine_x left_pad_metadata)))
     = VObj [("version", VNull)]
  /\ ctx_body (snd (handleResolveVersion cfg offline nine_x (holding nine_x left_pad_metadata)))
     <> VObj [("status", VNum 404); ("message", VStr "Couldn't find left-pad@9.x.")].
Proof. vm_compute. repeat split; discriminate. Qed.

Lemma handleResolveVersion_answers_witness :
  handleResolveVersion cfg offline bower fresh
  = (Ok tt, with_body (logged fresh [RedisGet (keys_metadata bower)]) (not_found bower))
  /\ handleResolveVersion cfg offline one_x (holding one_x left_pad_metadata)
     = (Ok tt, with_body (logged (holding one_x left_pad_metadata)
                                 [RedisGet (keys_metadata one_x)])
                         (VObj [("version", VStr "1.1.1")]))
  /\ handleResolveVersion cfg offline nine_x (holding nine_x left_pad_metadata)
     = (Ok tt, with_body (logged (holding nine_x left_pad_metadata)
                                 [RedisGet (keys_metadata nine_x)])
                         (VObj [("version", VNull)])).
Proof.
  split; [|split].
  - apply (proj1 (@handleResolveVersion_answers node_semver NodeSemverFacts.node_semver_laws js_json js_uri
                    cfg bower offline fresh)
             (Error "Unknown package type bower.")).
    vm_compute. reflexivity.
  - apply (proj1 (proj2 (@handleResolveVersion_answers node_semver NodeSemverFacts.node_semver_laws
                           js_json js_uri cfg one_x offline
                           (holding one_x left_pad_metadata)))).
    vm_compute. reflexivity.
  - apply (proj2 (proj2 (@handleResolveVersion_answers node_semver NodeSemverFacts.node_semver_laws
                           js_json js_uri cfg nine_x offline
                           (holding nine_x left_pad_metadata)))
             {| payload := JsJSON.stringify left_pad_metadata; ttl := Some 300 |}
             (VObj [("latest", VStr "2.0.0")]) ["1.0.0"; "1.1.1"; "2.0.0"] "9.x").
    + vm_compute. reflexivity.
    + vm_compute. discriminate.
    + vm_compute. reflexivity.
    + reflexivity.
    + simpl. intuition discriminate.
    + reflexivity.
    + reflexivity.
    + reflexivity.
    + intros versions Hs. vm_compute in Hs. injection Hs as <-. vm_compute. reflexivity.
Defined.



(** A tag whose value is not among the versions: the tag branch answers it. *)
Lemma dangling_tag_is_answered :
  resolve next_tag (PackageMetadata (VObj [("next", VStr "2.0.0-rc.1")]) ["1.0.0"])
  = Ok (VStr "2.0.0-rc.1")
  /\ ~ In "2.0.0-rc.1" ["1.0.0"].
Proof. split; [vm_compute; reflexivity|]. simpl. intuition discriminate. Qed.

Lemma resolve_member_witness :
  In "1.1.1" ["1.0.0"; "1.1.1"; "2.0.0"]
  \/ own_prop (VObj [("latest", VStr "2.0.0")]) (param_text (version one_x))
     = Some (VStr "1.1.1").
Proof.
  apply (@resolve_member node_semver NodeSemverFacts.node_semver_laws one_x
           (VObj [("latest", VStr "2.0.0")]) ["1.0.0"; "1.1.1"; "2.0.0"] "1.1.1").
  vm_compute. reflexivity.
Defined.

(** A repository with a tag named "latest": the specifier "latest" is a member
    of [versions] and is answered as it is, although it is not a tag key and
    1.0.0 is the only valid, non-prerelease version. *)
Lemma latest_named_version_is_pinned :
  resolve pinned_tag (PackageMetadata (VObj []) ["latest"; "1.0.0"]) = Ok (VStr "latest")
  /\ hasOwnProperty (VObj []) "latest" = Ok false
  /\ List.filter stable_release (List.map VStr ["latest"; "1.0.0"]) = [VStr "1.0.0"]
  /\ VStr "latest" <> VStr "1.0.0".
Proof. vm_compute. repeat split; discriminate. Qed.

Lemma resolve_latest_witness :
  exists r,
    resolve empty_specifier release_metadata = Ok (VStr r)
    /\ In r ["2.0.0"; "1.5.0"; "1.0.0-beta"]
    /\ semver_valid r = true /\ semver_prerelease r = false
    /\ forall v, In v ["2.0.0"; "1.5.0"; "1.0.0-beta"] ->
                 semver_valid v = true -> semver_prerelease v = false -> sorts_before r v.
Proof.
  apply (@resolve_latest node_semver NodeSemverFacts.node_semver_laws empty_specifier
           (VObj [("latest", VStr "2.0.0")]) ["2.0.0"; "1.5.0"; "1.0.0-beta"]).
  - reflexivity.
  - intros s Hs. injection Hs as <-. simpl. intuition discriminate.
  - reflexivity.
  - reflexivity.
  - exists "2.0.0". simpl. split; [auto|]. split; vm_compute; reflexivity.
Defined.

(** The specification's example: both "latest", through the tag, and the
    absent specifier resolve to 2.0.0. *)
Lemma release_metadata_latest :
  resolve latest release_metadata = Ok (VStr "2.0.0")
  /\ resolve empty_specifier release_metadata = Ok (VStr "2.0.0")
  /\ resolve no_specifier release_metadata = Ok (VStr "2.0.0").
Proof. vm_compute. repeat split; reflexivity. Qed.


(** A reply with a body and a [versions] object, one of whose keys is not a
    semantic version: the comparator raises, so the answer is neither the
    "no versions" error nor metadata. *)
Lemma invalid_key_raises :
  fst (fetchNpmMetadata cfg (serving registry_url (ok odd_reply)) "left-pad" fresh)
  = Throw (TypeError "Invalid Version: foo")
  /\ truthy odd_reply = true
  /\ member odd_reply "versions" = Ok (VObj [("foo", VObj []); ("1.0.0", VObj [])])
  /\ truthy (VObj [("foo", VObj []); ("1.0.0", VObj [])]) = true.
Proof. vm_compute. repeat split. Qed.

Lemma fetchNpmMetadata_answers_witness :
  fetchNpmMetadata cfg (serving registry_url (ok VNull)) "left-pad" fresh
  = (Throw (Error "Unable to retrieve versions for package left-pad."),
     logged fresh [HttpGet registry_url])
  /\ fetchNpmMetadata cfg (serving registry_url (ok (VObj [("error", VStr "not_found")])))
       "left-pad" fresh
     = (Throw (Error "Unable to retrieve versions for package left-pad."),
        logged fresh [HttpGet registry_url])
  /\ exists sorted,
      fetchNpmMetadata cfg (serving registry_url (ok left_pad_reply)) "left-pad" fresh
      = (Ok (PackageMetadata (VObj [("latest", VStr "2.0.0")]) sorted),
         logged fresh [HttpGet registry_url])
      /\ Permutation sorted ["1.0.0"; "1.1.1"; "2.0.0"]
      /\ StronglySorted sorts_before sorted.
Proof.
  split; [|split].
  - apply (proj1 (@fetchNpmMetadata_answers node_semver NodeSemverFacts.node_semver_laws js_uri
                    cfg (serving registry_url (ok VNull)) "left-pad" fresh
                    (logged fresh [HttpGet registry_url])
                    {| statusCode := Some 200; body := VNull |} eq_refl)).
    reflexivity.
  - apply (proj1 (proj2 (@fetchNpmMetadata_answers node_semver NodeSemverFacts.node_semver_laws
                           js_uri cfg
                           (serving registry_url (ok (VObj [("error", VStr "not_found")])))
                           "left-pad" fresh (logged fresh [HttpGet registry_url])
                           {| statusCode := Some 200;
                              body := VObj [("error", VStr "not_found")] |} eq_refl))
             VUndefined); reflexivity.
  - apply (proj2 (proj2 (@fetchNpmMetadata_answers node_semver NodeSemverFacts.node_semver_laws
                           js_uri cfg (serving registry_url (ok left_pad_reply))
                           "left-pad" fresh (logged fresh [HttpGet registry_url])
                           {| statusCode := Some 200; body := left_pad_reply |} eq_refl))
             (VObj [("1.0.0", VObj []); ("1.1.1", VObj []); ("2.0.0", VObj [])])
             (VObj [("latest", VStr "2.0.0")])); try reflexivity.
    intros k Hk. simpl in Hk.
    destruct Hk as [<-|[<-|[<-|[]]]]; vm_compute; reflexivity.
Defined.

(** C6. The metadata [fetchGitHubMetadata] returns has the empty array for
    [tags], not an empty mapping, and an array owns the key "length": on the
    request with the specifier "length" the tag branch of
    [getResolvedVersion] matches and the answer is the number 0 for a
    version, where the claim has no key of the tags ever match. *)
Lemma github_tags_own_length :
  fst (fetchGitHubMetadata (tagged (listing [] (page 0 2))) "jquery" "jquery" fresh)
  = Ok (VObj [("tags", VArr []); ("versions", VArr [VStr "v1.0.0"; VStr "v1.0.1"])])
  /\ hasOwnProperty (VArr []) "length" = Ok true
  /\ resolve (request "gh" "jquery/jquery" (Some "length"))
       (VObj [("tags", VArr []); ("versions", VArr [VStr "v1.0.0"; VStr "v1.0.1"])])
     = Ok (VNum 0)
  /\ fst (handleResolveVersion cfg (tagged (listing [] (page 0 2)))
            (request "gh" "jquery/jquery" (Some "length")) fresh)
     = Ok tt
  /\ ctx_body (snd (handleResolveVersion cfg (tagged (listing [] (page 0 2)))
                      (request "gh" "jquery/jquery" (Some "length")) fresh))
     = VObj [("version", VNum 0)].
Proof. vm_compute. repeat split. Qed.


Lemma handleVersionFiles_not_listed_witness :
  handleVersionFiles cfg offline one_x (holding one_x left_pad_metadata)
  = (Ok tt,
     with_body (logged (holding one_x left_pad_metadata) [RedisGet (keys_metadata one_x)])
       (VObj [("status", VNum 404);
              ("message",
               VStr "Couldn't find version 1.x for left-pad. Make sure you use a specific version number, and not a version range or a tag.")])).
Proof.
  refine (proj1 (@handleVersionFiles_not_listed node_semver js_json js_uri cfg one_x offline
                   (holding one_x left_pad_metadata)
                   (logged (holding one_x left_pad_metadata) [RedisGet (keys_metadata one_x)])
                   left_pad_metadata
                   (VArr [VStr "1.0.0"; VStr "1.1.1"; VStr "2.0.0"]) _ _ _)).
  - vm_compute. reflexivity.
  - reflexivity.
  - reflexivity.
Defined.

(** The same request with the tag name "latest" in place of the range. *)
Lemma tag_name_is_not_listed :
  ctx_body (snd (handleVersionFiles cfg offline (left_pad (Some "latest"))
                   (holding (left_pad (Some "latest")) left_pad_metadata)))
  = VObj [("status", VNum 404);
          ("message",
           VStr "Couldn't find version latest for left-pad. Make sure you use a specific version number, and not a version range or a tag.")]
  /\ trace (snd (handleVersionFiles cfg offline (left_pad (Some "latest"))
                   (holding (left_pad (Some "latest")) left_pad_metadata)))
     = [RedisGet "package/npm/left-pad/metadata"].
Proof. vm_compute. repeat split. Qed.

Lemma handleVersionFiles_failures_witness :
  (exists w2,
      handleVersionFiles cfg (serving listing_url (Throw (HTTPError forbidden_reply)))
        one_one_one (holding one_one_one left_pad_metadata) = (Ok tt, w2)
      /\ ctx_body w2 = VObj [("status", VNum 403); ("message", body forbidden_reply)]
      /\ redis w2 !! keys_files one_one_one
         = Some {| payload := JSON_stringify
                                (VObj [("status", VNum 403); ("message", body forbidden_reply)]);
                   ttl := None |})
  /\ (exists status,
        handleVersionFiles cfg (serving listing_url (Throw (ParseError broken_reply)))
          one_one_one (holding one_one_one left_pad_metadata)
        = (Ok tt,
           with_body
             (logged (holding one_one_one left_pad_metadata)
                     [RedisGet (keys_metadata one_one_one); RedisGet (keys_files one_one_one);
                      HttpGet listing_url])
             (VObj [("status", VNum status); ("message", body broken_reply)]))
        /\ (statusCode broken_reply = None -> status = 502)
        /\ (forall n, statusCode broken_reply = Some n -> n <> 0 -> status = n)).
Proof.
  split.
  - apply (proj1 (@handleVersionFiles_failures node_semver js_json js_uri cfg one_one_one
                    (serving listing_url (Throw (HTTPError forbidden_reply)))
                    (holding one_one_one left_pad_metadata)
                    (logged (holding one_one_one left_pad_metadata)
                            [RedisGet (keys_metadata one_one_one)])
                    left_pad_metadata (VArr [VStr "1.0.0"; VStr "1.1.1"; VStr "2.0.0"])
                    ltac:(vm_compute; reflexivity) eq_refl eq_refl)
             (HTTPError forbidden_reply) forbidden_reply).
    + vm_compute. reflexivity.
    + reflexivity.
    + reflexivity.
    + reflexivity.
    + vm_compute. reflexivity.
  - apply (proj2 (@handleVersionFiles_failures node_semver js_json js_uri cfg one_one_one
                    (serving listing_url (Throw (ParseError broken_reply)))
                    (holding one_one_one left_pad_metadata)
                    (logged (holding one_one_one left_pad_metadata)
                            [RedisGet (keys_metadata one_one_one)])
                    left_pad_metadata (VArr [VStr "1.0.0"; VStr "1.1.1"; VStr "2.0.0"])
                    ltac:(vm_compute; reflexivity) eq_refl eq_refl)
             broken_reply).
    vm_compute. reflexivity.
Defined.

(** A parse error that carries a status code keeps it. *)
Lemma parse_error_keeps_status :
  ctx_body (snd (handleVersionFiles cfg (serving listing_url (Throw (ParseError bad_gateway_reply)))
                   one_one_one (holding one_one_one left_pad_metadata)))
  = VObj [("status", VNum 504); ("message", VStr "<html>")].
Proof. vm_compute. reflexivity. Qed.

Lemma getMetadataAsJson_failure_witness :
  (getMetadataAsJson cfg offline bower fresh
   = (Throw (Error "Unknown package type bower."),
      logged fresh [RedisGet (keys_metadata bower)])
   /\ redis (logged fresh [RedisGet (keys_metadata bower)]) = redis fresh
   /\ List.filter is_write (trace (logged fresh [RedisGet (keys_metadata bower)]))
      = List.filter is_write (trace fresh))
  /\ (getMetadataAsJson cfg (serving registry_url (ok VNull)) one_x fresh
      = (Throw (Error "Unable to retrieve versions for package left-pad."),
         logged fresh [RedisGet (keys_metadata one_x); HttpGet registry_url])
      /\ redis (logged fresh [RedisGet (keys_metadata one_x); HttpGet registry_url])
         = redis fresh
      /\ List.filter is_write
           (trace (logged fresh [RedisGet (keys_metadata one_x); HttpGet registry_url]))
         = List.filter is_write (trace fresh)).
Proof.
  split.
  - apply (@getMetadataAsJson_failure node_semver js_json js_uri cfg bower offline fresh).
    + vm_compute. reflexivity.
    + vm_compute. reflexivity.
  - apply (@getMetadataAsJson_failure node_semver js_json js_uri cfg one_x
             (serving registry_url (ok VNull)) fresh).
    + vm_compute. reflexivity.
    + vm_compute. reflexivity.
Defined.


Lemma getFilesAsJson_cached_witness :
  (getFilesAsJson cfg offline one_one_one (holding_files one_one_one left_pad_metadata "{}")
   = (Ok "{}", logged (holding_files one_one_one left_pad_metadata "{}")
                      [RedisGet (keys_files one_one_one)])
   /\ getFiles cfg offline one_one_one (holding_files one_one_one left_pad_metadata "{}")
      = (JSON_parse "{}", logged (holding_files one_one_one left_pad_metadata "{}")
                                 [RedisGet (keys_files one_one_one)]))
  /\ (exists w'',
        getFilesAsJson cfg (serving listing_url (Throw (HTTPError forbidden_reply)))
          one_one_one fresh
        = (Ok (JSON_stringify (VObj [("status", VNum 403); ("message", body forbidden_reply)])),
           w'')
        /\ redis w'' !! keys_files one_one_one
           = Some {| payload := JSON_stringify
                                  (VObj [("status", VNum 403);
                                         ("message", body forbidden_reply)]);
                     ttl := None |}
        /\ forall up',
            getFilesAsJson cfg up' one_one_one w''
            = (Ok (JSON_stringify (VObj [("status", VNum 403);
                                         ("message", body forbidden_reply)])),
               logged w'' [RedisGet (keys_files one_one_one)])
            /\ getFiles cfg up' one_one_one w''
               = (JSON_parse (JSON_stringify (VObj [("status", VNum 403);
                                                    ("message", body forbidden_reply)])),
                  logged w'' [RedisGet (keys_files one_one_one)]))
  /\ fetchFiles cfg (serving listing_url (Throw (HTTPError forbidden_reply))) one_one_one fresh
     = (Ok (VObj [("status", VNum 403); ("message", body forbidden_reply)]),
        logged fresh [HttpGet (files_url cfg one_one_one)]).
Proof.
  pose proof (@getFilesAsJson_cached js_json cfg one_one_one js_json_laws)
    as (Hhit & Hstored & Hforbidden).
  split; [|split].
  - apply (Hhit offline (holding_files one_one_one left_pad_metadata "{}")
             {| payload := "{}"; ttl := None |}).
    + vm_compute. reflexivity.
    + discriminate.
  - apply (Hstored (serving listing_url (Throw (HTTPError forbidden_reply))) fresh
             (VObj [("status", VNum 403); ("message", body forbidden_reply)])
             (logged fresh [RedisGet (keys_files one_one_one); HttpGet listing_url])).
    + vm_compute. reflexivity.
    + vm_compute. reflexivity.
  - apply (Hforbidden (serving listing_url (Throw (HTTPError forbidden_reply))) fresh
             (HTTPError forbidden_reply) forbidden_reply); reflexivity.
Defined.

(** A listing that succeeds is stored once and read back afterwards, with
    only the [default] and [files] members of the reply. *)
Lemma file_listing_is_fetched_once :
  trace (snd (getFiles cfg offline one_one_one
                (snd (getFiles cfg (serving listing_url (ok file_listing)) one_one_one fresh))))
  = [RedisGet "package/npm/left-pad@1.1.1/files";
     HttpGet listing_url;
     RedisSet "package/npm/left-pad@1.1.1/files"
       (JSON_stringify (pick file_listing ["default"; "files"])) None;
     RedisGet "package/npm/left-pad@1.1.1/files"]
  /\ fst (getFiles cfg offline one_one_one
            (snd (getFiles cfg (serving listing_url (ok file_listing)) one_one_one fresh)))
     = Ok (pick file_listing ["default"; "files"]).
Proof. vm_compute. repeat split. Qed.


(** Three pages of 100, 100 and 37 distinct tags give 237 versions, none
    twice, after two requests for a next page. *)
Lemma three_pages_versions :
  exists names,
    fetchGitHubMetadata (tagged three_pages) "jquery" "jquery" fresh
    = (Ok (VObj [("tags", VArr []); ("versions", VArr (List.map VStr names))]),
       logged fresh [GitHubGetTags "jquery" "jquery"; GitHubNextPage; GitHubNextPage])
    /\ List.length names = 237%nat
    /\ List.NoDup names.
Proof.
  exists (List.map (fun i => String.append "v1.0." (nat_text i)) (seq 0 237)).
  split; [vm_compute; reflexivity|]. split; [reflexivity|].
  assert (Hfix : nodup string_dec
                   (List.map (fun i => String.append "v1.0." (nat_text i)) (seq 0 237))
                 = List.map (fun i => String.append "v1.0." (nat_text i)) (seq 0 237))
    by (vm_compute; reflexivity).
  rewrite <- Hfix. apply List.NoDup_nodup.
Qed.
End Concrete.

(** * Further properties *)

(** ** The metadata cache *)

Section MetadataCache.
Context `{SemVer} `{JSON} `{URI}.
Variable v1Config : config.
Variable this : params.

Lemma quiet_redis (A : Type) (c : M A) (w : world) :
  quiet c -> redis (snd (c w)) = redis w
             /\ List.filter is_write (trace (snd (c w))) = List.filter is_write (trace w).
Proof.
  intros Hq. destruct (Hq w) as (evs & -> & Hevs). split; [reflexivity|].
  simpl. rewrite List.filter_app.
  assert (Hnone : List.filter is_write evs = []).
  { induction evs as [|x evs IH]; simpl in *; [reflexivity|].
    apply andb_true_iff in Hevs as [Hx Hevs]. apply negb_true_iff in Hx.
    rewrite Hx. apply IH. exact Hevs. }
  rewrite Hnone, app_nil_r. reflexivity.
Qed.

Lemma getMetadataAsJson_miss (up : upstream) (w : world) :
  cached (payload <$> redis w !! keys_metadata this) = None ->
  getMetadataAsJson v1Config up this w
  = match fetchMetadata v1Config up this (logged w [RedisGet (keys_metadata this)]) with
    | (Ok fetched, w1) =>
        (let! maxAge := lift (config_maxAge v1Config this) in
         let! _ := redis_setAsync (keys_metadata this) (JSON_stringify fetched) (Some maxAge) in
         ret (JSON_stringify fetched)) w1
    | (Throw e, w1) => (Throw e, w1)
    end.
Proof.
  intros Hmiss. unfold getMetadataAsJson. unfold bind at 1.
  rewrite redis_getAsync_eq, Hmiss. unfold bind at 1.
  destruct (fetchMetadata v1Config up this _) as [[fetched|e] w1]; reflexivity.
Qed.

(** What succeeds in fetching has one of the two known types. *)
Lemma fetchMetadata_type (up : upstream) (w w1 : world) (fetched : value) :
  fetchMetadata v1Config up this w = (Ok fetched, w1) ->
  config_maxAge v1Config this = Ok (maxAge_of v1Config this).
Proof.
  unfold fetchMetadata, config_maxAge, maxAge_of.
  destruct (String.eqb (type this) "npm"); [reflexivity|].
  destruct (String.eqb (type this) "gh"); [reflexivity|].
  unfold throw. discriminate.
Qed.

(** X1. [handleVersions] answers the cached text as it is, without parsing
    it and without any call but the read of the key; on the same store
    [handleResolveVersion] answers the not-found payload when the text is
    not JSON. *)
Theorem handleVersions_cached (up : upstream) (w : world) (e : entry) :
  redis w !! keys_metadata this = Some e -> payload e <> EmptyString ->
  handleVersions v1Config up this w
  = (Ok tt, with_body (logged w [RedisGet (keys_metadata this)]) (VStr (payload e)))
  /\ (forall err, JSON_parse (payload e) = Throw err ->
        handleResolveVersion v1Config up this w
        = (Ok tt, with_body (logged w [RedisGet (keys_metadata this)]) (not_found this))).
Proof.
  intros He Hne. split.
  - unfold handleVersions, try_catch. unfold bind at 1.
    rewrite (getMetadataAsJson_hit v1Config this up w e He Hne). reflexivity.
  - intros err Hparse. unfold handleResolveVersion, try_catch, getResolvedVersion.
    unfold bind at 1. unfold bind at 1.
    rewrite (getMetadata_hit v1Config this up w e He Hne), Hparse. reflexivity.
Qed.

(** X2. When the metadata is not cached and fetching it fails,
    [handleVersions] does not raise and answers the not-found payload; the
    failure is not stored, so the key is still missing for the next request. *)
Theorem handleVersions_failure (up : upstream) (w w1 : world) (e : exn) :
  cached (payload <$> redis w !! keys_metadata this) = None ->
  fetchMetadata v1Config up this (logged w [RedisGet (keys_metadata this)]) = (Throw e, w1) ->
  handleVersions v1Config up this w = (Ok tt, with_body w1 (not_found this))
  /\ redis (with_body w1 (not_found this)) = redis w
  /\ cached (payload <$> redis (with_body w1 (not_found this)) !! keys_metadata this) = None.
Proof.
  intros Hmiss Hfetch.
  assert (Hredis : redis w1 = redis w).
  { pose proof (quiet_redis _ _ (logged w [RedisGet (keys_metadata this)])
                  (quiet_fetchMetadata v1Config up this)) as [Hr _].
    rewrite Hfetch in Hr. exact Hr. }
  split; [|split].
  - unfold handleVersions, try_catch. unfold bind at 1.
    rewrite (getMetadataAsJson_miss up w Hmiss), Hfetch. reflexivity.
  - exact Hredis.
  - simpl. rewrite Hredis. exact Hmiss.
Qed.

(** X3. When the metadata is not cached and fetching it succeeds,
    [getMetadataAsJson] stores the serialization under the metadata key with
    the expiry configured for the package type and returns it; from then on
    every call returns the same text with the read of the key as its only
    call, whatever upstream would answer, and [getMetadata] gives again what
    it gave on the call that filled the cache. *)
Theorem getMetadataAsJson_fills `{!JSONLaws} (up : upstream) (w w1 : world) (fetched : value) :
  cached (payload <$> redis w !! keys_metadata this) = None ->
  fetchMetadata v1Config up this (logged w [RedisGet (keys_metadata this)]) = (Ok fetched, w1) ->
  exists w2,
    getMetadataAsJson v1Config up this w = (Ok (JSON_stringify fetched), w2)
    /\ redis w2 !! keys_metadata this
       = Some {| payload := JSON_stringify fetched; ttl := Some (maxAge_of v1Config this) |}
    /\ forall up',
        getMetadataAsJson v1Config up' this w2
        = (Ok (JSON_stringify fetched), logged w2 [RedisGet (keys_metadata this)])
        /\ fst (getMetadata v1Config up' this w2) = fst (getMetadata v1Config up this w).
Proof.
  intros Hmiss Hfetch.
  pose proof (getMetadataAsJson_miss up w Hmiss) as Hfill. rewrite Hfetch in Hfill.
  unfold bind at 1 in Hfill. unfold lift at 1 in Hfill.
  rewrite (fetchMetadata_type up _ _ _ Hfetch) in Hfill.
  cbv [bind redis_setAsync emit ret] in Hfill.
  eexists. split; [exact Hfill|].
  match goal with |- ?l = _ /\ _ =>
    assert (Hl : l = Some {| payload := JSON_stringify fetched;
                             ttl := Some (maxAge_of v1Config this) |})
  end.
  { simpl. apply lookup_insert_eq. }
  split; [exact Hl|]. intros up'.
  assert (Hne : payload {| payload := JSON_stringify fetched;
                           ttl := Some (maxAge_of v1Config this) |} <> EmptyString).
  { simpl. apply stringify_truthy. }
  split.
  - exact (getMetadataAsJson_hit v1Config this up' _ _ Hl Hne).
  - rewrite (getMetadata_hit v1Config this up' _ _ Hl Hne).
    unfold getMetadata. unfold bind at 1. rewrite Hfill. reflexivity.
Qed.
End MetadataCache.

(** ** The file listing *)

Section Frames.
Lemma quiet_keeps_ctx (A : Type) (c : M A) : quiet c -> keeps_ctx c.
Proof. intros Hq w. destruct (Hq w) as (evs & -> & _). split; reflexivity. Qed.

Lemma keeps_ctx_ret (A : Type) (a : A) : keeps_ctx (ret a).
Proof. intros w. split; reflexivity. Qed.

Lemma keeps_ctx_lift (A : Type) (o : outcome A) : keeps_ctx (lift o).
Proof. intros w. split; reflexivity. Qed.

Lemma keeps_ctx_bind (A B : Type) (c : M A) (k : A -> M B) :
  keeps_ctx c -> (forall a, keeps_ctx (k a)) -> keeps_ctx (bind c k).
Proof.
  intros Hc Hk w. unfold bind. destruct (Hc w) as [Hb Hm].
  destruct (c w) as [[a|e] w1]; simpl in *.
  - destruct (Hk a w1) as [Hb' Hm']. rewrite Hb', Hm'. auto.
  - auto.
Qed.

Lemma keeps_ctx_redis_getAsync (key : string) : keeps_ctx (redis_getAsync key).
Proof. intros w. split; reflexivity. Qed.

Lemma keeps_ctx_redis_setAsync (key data : string) (ex : option Z) :
  keeps_ctx (redis_setAsync key data ex).
Proof. intros w. split; reflexivity. Qed.

Context `{SemVer} `{JSON} `{URI}.
Variable v1Config : config.
Variable up : upstream.
Variable this : params.

Lemma keeps_ctx_getFiles : keeps_ctx (getFiles v1Config up this).
Proof.
  apply keeps_ctx_bind; [|intros; apply keeps_ctx_lift].
  apply keeps_ctx_bind; [apply keeps_ctx_redis_getAsync|]. intros files.
  destruct (cached files); [apply keeps_ctx_ret|].
  apply keeps_ctx_bind; [apply quiet_keeps_ctx, quiet_fetchFiles|]. intros fetched.
  apply keeps_ctx_bind; [apply keeps_ctx_redis_setAsync|intros; apply keeps_ctx_ret].
Qed.

Lemma keeps_ctx_getMetadataAsJson : keeps_ctx (getMetadataAsJson v1Config up this).
Proof.
  apply keeps_ctx_bind; [apply keeps_ctx_redis_getAsync|]. intros metadata.
  destruct (cached metadata); [apply keeps_ctx_ret|].
  apply keeps_ctx_bind; [apply quiet_keeps_ctx, quiet_fetchMetadata|]. intros fetched.
  apply keeps_ctx_bind; [apply keeps_ctx_lift|]. intros maxAge.
  apply keeps_ctx_bind; [apply keeps_ctx_redis_setAsync|intros; apply keeps_ctx_ret].
Qed.

Lemma keeps_ctx_getMetadata : keeps_ctx (getMetadata v1Config up this).
Proof.
  apply keeps_ctx_bind; [apply keeps_ctx_getMetadataAsJson|intros; apply keeps_ctx_lift].
Qed.
End Frames.

Section FileListing.
Context `{SemVer} `{JSON} `{URI}.
Variable v1Config : config.
Variable this : params.

Lemma getFilesAsJson_miss (up : upstream) (w : world) :
  cached (payload <$> redis w !! keys_files this) = None ->
  getFilesAsJson v1Config up this w
  = match fetchFiles v1Config up this (logged w [RedisGet (keys_files this)]) with
    | (Ok fetched, w1) =>
        (let! _ := redis_setAsync (keys_files this) (JSON_stringify fetched) None in
         ret (JSON_stringify fetched)) w1
    | (Throw e, w1) => (Throw e, w1)
    end.
Proof.
  intros Hmiss. unfold getFilesAsJson. unfold bind at 1.
  rewrite redis_getAsync_eq, Hmiss. unfold bind at 1.
  destruct (fetchFiles v1Config up this _) as [[fetched|e] w1]; reflexivity.
Qed.

(** X4. When the listing is not cached and [fetchFiles] throws,
    [getFilesAsJson] and [getFiles] fail with the same exception and nothing
    is written: the store is unchanged, no write was issued, and the key is
    still missing afterwards. *)
Theorem getFilesAsJson_failure (up : upstream) (w w1 : world) (e : exn) :
  cached (payload <$> redis w !! keys_files this) = None ->
  fetchFiles v1Config up this (logged w [RedisGet (keys_files this)]) = (Throw e, w1) ->
  getFilesAsJson v1Config up this w = (Throw e, w1)
  /\ getFiles v1Config up this w = (Throw e, w1)
  /\ redis w1 = redis w
  /\ List.filter is_write (trace w1) = List.filter is_write (trace w)
  /\ cached (payload <$> redis w1 !! keys_files this) = None.
Proof.
  intros Hmiss Hfetch.
  pose proof (quiet_redis _ _ (logged w [RedisGet (keys_files this)])
                (quiet_fetchFiles v1Config up this)) as [Hredis Hwrites].
  rewrite Hfetch in Hredis, Hwrites. simpl in Hredis, Hwrites.
  assert (Hjson : getFilesAsJson v1Config up this w = (Throw e, w1)).
  { rewrite (getFilesAsJson_miss up w Hmiss), Hfetch. reflexivity. }
  split; [exact Hjson|]. split; [|split; [exact Hredis|split]].
  - unfold getFiles. unfold bind at 1. rewrite Hjson. reflexivity.
  - rewrite Hwrites, List.filter_app. simpl. apply app_nil_r.
  - rewrite Hredis. exact Hmiss.
Qed.

(** X17. On a reply that is not an error, [fetchFiles] makes one request
    and returns an object that has the reply's [default] and [files]
    members and no other member. *)
Theorem fetchFiles_picks (up : upstream) (w : world) (r : response) :
  http_get up (files_url v1Config this) = Ok r ->
  exists listing,
    fetchFiles v1Config up this w = (Ok listing, logged w [HttpGet (files_url v1Config this)])
    /\ forall k,
        own_prop listing k
        = if String.eqb k "default" || String.eqb k "files"
          then match body r with VObj props => assoc k props | _ => None end
          else None.
Proof.
  intros Hget. eexists. split.
  - unfold fetchFiles, try_catch, got, bind, lift. rewrite emit_eq, Hget. reflexivity.
  - intros k. unfold pick, own_prop. cbn [flat_map].
    destruct (body r) as [| | | | | |props]; simpl;
      try (destruct (String.eqb k "default" || String.eqb k "files"); reflexivity).
    destruct (String.eqb k "default") eqn:Hd, (String.eqb k "files") eqn:Hf; simpl.
    + apply String.eqb_eq in Hd, Hf. subst. discriminate.
    + apply String.eqb_eq in Hd. subst k.
      destruct (assoc "default" props); simpl; [reflexivity|].
      destruct (assoc "files" props); reflexivity.
    + apply String.eqb_eq in Hf. subst k.
      destruct (assoc "default" props); simpl; destruct (assoc "files" props); simpl;
        reflexivity.
    + destruct (assoc "default" props); simpl; [rewrite Hd|];
        (destruct (assoc "files" props); simpl; [rewrite Hf|]); reflexivity.
Qed.
End FileListing.

(** ** What leaves [handleVersionFiles] *)

Section VersionFiles.
Context `{SemVer} `{JSON} `{URI}.
Variable v1Config : config.
Variable this : params.

Lemma handleVersionFiles_listed (up : upstream) (w w1 : world) (metadata all : value) :
  getMetadata v1Config up this w = (Ok metadata, w1) ->
  member metadata "versions" = Ok all ->
  includes all (version this) = Ok true ->
  handleVersionFiles v1Config up this w
  = match getFiles v1Config up this w1 with
    | (Ok files, w2) =>
        (Ok tt, {| redis := redis w2; trace := trace w2; ctx_body := files;
                   ctx_maxAge := Some (maxAgeStatic v1Config) |})
    | (Throw (ParseError r), w2) =>
        (Ok tt, with_body w2 (VObj [("status", VNum (status_or_502 r)); ("message", body r)]))
    | (Throw e, w2) => (Throw e, w2)
    end.
Proof.
  intros Hmeta Hall Hinc. unfold handleVersionFiles. rewrite Hmeta.
  unfold bind at 1. unfold lift at 1. rewrite Hall.
  unfold bind at 1. unfold lift at 1. rewrite Hinc. cbn [negb].
  unfold try_catch. unfold bind at 1.
  destruct (getFiles v1Config up this w1) as [[files|e] w2]; [reflexivity|].
  destruct e; reflexivity.
Qed.

(** X5. Of the failures of the file-listing request only a status 403 and a
    parse error become response bodies.  Any other upstream error leaves
    [handleVersionFiles] as an exception: an error that carries a response
    (an HTTP status other than 403) as it is, an error that carries none (a
    timeout, a refused connection) as the [TypeError] of reading its missing
    response.  Nothing is stored and the context is not touched. *)
Theorem handleVersionFiles_upstream_errors (up : upstream) (w w1 : world)
        (metadata all : value) (err : exn) :
  getMetadata v1Config up this w = (Ok metadata, w1) ->
  member metadata "versions" = Ok all ->
  includes all (version this) = Ok true ->
  cached (payload <$> redis w1 !! keys_files this) = None ->
  http_get up (files_url v1Config this) = Throw err ->
  is_ParseError err = false ->
  (forall r, error_response err = Some r -> status_is_403 r = false) ->
  handleVersionFiles v1Config up this w
  = (Throw (match error_response err with
            | Some _ => err
            | None => TypeError "Cannot read property 'statusCode' of undefined"
            end),
     logged w1 [RedisGet (keys_files this); HttpGet (files_url v1Config this)]).
Proof.
  intros Hmeta Hall Hinc Hmiss Hget Hparse Hstatus.
  rewrite (handleVersionFiles_listed up w w1 metadata all Hmeta Hall Hinc).
  assert (Hfetch : fetchFiles v1Config up this (logged w1 [RedisGet (keys_files this)])
                   = (Throw (match error_response err with
                             | Some _ => err
                             | None => TypeError "Cannot read property 'statusCode' of undefined"
                             end),
                      logged w1 [RedisGet (keys_files this); HttpGet (files_url v1Config this)])).
  { unfold fetchFiles, try_catch, got, bind, lift. rewrite emit_eq, Hget.
    rewrite logged_logged. simpl app. unfold throw.
    destruct (error_response err) as [r|] eqn:Hr; [|reflexivity].
    rewrite (Hstatus r eq_refl). reflexivity. }
  unfold getFiles. unfold bind at 1.
  rewrite (getFilesAsJson_miss v1Config this up w1 Hmiss), Hfetch.
  destruct (error_response err) as [r|] eqn:Hr; [|reflexivity].
  destruct err; try reflexivity. discriminate.
Qed.

(** X6. An exception leaves [handleVersionFiles] in two cases only, both
    after the metadata was obtained: reading or searching its [versions]
    throws (the metadata is not of the expected shape), or the version is
    listed and [getFiles] throws something that is not a parse error. *)
Theorem handleVersionFiles_escapes (up : upstream) (w w' : world) (e : exn) :
  handleVersionFiles v1Config up this w = (Throw e, w') ->
  exists metadata w1,
    getMetadata v1Config up this w = (Ok metadata, w1)
    /\ ((w' = w1
         /\ (member metadata "versions" = Throw e
             \/ exists all, member metadata "versions" = Ok all
                            /\ includes all (version this) = Throw e))
        \/ (exists all,
              member metadata "versions" = Ok all
              /\ includes all (version this) = Ok true
              /\ getFiles v1Config up this w1 = (Throw e, w')
              /\ is_ParseError e = false)).
Proof.
  intros Hthrow.
  destruct (getMetadata v1Config up this w) as [[metadata|e0] w1] eqn:Hmeta.
  - exists metadata, w1. split; [reflexivity|].
    destruct (member metadata "versions") as [all|e1] eqn:Hall.
    + destruct (includes all (version this)) as [[|]|e2] eqn:Hinc.
      * right. exists all. repeat split; try assumption.
        -- rewrite (handleVersionFiles_listed up w w1 metadata all Hmeta Hall Hinc) in Hthrow.
           destruct (getFiles v1Config up this w1) as [[files|e3] w2]; [discriminate|].
           destruct e3; simpl in Hthrow;
             try (injection Hthrow as <- <-; reflexivity); discriminate.
        -- rewrite (handleVersionFiles_listed up w w1 metadata all Hmeta Hall Hinc) in Hthrow.
           destruct (getFiles v1Config up this w1) as [[files|e3] w2]; [discriminate|].
           destruct e3; simpl in Hthrow;
             try (injection Hthrow as <- <-; reflexivity); discriminate.
      * unfold handleVersionFiles in Hthrow. rewrite Hmeta in Hthrow.
        unfold bind, lift in Hthrow. rewrite Hall, Hinc in Hthrow. discriminate.
      * unfold handleVersionFiles in Hthrow. rewrite Hmeta in Hthrow.
        unfold bind, lift in Hthrow. rewrite Hall, Hinc in Hthrow.
        injection Hthrow as <- <-. left. split; [reflexivity|]. right. eauto.
    + unfold handleVersionFiles in Hthrow. rewrite Hmeta in Hthrow.
      unfold bind, lift in Hthrow. rewrite Hall in Hthrow.
      injection Hthrow as <- <-. left. split; [reflexivity|]. left. reflexivity.
  - unfold handleVersionFiles in Hthrow. rewrite Hmeta in Hthrow. discriminate.
Qed.

(** X7. [ctx.maxAge] is set by [handleVersionFiles] exactly when the version
    is listed and [getFiles] returned a value.  Then the handler returns
    with the configured static max-age and with that value for the body (a
    cached status-403 payload included); on every other path [ctx.maxAge]
    is what it was.  [handleResolveVersion] and [handleVersions] never
    change it. *)
Theorem handleVersionFiles_maxAge (up : upstream) (w : world) :
  (forall metadata w1 all files w2,
      getMetadata v1Config up this w = (Ok metadata, w1) ->
      member metadata "versions" = Ok all ->
      includes all (version this) = Ok true ->
      getFiles v1Config up this w1 = (Ok files, w2) ->
      handleVersionFiles v1Config up this w
      = (Ok tt, {| redis := redis w2; trace := trace w2; ctx_body := files;
                   ctx_maxAge := Some (maxAgeStatic v1Config) |}))
  /\ (ctx_maxAge (snd (handleVersionFiles v1Config up this w)) = ctx_maxAge w
      \/ (fst (handleVersionFiles v1Config up this w) = Ok tt
          /\ ctx_maxAge (snd (handleVersionFiles v1Config up this w))
             = Some (maxAgeStatic v1Config)
          /\ exists metadata w1 all w2,
               getMetadata v1Config up this w = (Ok metadata, w1)
               /\ member metadata "versions" = Ok all
               /\ includes all (version this) = Ok true
               /\ getFiles v1Config up this w1
                  = (Ok (ctx_body (snd (handleVersionFiles v1Config up this w))), w2)))
  /\ ctx_maxAge (snd (handleResolveVersion v1Config up this w)) = ctx_maxAge w
  /\ ctx_maxAge (snd (handleVersions v1Config up this w)) = ctx_maxAge w.
Proof.
  split; [|split; [|split]].
  - intros metadata w1 all files w2 Hmeta Hall Hinc Hfiles.
    rewrite (handleVersionFiles_listed up w w1 metadata all Hmeta Hall Hinc), Hfiles.
    reflexivity.
  - destruct (getMetadata v1Config up this w) as [[metadata|e0] w1] eqn:Hmeta.
    + pose proof (keeps_ctx_getMetadata v1Config up this w) as [_ Hage].
      rewrite Hmeta in Hage. simpl in Hage.
      destruct (member metadata "versions") as [all|e1] eqn:Hall.
      * destruct (includes all (version this)) as [[|]|e2] eqn:Hinc.
        -- rewrite (handleVersionFiles_listed up w w1 metadata all Hmeta Hall Hinc).
           pose proof (keeps_ctx_getFiles v1Config up this w1) as [_ Hage'].
           destruct (getFiles v1Config up this w1) as [[files|e3] w2] eqn:Hfiles.
           ++ right. simpl. repeat split. exists metadata, w1, all, w2. auto.
           ++ left. simpl in Hage'. destruct e3; simpl; congruence.
        -- left. unfold handleVersionFiles. rewrite Hmeta.
           unfold bind, lift. rewrite Hall, Hinc. exact Hage.
        -- left. unfold handleVersionFiles. rewrite Hmeta.
           unfold bind, lift. rewrite Hall, Hinc. exact Hage.
      * left. unfold handleVersionFiles. rewrite Hmeta.
        unfold bind, lift. rewrite Hall. exact Hage.
    + left. pose proof (keeps_ctx_getMetadata v1Config up this w) as [_ Hage].
      rewrite Hmeta in Hage. unfold handleVersionFiles. rewrite Hmeta. exact Hage.
  - unfold handleResolveVersion, try_catch, getResolvedVersion.
    unfold bind at 1. unfold bind at 1.
    pose proof (keeps_ctx_getMetadata v1Config up this w) as [_ Hage].
    destruct (getMetadata v1Config up this w) as [[metadata|e0] w1]; [|exact Hage].
    unfold lift. destruct (resolve this metadata); exact Hage.
  - unfold handleVersions, try_catch. unfold bind at 1.
    pose proof (keeps_ctx_getMetadataAsJson v1Config up this w) as [_ Hage].
    destruct (getMetadataAsJson v1Config up this w) as [[metadata|e0] w1]; exact Hage.
Qed.
End VersionFiles.

(** ** The tag listing, page by page *)

Section TagListing.
Context `{SemVer} `{JSON} `{URI}.

Lemma loadMore_trace (reply : gh_reply) :
  forall versions w, exists n,
    snd (loadMore versions reply w) = logged w (repeat GitHubNextPage n).
Proof.
  induction reply as [e|data|data reply' IH] using gh_reply_induction;
    intros versions w; simpl.
  - exists 0%nat. symmetry. apply logged_nil.
  - exists 0%nat. symmetry. apply logged_nil.
  - destruct (truthy data).
    + unfold bind. rewrite emit_eq.
      destruct (IH (versions ++ map_name data)%list (logged w [GitHubNextPage])) as [n Hn].
      exists (S n).
      destruct (loadMore _ reply' _) as [[v|e] w1]; simpl in *; subst w1;
        rewrite logged_logged; reflexivity.
    + exists 0%nat. symmetry. apply logged_nil.
Qed.

Lemma loadMore_listing_stop (pages : list value) (stop : value) (rest : list value)
      (last : value) (acc : list value) (w : world) :
  Forall (fun data => truthy data = true) pages -> truthy stop = false ->
  loadMore acc (Examples.listing (pages ++ stop :: rest) last) w
  = (Ok (VObj [("tags", VArr []);
               ("versions", VArr (acc ++ flat_map map_name (pages ++ [stop]))%list)]),
     logged w (repeat GitHubNextPage (List.length pages))).
Proof.
  intros Hpages Hstop. revert acc w.
  induction Hpages as [|data more Hdata _ IH]; intros acc w; simpl.
  - rewrite Hstop, app_nil_r, logged_nil. reflexivity.
  - rewrite Hdata. unfold bind. rewrite emit_eq, IH, logged_logged, app_assoc. reflexivity.
Qed.

(** X8. For every repository whose tag listing comes as pages with data,
    [fetchGitHubMetadata] returns the names of all pages in the order they
    came, after one listing request and one request per further page; a page
    without data ends the listing there, whatever pages would follow. *)
Theorem fetchGitHubMetadata_pages (up : upstream) (owner repository : string)
        (pages : list value) (w : world) :
  Forall (fun data => truthy data = true) pages ->
  (forall last,
      listTags up owner repository = Examples.listing pages last ->
      fetchGitHubMetadata up owner repository w
      = (Ok (VObj [("tags", VArr []);
                   ("versions", VArr (flat_map map_name (pages ++ [last])))]),
         logged w (GitHubGetTags owner repository
                     :: repeat GitHubNextPage (List.length pages))))
  /\ (forall stop rest last,
        truthy stop = false ->
        listTags up owner repository = Examples.listing (pages ++ stop :: rest) last ->
        fetchGitHubMetadata up owner repository w
        = (Ok (VObj [("tags", VArr []);
                     ("versions", VArr (flat_map map_name (pages ++ [stop])))]),
           logged w (GitHubGetTags owner repository
                       :: repeat GitHubNextPage (List.length pages)))).
Proof.
  intros Hpages. split.
  - intros last Hlist. unfold fetchGitHubMetadata, try_catch, bind.
    rewrite emit_eq, Hlist, (loadMore_listing pages last [] _ Hpages), logged_logged.
    reflexivity.
  - intros stop rest last Hstop Hlist. unfold fetchGitHubMetadata, try_catch, bind.
    rewrite emit_eq, Hlist, (loadMore_listing_stop pages stop rest last [] _ Hpages Hstop),
      logged_logged.
    reflexivity.
Qed.

(** X9. When [fetchGitHubMetadata] fails it fails with the error the GitHub
    client gave, at whatever page; the rate-limit message is logged exactly
    when the error code is 403; and all that happened is the listing
    request, the page requests and that log line: nothing is stored and the
    names gathered so far are dropped. *)
Theorem fetchGitHubMetadata_rejected (up : upstream) (owner repository : string)
        (w w' : world) (e : exn) :
  fetchGitHubMetadata up owner repository w = (Throw e, w') ->
  exists n,
    w' = logged w (GitHubGetTags owner repository :: repeat GitHubNextPage n
                     ++ (if code_is_403 e then [LogError "GitHub API rate limit exceeded."]
                         else []))%list.
Proof.
  unfold fetchGitHubMetadata, try_catch. unfold bind at 1. rewrite emit_eq.
  destruct (loadMore_trace (listTags up owner repository) []
              (logged w [GitHubGetTags owner repository])) as [n Hn].
  destruct (loadMore [] _ _) as [[v|e0] w1]; [discriminate|].
  simpl in Hn. subst w1. unfold bind, throw.
  destruct (code_is_403 e0) eqn:Hcode.
  - rewrite emit_eq. intros Heq. injection Heq as <- <-.
    exists n. rewrite Hcode, !logged_logged. reflexivity.
  - unfold ret. intros Heq. injection Heq as <- <-.
    exists n. rewrite Hcode, logged_logged, app_nil_r. reflexivity.
Qed.
End TagListing.

(** ** The race between registries *)

Section Race.
Context `{SemVer} `{JSON} `{URI}.
Variable v1Config : config.
Variable up : upstream.

Lemma emit_all_eq (es : list event) (w : world) : emit_all es w = (Ok tt, logged w es).
Proof.
  revert w. induction es as [|e es IH]; intros w; simpl.
  - rewrite logged_nil. reflexivity.
  - unfold bind. rewrite emit_eq, IH, logged_logged. reflexivity.
Qed.

Lemma first_fulfilled_some (urls : list string) (best : option (nat * response))
      (t : nat) (r : response) :
  first_fulfilled up urls best = Some (t, r) ->
  ((exists url, In url urls /\ http_get up url = Ok r /\ arrival up url = t)
   \/ best = Some (t, r))
  /\ (forall u r', In u urls -> http_get up u = Ok r' -> (t <= arrival up u)%nat)
  /\ (forall t0 r0, best = Some (t0, r0) -> (t <= t0)%nat).
Proof.
  revert best. induction urls as [|url rest IH]; simpl; intros best Hf.
  - subst best. split; [auto|]. split; [intros ? ? []|].
    intros t0 r0 Heq. injection Heq as <- <-. lia.
  - apply IH in Hf as (Hfrom & Hmin & Hbest).
    destruct (http_get up url) as [r1|e1] eqn:Hget.
    + destruct best as [[t0 r0]|].
      * destruct (Nat.ltb (arrival up url) t0) eqn:Hlt.
        -- apply Nat.ltb_lt in Hlt. specialize (Hbest _ _ eq_refl).
           split; [|split].
           ++ left. destruct Hfrom as [(u & Hu & Hr & Ht)|Heq].
              ** exists u. auto.
              ** injection Heq as <- <-. exists url. auto.
           ++ intros u r' [<-|Hu] Hr; [lia|eauto].
           ++ intros t1 r2 Heq. injection Heq as <- <-. lia.
        -- apply Nat.ltb_ge in Hlt. specialize (Hbest _ _ eq_refl).
           split; [|split].
           ++ destruct Hfrom as [(u & Hu & Hr & Ht)|Heq]; [left; exists u; auto|auto].
           ++ intros u r' [<-|Hu] Hr; [lia|eauto].
           ++ intros t1 r2 Heq. injection Heq as <- <-. lia.
      * specialize (Hbest _ _ eq_refl). split; [|split].
        -- left. destruct Hfrom as [(u & Hu & Hr & Ht)|Heq].
           ++ exists u. auto.
           ++ injection Heq as <- <-. exists url. auto.
        -- intros u r' [<-|Hu] Hr; [lia|eauto].
        -- discriminate.
    + split; [|split].
      * destruct Hfrom as [(u & Hu & Hr & Ht)|Heq]; [left; exists u; auto|auto].
      * intros u r' [<-|Hu] Hr; [congruence|eauto].
      * exact Hbest.
Qed.

Lemma first_fulfilled_none (urls : list string) (best : option (nat * response)) :
  first_fulfilled up urls best = None ->
  best = None /\ forall u, In u urls -> is_throw (http_get up u) = true.
Proof.
  revert best. induction urls as [|url rest IH]; simpl; intros best Hf.
  - split; [exact Hf|intros ? []].
  - apply IH in Hf as [Hbest Hrest].
    destruct (http_get up url) as [r1|e1] eqn:Hget.
    + destruct best as [[t0 r0]|]; [|discriminate].
      destruct (Nat.ltb (arrival up url) t0); discriminate.
    + split; [exact Hbest|]. intros u [<-|Hu]; [rewrite Hget; reflexivity|auto].
Qed.

Lemma rejections_length (urls : list string) :
  (forall u, In u urls -> is_throw (http_get up u) = true) ->
  List.length (rejections up urls) = List.length urls.
Proof.
  unfold rejections. induction urls as [|url rest IH]; simpl; intros Hall; [reflexivity|].
  pose proof (Hall url (or_introl eq_refl)) as Hurl.
  destruct (http_get up url); [discriminate|].
  simpl. f_equal. apply IH. intros u Hu. apply Hall. right. exact Hu.
Qed.

(** X10. With several registries configured, the query asks every one of
    them once.  When at least one answers, the query succeeds with the
    answer of a registry that answered, one that no answering registry
    preceded; the failures of the others are ignored.  When none answers it
    fails with an aggregate of all the failures, one per registry. *)
Theorem registry_race (n : string) (sources : list string) (w : world) :
  npm_sourceUrl v1Config = inr sources ->
  (forall u r, In u (List.map (fun s => tpl [s; "/"; n]) sources) -> http_get up u = Ok r ->
     exists reply url,
       registry_response v1Config up n w
       = (Ok reply, logged w (List.map HttpGet (List.map (fun s => tpl [s; "/"; n]) sources)))
       /\ In url (List.map (fun s => tpl [s; "/"; n]) sources)
       /\ http_get up url = Ok reply
       /\ forall u' r', In u' (List.map (fun s => tpl [s; "/"; n]) sources) ->
                        http_get up u' = Ok r' -> (arrival up url <= arrival up u')%nat)
  /\ ((forall u, In u (List.map (fun s => tpl [s; "/"; n]) sources) ->
                 is_throw (http_get up u) = true) ->
      registry_response v1Config up n w
      = (Throw (AggregateError (rejections up (List.map (fun s => tpl [s; "/"; n]) sources))),
         logged w (List.map HttpGet (List.map (fun s => tpl [s; "/"; n]) sources)))
      /\ List.length (rejections up (List.map (fun s => tpl [s; "/"; n]) sources))
         = List.length sources).
Proof.
  intros Hcfg. unfold registry_response. rewrite Hcfg.
  set (urls := List.map (fun s => tpl [s; "/"; n]) sources).
  unfold Promise_any_got. unfold bind. rewrite emit_all_eq.
  split.
  - intros u r Hu Hr.
    destruct (first_fulfilled up urls None) as [[t reply]|] eqn:Hf.
    + apply first_fulfilled_some in Hf as ([(url & Hin & Hget & Ht)|Hnone] & Hmin & _);
        [|discriminate].
      exists reply, url. repeat split; try assumption.
      intros u' r' Hu' Hr'. rewrite Ht. eauto.
    + apply first_fulfilled_none in Hf as [_ Hall].
      specialize (Hall u Hu). rewrite Hr in Hall. discriminate.
  - intros Hall. split.
    + destruct (first_fulfilled up urls None) as [[t reply]|] eqn:Hf; [|reflexivity].
      apply first_fulfilled_some in Hf as ([(url & Hin & Hget & Ht)|Hnone] & _);
        [|discriminate].
      specialize (Hall url Hin). rewrite Hget in Hall. discriminate.
    + rewrite (rejections_length urls Hall). unfold urls. apply length_map.
Qed.
End Race.

(** ** More on resolution *)

Section MoreResolution.
Context `{SemVerLaws} `{JSON} `{URI}.
Variable v1Config : config.
Variable this : params.

(** X12. A specifier that is used as a range (it is not a version of the
    package, not "latest" and not empty, and [tags] inherits
    [hasOwnProperty] and does not own it as a key) resolves to [null] or to
    a member of [versions] that is a valid version and not a prerelease:
    invalid and prerelease versions are never the answer to a range. *)
Theorem resolve_range_stable (tags : value) (vs : list string) :
  latest_or_absent (version this) = false ->
  (forall s, version this = Some s -> ~ In s vs) ->
  inherits_hasOwnProperty tags = true ->
  own_prop tags (param_text (version this)) = None ->
  resolve this (PackageMetadata tags vs) = Ok VNull
  \/ exists r,
      resolve this (PackageMetadata tags vs) = Ok (VStr r)
      /\ In r vs /\ semver_valid r = true /\ semver_prerelease r = false.
Proof.
  intros Hlatest Hout Hinh Htag.
  destruct (resolve_eq this tags vs) as (versions & Hsort & Heq).
  rewrite (not_pinned _ _ Hout), (hasOwnProperty_inherited _ _ Hinh), Htag, Hlatest in Heq.
  cbn [obind] in Heq.
  destruct (semver_maxSatisfying (strings_of versions) (param_text (version this)))
    as [v|] eqn:Hmax; [|left; exact Heq].
  right. exists v. split; [exact Heq|].
  apply maxSatisfying_In, strings_of_In in Hmax.
  destruct (head_of_kept vs _ _ Hsort Hmax) as (s & Hs & Hin & Hvalid & Hpre).
  injection Hs as ->. auto.
Qed.
End MoreResolution.

Section NoRelease.
Context `{SemVer} `{JSON} `{URI}.
Variable v1Config : config.
Variable this : params.

(** X13. When no member of [versions] is a valid, non-prerelease version
    (an empty list, only prereleases, only names that are not versions),
    "latest" and the empty or absent specifier resolve to [undefined],
    provided the specifier is not a member of [versions] and [tags]
    inherits [hasOwnProperty] and does not own the specifier as a key: with
    such metadata in the cache the body of [handleResolveVersion] is
    [{version: undefined}], not the not-found payload. *)
Theorem resolve_no_release (tags : value) (vs : list string) :
  (forall v, In v vs -> stable_release (VStr v) = false) ->
  latest_or_absent (version this) = true ->
  (forall s, version this = Some s -> ~ In s vs) ->
  inherits_hasOwnProperty tags = true ->
  own_prop tags (param_text (version this)) = None ->
  resolve this (PackageMetadata tags vs) = Ok VUndefined
  /\ forall up w e,
      redis w !! keys_metadata this = Some e -> payload e <> EmptyString ->
      JSON_parse (payload e) = Ok (PackageMetadata tags vs) ->
      handleResolveVersion v1Config up this w
      = (Ok tt, with_body (logged w [RedisGet (keys_metadata this)])
                          (VObj [("version", VUndefined)])).
Proof.
  intros Hnone Hlatest Hout Hinh Htag.
  assert (Hkept : List.filter stable_release (List.map VStr vs) = []).
  { clear Hout. induction vs as [|v rest IH]; [reflexivity|].
    cbn [List.map List.filter]. rewrite (Hnone v (or_introl eq_refl)).
    apply IH. intros v' Hv'. apply Hnone. right. exact Hv'. }
  assert (Hresolve : resolve this (PackageMetadata tags vs) = Ok VUndefined).
  { unfold resolve, PackageMetadata.
    cbn [member own_prop assoc String.eqb Ascii.eqb Bool.eqb obind array_filter].
    rewrite Hkept. cbn [sort_by obind]. rewrite includes_versions, (not_pinned _ _ Hout).
    cbn [obind]. rewrite (hasOwnProperty_inherited _ _ Hinh), Htag. cbn [obind].
    replace (strict_eq_param (Some "latest") (param_value (version this))
             || param_falsy (version this)) with (latest_or_absent (version this)).
    - rewrite Hlatest. reflexivity.
    - destruct (version this) as [s|]; simpl; [|reflexivity].
      rewrite (String.eqb_sym s "latest"). reflexivity. }
  split; [exact Hresolve|].
  intros up w e He Hne Hparse.
  unfold handleResolveVersion, try_catch, getResolvedVersion.
  unfold bind at 1. unfold bind at 1.
  rewrite (getMetadata_hit v1Config this up w e He Hne), Hparse.
  unfold lift. rewrite Hresolve. reflexivity.
Qed.
End NoRelease.

(** ** Keys that are not versions *)

Section Poisoned.
Context {A : Type} (cmp : A -> A -> outcome Z).

Lemma insert_by_throw_inv (x : A) (l : list A) (e : exn) :
  insert_by cmp x l = Throw e -> exists y, In y l /\ cmp x y = Throw e.
Proof.
  induction l as [|y l IH]; simpl; [discriminate|].
  destruct (cmp x y) as [c|e0] eqn:Hc; simpl.
  - destruct (Z.leb c 0); [discriminate|].
    destruct (insert_by cmp x l) as [r|e1]; simpl; [discriminate|].
    intros Heq. injection Heq as <-. destruct (IH eq_refl) as (z & Hz & Hcmp). eauto.
  - intros Heq. injection Heq as <-. eauto.
Qed.

(** A sort that throws throws what the comparator threw on two elements. *)
Lemma sort_by_throw_inv (l : list A) (e : exn) :
  sort_by cmp l = Throw e -> exists a b, In a l /\ In b l /\ cmp a b = Throw e.
Proof.
  induction l as [|x l IH]; simpl; [discriminate|].
  destruct (sort_by cmp l) as [s|e0] eqn:Hs; simpl.
  - intros Hi. apply insert_by_throw_inv in Hi as (y & Hy & Hc).
    exists x, y. split; [auto|]. split; [|exact Hc].
    right. exact (Permutation_in _ (sort_by_perm _ _ _ Hs) Hy).
  - intros Heq. injection Heq as <-.
    destruct (IH eq_refl) as (a & b & Ha & Hb & Hc). exists a, b. auto.
Qed.

(** One element the comparator cannot compare makes the sort of two or more
    elements throw. *)
Lemma sort_by_poisoned (l : list A) (x : A) :
  In x l -> (2 <= List.length l)%nat ->
  (forall y, is_throw (cmp x y) = true /\ is_throw (cmp y x) = true) ->
  is_throw (sort_by cmp l) = true.
Proof.
  intros Hx Hlen Hbad. induction l as [|a l IH]; [destruct Hx|].
  simpl. destruct (sort_by cmp l) as [s|e0] eqn:Hs; [|reflexivity]. simpl.
  assert (Hnonempty : s <> []).
  { intros ->. apply sort_by_perm, Permutation_nil in Hs. subst l. simpl in Hlen. lia. }
  destruct s as [|y s']; [congruence|]. simpl.
  destruct Hx as [->|Hx].
  - destruct (Hbad y) as [Hxy _]. destruct (cmp x y); [discriminate|reflexivity].
  - destruct l as [|b [|c l']].
    + destruct Hx.
    + destruct Hx as [->|[]]. simpl in Hs. injection Hs as <- <-.
      destruct (Hbad a) as [_ Hax]. destruct (cmp a x); [discriminate|reflexivity].
    + assert (Hthrow : is_throw (Ok (A := list A) (y :: s')) = true).
      { apply IH; [exact Hx|simpl; lia]. }
      discriminate.
Qed.
End Poisoned.

Section InvalidKey.
Context `{SemVer} `{JSON} `{URI}.
Variable v1Config : config.

(** X14. When the reply has two or more keys under [versions] and one of
    them is a text [semver.rcompare] throws on, [fetchNpmMetadata] fails,
    after the request and before anything is returned, with what the
    comparator threw on two of the keys. *)
Theorem fetchNpmMetadata_invalid_key (up : upstream) (n : string) (w w1 : world)
        (reply : response) (versions : value) (x : string) :
  registry_response v1Config up (encoded_name n) w = (Ok reply, w1) ->
  truthy (body reply) = true ->
  member (body reply) "versions" = Ok versions -> truthy versions = true ->
  In x (Object_keys versions) -> (2 <= List.length (Object_keys versions))%nat ->
  (forall y, is_throw (semver_rcompare x y) = true /\ is_throw (semver_rcompare y x) = true) ->
  exists e a b,
    fetchNpmMetadata v1Config up n w = (Throw e, w1)
    /\ In a (Object_keys versions) /\ In b (Object_keys versions)
    /\ semver_rcompare a b = Throw e.
Proof.
  intros Hreq Hbody Hversions Htruthy Hx Hlen Hbad.
  pose proof (sort_by_poisoned semver_rcompare _ x Hx Hlen Hbad) as Hthrow.
  destruct (sort_by semver_rcompare (Object_keys versions)) as [sorted|e] eqn:Hsort;
    [discriminate|].
  destruct (sort_by_throw_inv _ _ _ Hsort) as (a & b & Ha & Hb & Hc).
  exists e, a, b. split; [|auto].
  unfold fetchNpmMetadata. unfold bind at 1. rewrite Hreq, Hbody. cbn [negb].
  unfold bind at 1. unfold lift at 1. rewrite Hversions, Htruthy. cbn [negb].
  unfold bind at 1. unfold lift at 1.
  assert (Htags : exists tags, member (body reply) "dist-tags" = Ok tags).
  { destruct (body reply); simpl in Hbody; try discriminate; simpl; eauto. }
  destruct Htags as [tags ->].
  unfold bind at 1. unfold lift at 1. rewrite Hsort. reflexivity.
Qed.
End InvalidKey.

(** ** The name in the registry address *)

Section EncodedName.
Import NodeSemver.

Lemma unreserved_path_safe (c : ascii) : JsJSON.unreserved c = true -> path_safe c = true.
Proof.
  destruct c as [b0 b1 b2 b3 b4 b5 b6 b7].
  destruct b0, b1, b2, b3, b4, b5, b6, b7; vm_compute; congruence.
Qed.

Lemma hex2_path_safe (c : ascii) : all_chars path_safe (JsJSON.hex2 true c) = true.
Proof.
  destruct c as [b0 b1 b2 b3 b4 b5 b6 b7].
  destruct b0, b1, b2, b3, b4, b5, b6, b7; vm_compute; reflexivity.
Qed.

Lemma encodeURIComponent_path_safe (s : string) :
  all_chars path_safe (JsJSON.encodeURIComponent s) = true.
Proof.
  induction s as [|c s IH]; [reflexivity|].
  cbn [JsJSON.encodeURIComponent]. destruct (JsJSON.unreserved c) eqn:Hc.
  - cbn [all_chars]. rewrite (unreserved_path_safe c Hc), IH. reflexivity.
  - cbn [all_chars]. rewrite NodeSemverFacts.all_chars_app, hex2_path_safe, IH. reflexivity.
Qed.

Lemma encodeURIComponent_unreserved (s : string) :
  all_chars JsJSON.unreserved s = true -> JsJSON.encodeURIComponent s = s.
Proof.
  induction s as [|c s IH]; [reflexivity|].
  cbn [all_chars JsJSON.encodeURIComponent]. intros Hs.
  apply andb_true_iff in Hs as [Hc Hs]. rewrite Hc, (IH Hs). reflexivity.
Qed.

(** X11. Whatever the package name, the name [fetchNpmMetadata] puts in the
    registry address has no [/], [?] or [#]: the name cannot change the path
    or add a query to the address.  A name written with unreserved
    characters only, after an optional leading [@], is sent as it is. *)
Theorem encoded_name_path_safe (n : string) :
  all_chars path_safe (@encoded_name js_uri n) = true
  /\ (all_chars JsJSON.unreserved (match n with String "@" rest => rest | _ => n end) = true ->
      @encoded_name js_uri n = n).
Proof.
  unfold encoded_name. cbn [encodeURIComponent js_uri].
  destruct n as [|c rest]; [split; reflexivity|].
  destruct (Ascii.eqb c "@") eqn:Hat.
  - apply Ascii.eqb_eq in Hat. subst c. split.
    + cbn [all_chars]. rewrite encodeURIComponent_path_safe. reflexivity.
    + intros Hrest. rewrite (encodeURIComponent_unreserved rest Hrest). reflexivity.
  - assert (Hsame : forall (X : Type) (f : string -> X) (g : X),
               match String c rest with String "@" r => f r | _ => g end = g).
    { intros X f g. destruct c as [[] [] [] [] [] [] [] []]; try reflexivity. discriminate. }
    rewrite (Hsame string (fun r => String "@" (JsJSON.encodeURIComponent r))).
    rewrite (Hsame string (fun r => r)).
    split; [apply encodeURIComponent_path_safe|apply encodeURIComponent_unreserved].
Qed.
End EncodedName.

(** ** The cache keys *)

Section Keys.
Lemma last_char_append (a b : string) :
  last_char (String.append a b)
  = match last_char b with Some d => Some d | None => last_char a end.
Proof.
  induction a as [|c a IH].
  - change (String.append EmptyString b) with b. destruct (last_char b); reflexivity.
  - change (String.append (String c a) b) with (String c (String.append a b)).
    cbn [last_char]. rewrite IH. destruct (last_char b); reflexivity.
Qed.

Lemma last_char_tpl (parts : list string) (p : string) (d : ascii) :
  last_char p = Some d -> last_char (tpl (parts ++ [p])) = Some d.
Proof.
  intros Hp. unfold tpl. induction parts as [|x rest IH]; [exact Hp|].
  destruct rest as [|y rest'].
  - change (String.concat EmptyString ([x] ++ [p]))
      with (String.append x (String.append EmptyString p)).
    rewrite last_char_append. change (String.append EmptyString p) with p.
    rewrite Hp. reflexivity.
  - change (String.concat EmptyString ((x :: y :: rest') ++ [p]))
      with (String.append x (String.append EmptyString
                               (String.concat EmptyString ((y :: rest') ++ [p])))).
    rewrite last_char_append.
    change (String.append EmptyString (String.concat EmptyString ((y :: rest') ++ [p])))
      with (String.concat EmptyString ((y :: rest') ++ [p])).
    rewrite IH. reflexivity.
Qed.

(** X15. The key of a package's metadata is never the key of a file listing,
    of the same request or of any other: an entry written by one of the two
    cache-aside reads is never read by the other. *)
Theorem keys_never_collide (this this' : params) : keys_metadata this <> keys_files this'.
Proof.
  intros Heq. apply (f_equal last_char) in Heq.
  unfold keys_metadata, keys_files in Heq.
  pose proof (last_char_tpl ["package/"; type this; "/"; name this] "/metadata" "a" eq_refl)
    as Hmetadata.
  pose proof (last_char_tpl ["package/"; type this'; "/"; name this'; "@";
                              param_text (version this')] "/files" "s" eq_refl) as Hfiles.
  cbn [app] in Hmetadata, Hfiles. rewrite Hmetadata, Hfiles in Heq.
  discriminate.
Qed.
End Keys.

(** ** The connection options of the database client *)

Section Connection.
Lemma define_assoc_eq (k : string) (v : value) (props : list (string * value)) :
  assoc k (JsJSON.define k v props) = Some v.
Proof.
  induction props as [|[k0 v0] rest IH]; simpl.
  - rewrite String.eqb_refl. reflexivity.
  - destruct (String.eqb k k0) eqn:Hk; simpl.
    + rewrite String.eqb_refl. reflexivity.
    + destruct (existsb _ rest); simpl; [rewrite Hk; exact IH|].
      destruct (JsJSON.is_array_index k) as [i|]; simpl.
      * destruct (JsJSON.is_array_index k0) as [j|]; simpl.
        -- destruct (N.ltb i j); simpl; [rewrite String.eqb_refl; reflexivity|].
           rewrite Hk. exact IH.
        -- rewrite String.eqb_refl. reflexivity.
      * rewrite Hk. exact IH.
Qed.

Lemma define_assoc_ne (k k' : string) (v : value) (props : list (string * value)) :
  k' <> k -> assoc k' (JsJSON.define k v props) = assoc k' props.
Proof.
  intros Hne. apply String.eqb_neq in Hne.
  induction props as [|[k0 v0] rest IH]; simpl.
  - rewrite Hne. reflexivity.
  - destruct (String.eqb k k0) eqn:Hk; simpl.
    + apply String.eqb_eq in Hk. subst k0. rewrite Hne. reflexivity.
    + destruct (existsb _ rest); simpl; [rewrite IH; reflexivity|].
      destruct (JsJSON.is_array_index k) as [i|]; simpl.
      * destruct (JsJSON.is_array_index k0) as [j|]; simpl.
        -- destruct (N.ltb i j); simpl; [rewrite Hne; reflexivity|].
           rewrite IH. reflexivity.
        -- rewrite Hne. reflexivity.
      * rewrite IH. reflexivity.
Qed.

Lemma assign_assoc (source target : list (string * value)) (k : string) :
  List.NoDup (List.map fst source) ->
  assoc k (fold_left (fun acc kv => JsJSON.define (fst kv) (snd kv) acc) source target)
  = match assoc k source with Some v => Some v | None => assoc k target end.
Proof.
  revert target. induction source as [|[k0 v0] rest IH]; intros target Hnd; [reflexivity|].
  inversion Hnd as [|? ? Hnotin Hnd']; subst. cbn [fold_left fst snd assoc].
  rewrite (IH _ Hnd'). destruct (String.eqb k k0) eqn:Hk.
  - apply String.eqb_eq in Hk. subst k0.
    assert (Hnone : assoc k rest = None).
    { clear -Hnotin. induction rest as [|[k1 v1] rest IH]; [reflexivity|].
      simpl in *. destruct (String.eqb k k1) eqn:Hk1.
      - apply String.eqb_eq in Hk1. subst. exfalso. apply Hnotin. left. reflexivity.
      - apply IH. intros Hin. apply Hnotin. right. exact Hin. }
    rewrite Hnone. apply define_assoc_eq.
  - apply String.eqb_neq in Hk. rewrite (define_assoc_ne k0 k v0 target Hk). reflexivity.
Qed.

(** X16. In the connection options given to the database client, every
    setting of the configured connection is kept with its configured value,
    also [timezone] and [multipleStatements]; the built-in [timezone: 'UTC']
    and [multipleStatements: true] apply only to what the configuration
    leaves unset, and nothing else is added. *)
Theorem knex_connection_settings (dbConfig_connection : value) (k : string) :
  List.NoDup (List.map fst (Object_entries dbConfig_connection)) ->
  assoc k (knex_connection dbConfig_connection)
  = match assoc k (Object_entries dbConfig_connection) with
    | Some v => Some v
    | None => if String.eqb k "timezone" then Some (VStr "UTC")
              else if String.eqb k "multipleStatements" then Some (VBool true)
              else None
    end.
Proof.
  intros Hnd. unfold knex_connection, Object_assign.
  rewrite (assign_assoc _ _ k Hnd). reflexivity.
Qed.
End Connection.

(** ** The further properties on concrete requests *)

Section FurtherConcrete.
Import Examples.

Lemma handleVersions_cached_witness :
  handleVersions cfg offline one_x (storing (keys_metadata one_x) "<html>")
  = (Ok tt, with_body (logged (storing (keys_metadata one_x) "<html>")
                              [RedisGet (keys_metadata one_x)])
                      (VStr "<html>"))
  /\ handleResolveVersion cfg offline one_x (storing (keys_metadata one_x) "<html>")
     = (Ok tt, with_body (logged (storing (keys_metadata one_x) "<html>")
                                 [RedisGet (keys_metadata one_x)])
                         (not_found one_x)).
Proof.
  destruct (@handleVersions_cached node_semver js_json js_uri cfg one_x offline
              (storing (keys_metadata one_x) "<html>")
              {| payload := "<html>"; ttl := Some 300 |}
              ltac:(vm_compute; reflexivity) ltac:(discriminate)) as [Hlist Hresolve].
  split; [exact Hlist|].
  apply (Hresolve (SyntaxError "Unexpected token in JSON")). vm_compute. reflexivity.
Defined.

Lemma handleVersions_failure_witness :
  handleVersions cfg offline one_x fresh
  = (Ok tt, with_body (logged fresh [RedisGet (keys_metadata one_x); HttpGet registry_url])
                      (not_found one_x))
  /\ redis (with_body (logged fresh [RedisGet (keys_metadata one_x); HttpGet registry_url])
                      (not_found one_x)) = redis fresh
  /\ cached (payload <$>
             redis (with_body (logged fresh [RedisGet (keys_metadata one_x);
                                             HttpGet registry_url])
                              (not_found one_x)) !! keys_metadata one_x) = None.
Proof.
  apply (@handleVersions_failure node_semver js_json js_uri cfg one_x offline fresh
           (logged fresh [RedisGet (keys_metadata one_x); HttpGet registry_url])
           (RequestError "ETIMEDOUT")).
  - vm_compute. reflexivity.
  - vm_compute. reflexivity.
Defined.

Lemma getMetadataAsJson_fills_witness :
  exists w2,
    getMetadataAsJson cfg (serving registry_url (ok left_pad_reply)) one_x fresh
    = (Ok (JSON_stringify (PackageMetadata (VObj [("latest", VStr "2.0.0")])
                                           ["2.0.0"; "1.1.1"; "1.0.0"])), w2)
    /\ redis w2 !! keys_metadata one_x
       = Some {| payload := JSON_stringify (PackageMetadata (VObj [("latest", VStr "2.0.0")])
                                                            ["2.0.0"; "1.1.1"; "1.0.0"]);
                 ttl := Some (maxAge_of cfg one_x) |}
    /\ forall up',
        getMetadataAsJson cfg up' one_x w2
        = (Ok (JSON_stringify (PackageMetadata (VObj [("latest", VStr "2.0.0")])
                                               ["2.0.0"; "1.1.1"; "1.0.0"])),
           logged w2 [RedisGet (keys_metadata one_x)])
        /\ fst (getMetadata cfg up' one_x w2)
           = fst (getMetadata cfg (serving registry_url (ok left_pad_reply)) one_x fresh).
Proof.
  apply (@getMetadataAsJson_fills node_semver js_json js_uri cfg one_x js_json_laws
           (serving registry_url (ok left_pad_reply)) fresh
           (logged fresh [RedisGet (keys_metadata one_x); HttpGet registry_url])).
  - vm_compute. reflexivity.
  - vm_compute. reflexivity.
Defined.

Lemma getFilesAsJson_failure_witness :
  getFilesAsJson cfg (serving listing_url (Throw (HTTPError server_error_reply)))
    one_one_one fresh
  = (Throw (HTTPError server_error_reply),
     logged fresh [RedisGet (keys_files one_one_one); HttpGet listing_url])
  /\ getFiles cfg (serving listing_url (Throw (HTTPError server_error_reply)))
       one_one_one fresh
     = (Throw (HTTPError server_error_reply),
        logged fresh [RedisGet (keys_files one_one_one); HttpGet listing_url])
  /\ redis (logged fresh [RedisGet (keys_files one_one_one); HttpGet listing_url])
     = redis fresh
  /\ List.filter is_write
       (trace (logged fresh [RedisGet (keys_files one_one_one); HttpGet listing_url]))
     = List.filter is_write (trace fresh)
  /\ cached (payload <$>
             redis (logged fresh [RedisGet (keys_files one_one_one); HttpGet listing_url])
             !! keys_files one_one_one) = None.
Proof.
  apply (@getFilesAsJson_failure js_json cfg one_one_one
           (serving listing_url (Throw (HTTPError server_error_reply))) fresh).
  - vm_compute. reflexivity.
  - vm_compute. reflexivity.
Defined.

Lemma fetchFiles_picks_witness :
  exists listing,
    fetchFiles cfg (serving listing_url (ok file_listing)) one_one_one fresh
    = (Ok listing, logged fresh [HttpGet (files_url cfg one_one_one)])
    /\ forall k,
        own_prop listing k
        = if String.eqb k "default" || String.eqb k "files"
          then match body {| statusCode := Some 200; body := file_listing |} with
               | VObj props => assoc k props
               | _ => None
               end
          else None.
Proof.
  apply (@fetchFiles_picks cfg one_one_one (serving listing_url (ok file_listing)) fresh
           {| statusCode := Some 200; body := file_listing |}).
  vm_compute. reflexivity.
Defined.

Lemma handleVersionFiles_upstream_errors_witness :
  handleVersionFiles cfg offline one_one_one (holding one_one_one left_pad_metadata)
  = (Throw (TypeError "Cannot read property 'statusCode' of undefined"),
     logged (logged (holding one_one_one left_pad_metadata)
                    [RedisGet (keys_metadata one_one_one)])
            [RedisGet (keys_files one_one_one); HttpGet (files_url cfg one_one_one)])
  /\ handleVersionFiles cfg (serving listing_url (Throw (HTTPError server_error_reply)))
       one_one_one (holding one_one_one left_pad_metadata)
     = (Throw (HTTPError server_error_reply),
        logged (logged (holding one_one_one left_pad_metadata)
                       [RedisGet (keys_metadata one_one_one)])
               [RedisGet (keys_files one_one_one); HttpGet (files_url cfg one_one_one)]).
Proof.
  split.
  - refine (@handleVersionFiles_upstream_errors node_semver js_json js_uri cfg one_one_one
              offline (holding one_one_one left_pad_metadata) _ left_pad_metadata
              (VArr [VStr "1.0.0"; VStr "1.1.1"; VStr "2.0.0"])
              (RequestError "ETIMEDOUT") _ _ _ _ _ _ _).
    + vm_compute. reflexivity.
    + reflexivity.
    + reflexivity.
    + vm_compute. reflexivity.
    + reflexivity.
    + reflexivity.
    + intros r Hr. discriminate.
  - refine (@handleVersionFiles_upstream_errors node_semver js_json js_uri cfg one_one_one
              (serving listing_url (Throw (HTTPError server_error_reply)))
              (holding one_one_one left_pad_metadata) _ left_pad_metadata
              (VArr [VStr "1.0.0"; VStr "1.1.1"; VStr "2.0.0"])
              (HTTPError server_error_reply) _ _ _ _ _ _ _).
    + vm_compute. reflexivity.
    + reflexivity.
    + reflexivity.
    + vm_compute. reflexivity.
    + reflexivity.
    + reflexivity.
    + intros r Hr. injection Hr as <-. reflexivity.
Defined.

Lemma handleVersionFiles_escapes_witness :
  exists metadata w1,
    getMetadata cfg offline one_one_one (holding one_one_one left_pad_metadata)
    = (Ok metadata, w1)
    /\ ((logged (holding one_one_one left_pad_metadata)
                [RedisGet (keys_metadata one_one_one); RedisGet (keys_files one_one_one);
                 HttpGet listing_url] = w1
         /\ (member metadata "versions"
             = Throw (TypeError "Cannot read property 'statusCode' of undefined")
             \/ exists all, member metadata "versions" = Ok all
                            /\ includes all (version one_one_one)
                               = Throw (TypeError "Cannot read property 'statusCode' of undefined")))
        \/ (exists all,
              member metadata "versions" = Ok all
              /\ includes all (version one_one_one) = Ok true
              /\ getFiles cfg offline one_one_one w1
                 = (Throw (TypeError "Cannot read property 'statusCode' of undefined"),
                    logged (holding one_one_one left_pad_metadata)
                           [RedisGet (keys_metadata one_one_one);
                            RedisGet (keys_files one_one_one); HttpGet listing_url])
              /\ is_ParseError (TypeError "Cannot read property 'statusCode' of undefined")
                 = false)).
Proof.
  apply (@handleVersionFiles_escapes node_semver js_json js_uri cfg one_one_one offline
           (holding one_one_one left_pad_metadata)).
  vm_compute. reflexivity.
Defined.

(** The listing of left-pad 1.1.1 is fetched: the body is the listing and
    the max-age is the static one. *)
Lemma handleVersionFiles_maxAge_witness :
  handleVersionFiles cfg (serving listing_url (ok file_listing)) one_one_one
    (holding one_one_one left_pad_metadata)
  = (Ok tt,
     {| redis := <[ keys_files one_one_one :=
                      {| payload := JsJSON.stringify
                                      (pick file_listing ["default"; "files"]);
                         ttl := None |} ]>
                   (redis (holding one_one_one left_pad_metadata));
        trace := [RedisGet (keys_metadata one_one_one); RedisGet (keys_files one_one_one);
                  HttpGet listing_url;
                  RedisSet (keys_files one_one_one)
                           (JsJSON.stringify (pick file_listing ["default"; "files"]))
                           None];
        ctx_body := pick file_listing ["default"; "files"];
        ctx_maxAge := Some 31536000 |}).
Proof.
  refine (proj1 (@handleVersionFiles_maxAge node_semver js_json js_uri cfg one_one_one
                   (serving listing_url (ok file_listing))
                   (holding one_one_one left_pad_metadata))
            left_pad_metadata
            (logged (holding one_one_one left_pad_metadata)
                    [RedisGet (keys_metadata one_one_one)])
            (VArr [VStr "1.0.0"; VStr "1.1.1"; VStr "2.0.0"])
            (pick file_listing ["default"; "files"])
            {| redis := <[ keys_files one_one_one :=
                             {| payload := JsJSON.stringify
                                             (pick file_listing ["default"; "files"]);
                                ttl := None |} ]>
                          (redis (holding one_one_one left_pad_metadata));
               trace := [RedisGet (keys_metadata one_one_one);
                         RedisGet (keys_files one_one_one);
                         HttpGet listing_url;
                         RedisSet (keys_files one_one_one)
                                  (JsJSON.stringify (pick file_listing ["default"; "files"]))
                                  None];
               ctx_body := VUndefined; ctx_maxAge := None |}
            _ _ _ _).
  - vm_compute. reflexivity.
  - reflexivity.
  - reflexivity.
  - vm_compute. reflexivity.
Defined.

Lemma fetchGitHubMetadata_pages_witness :
  fetchGitHubMetadata (tagged three_pages) "jquery" "jquery" fresh
  = (Ok (VObj [("tags", VArr []);
               ("versions",
                VArr (flat_map map_name ([page 0 100; page 100 100] ++ [page 200 37])))]),
     logged fresh (GitHubGetTags "jquery" "jquery" :: repeat GitHubNextPage 2))
  /\ fetchGitHubMetadata (tagged (listing ([page 0 2; page 2 2] ++ VNull :: [page 4 2])
                                          (page 6 1)))
       "jquery" "jquery" fresh
     = (Ok (VObj [("tags", VArr []);
                  ("versions", VArr (flat_map map_name ([page 0 2; page 2 2] ++ [VNull])))]),
        logged fresh (GitHubGetTags "jquery" "jquery" :: repeat GitHubNextPage 2)).
Proof.
  split.
  - apply (proj1 (@fetchGitHubMetadata_pages (tagged three_pages) "jquery" "jquery"
                    [page 0 100; page 100 100] fresh
                    ltac:(repeat constructor))).
    reflexivity.
  - apply (proj2 (@fetchGitHubMetadata_pages
                    (tagged (listing ([page 0 2; page 2 2] ++ VNull :: [page 4 2]) (page 6 1)))
                    "jquery" "jquery" [page 0 2; page 2 2] fresh
                    ltac:(repeat constructor))
             VNull [page 4 2] (page 6 1)); reflexivity.
Defined.

Lemma fetchGitHubMetadata_rejected_witness :
  exists n,
    logged fresh [GitHubGetTags "jquery" "jquery"; GitHubNextPage;
                  LogError "GitHub API rate limit exceeded."]
    = logged fresh
        (GitHubGetTags "jquery" "jquery" :: repeat GitHubNextPage n
           ++ (if code_is_403 (GitHubError 403 "API rate limit exceeded")
               then [LogError "GitHub API rate limit exceeded."] else []))%list.
Proof.
  apply (@fetchGitHubMetadata_rejected (tagged rate_limited) "jquery" "jquery" fresh).
  vm_compute. reflexivity.
Defined.

Lemma registry_race_witness :
  (exists reply url,
      registry_response mirrors two_answer "left-pad" fresh
      = (Ok reply,
         logged fresh
           (List.map HttpGet
              (List.map (fun s => tpl [s; "/"; "left-pad"])
                 ["https://a.example"; "https://b.example"; "https://c.example"])))
      /\ In url (List.map (fun s => tpl [s; "/"; "left-pad"])
                   ["https://a.example"; "https://b.example"; "https://c.example"])
      /\ http_get two_answer url = Ok reply
      /\ forall u' r',
          In u' (List.map (fun s => tpl [s; "/"; "left-pad"])
                   ["https://a.example"; "https://b.example"; "https://c.example"]) ->
          http_get two_answer u' = Ok r' -> (arrival two_answer url <= arrival two_answer u')%nat)
  /\ (registry_response mirrors offline "left-pad" fresh
      = (Throw (AggregateError
                  (rejections offline
                     (List.map (fun s => tpl [s; "/"; "left-pad"])
                        ["https://a.example"; "https://b.example"; "https://c.example"]))),
         logged fresh
           (List.map HttpGet
              (List.map (fun s => tpl [s; "/"; "left-pad"])
                 ["https://a.example"; "https://b.example"; "https://c.example"])))
      /\ List.length
           (rejections offline
              (List.map (fun s => tpl [s; "/"; "left-pad"])
                 ["https://a.example"; "https://b.example"; "https://c.example"]))
         = List.length ["https://a.example"; "https://b.example"; "https://c.example"]).
Proof.
  split.
  - apply (proj1 (@registry_race mirrors two_answer "left-pad"
                    ["https://a.example"; "https://b.example"; "https://c.example"] fresh
                    eq_refl)
             "https://b.example/left-pad"
             {| statusCode := Some 200; body := left_pad_reply |}).
    + right. left. reflexivity.
    + reflexivity.
  - apply (proj2 (@registry_race mirrors offline "left-pad"
                    ["https://a.example"; "https://b.example"; "https://c.example"] fresh
                    eq_refl)).
    intros u Hu. reflexivity.
Defined.

(** The registry that answers first wins, whatever its place in the list. *)
Lemma earliest_registry_wins :
  fst (registry_response mirrors two_answer "left-pad" fresh) = ok odd_reply.
Proof. vm_compute. reflexivity. Qed.

Lemma resolve_range_stable_witness :
  resolve one_x left_pad_metadata = Ok VNull
  \/ exists r,
      resolve one_x left_pad_metadata = Ok (VStr r)
      /\ In r ["1.0.0"; "1.1.1"; "2.0.0"]
      /\ semver_valid r = true /\ semver_prerelease r = false.
Proof.
  apply (@resolve_range_stable node_semver NodeSemverFacts.node_semver_laws one_x
           (VObj [("latest", VStr "2.0.0")]) ["1.0.0"; "1.1.1"; "2.0.0"]).
  - reflexivity.
  - intros s Hs. injection Hs as <-. simpl. intuition discriminate.
  - reflexivity.
  - reflexivity.
Defined.

Lemma resolve_no_release_witness :
  resolve latest unreleased_metadata = Ok VUndefined
  /\ handleResolveVersion cfg offline latest (holding latest unreleased_metadata)
     = (Ok tt, with_body (logged (holding latest unreleased_metadata)
                                 [RedisGet (keys_metadata latest)])
                         (VObj [("version", VUndefined)])).
Proof.
  destruct (@resolve_no_release node_semver js_json js_uri cfg latest
              (VObj []) ["1.0.0-beta"; "nightly"]) as [Hresolve Hbody].
  - intros v [<-|[<-|[]]]; vm_compute; reflexivity.
  - reflexivity.
  - intros s Hs. injection Hs as <-. simpl. intuition discriminate.
  - reflexivity.
  - reflexivity.
  - split; [exact Hresolve|].
    apply (Hbody offline (holding latest unreleased_metadata)
             {| payload := JsJSON.stringify unreleased_metadata; ttl := Some 300 |}).
    + vm_compute. reflexivity.
    + vm_compute. discriminate.
    + vm_compute. reflexivity.
Defined.

Lemma fetchNpmMetadata_invalid_key_witness :
  exists e a b,
    fetchNpmMetadata cfg (serving registry_url (ok odd_reply)) "left-pad" fresh
    = (Throw e, logged fresh [HttpGet registry_url])
    /\ In a (Object_keys (VObj [("foo", VObj []); ("1.0.0", VObj [])]))
    /\ In b (Object_keys (VObj [("foo", VObj []); ("1.0.0", VObj [])]))
    /\ semver_rcompare a b = Throw e.
Proof.
  apply (@fetchNpmMetadata_invalid_key node_semver js_uri cfg
           (serving registry_url (ok odd_reply)) "left-pad" fresh
           (logged fresh [HttpGet registry_url])
           {| statusCode := Some 200; body := odd_reply |}
           (VObj [("foo", VObj []); ("1.0.0", VObj [])]) "foo");
    try reflexivity.
  - simpl. auto.
  - intros y. simpl. unfold NodeSemver.rcompare, NodeSemver.compare.
    assert (Hfoo : NodeSemver.construct "foo" = Throw (TypeError "Invalid Version: foo"))
      by (vm_compute; reflexivity).
    rewrite Hfoo. split; [destruct (NodeSemver.construct y)|]; reflexivity.
Defined.

Lemma encoded_name_path_safe_witness :
  NodeSemver.all_chars path_safe (encoded_name "@angular/core") = true
  /\ encoded_name "left-pad" = "left-pad"
  /\ encoded_name "@babel" = "@babel".
Proof.
  split; [exact (proj1 (encoded_name_path_safe "@angular/core"))|].
  split.
  - apply (proj2 (encoded_name_path_safe "left-pad")). vm_compute. reflexivity.
  - apply (proj2 (encoded_name_path_safe "@babel")). vm_compute. reflexivity.
Defined.

Lemma knex_connection_settings_witness :
  assoc "timezone" (knex_connection configured_connection)
  = match assoc "timezone" (Object_entries configured_connection) with
    | Some v => Some v
    | None => if String.eqb "timezone" "timezone" then Some (VStr "UTC")
              else if String.eqb "timezone" "multipleStatements" then Some (VBool true)
              else None
    end.
Proof.
  apply (knex_connection_settings configured_connection "timezone").
  simpl. repeat constructor; simpl; intuition discriminate.
Defined.

(** With that configuration the zone is the configured one and multiple
    statements stay enabled; without any configuration both built-ins apply. *)
Lemma configured_zone_wins :
  knex_connection configured_connection
  = [("timezone", VStr "+02:00"); ("multipleStatements", VBool true);
     ("host", VStr "db.internal")]
  /\ knex_connection VUndefined
     = [("timezone", VStr "UTC"); ("multipleStatements", VBool true)].
Proof. vm_compute. split; reflexivity. Qed.

(** A status-403 payload that is in the cache is answered with the static
    max-age, like a listing. *)
Lemma cached_forbidden_gets_maxAge :
  ctx_maxAge (snd (handleVersionFiles cfg offline one_one_one
                     (holding_files one_one_one left_pad_metadata
                        (JSON_stringify (VObj [("status", VNum 403);
                                               ("message", body forbidden_reply)])))))
  = Some 31536000
  /\ ctx_body (snd (handleVersionFiles cfg offline one_one_one
                      (holding_files one_one_one left_pad_metadata
                         (JSON_stringify (VObj [("status", VNum 403);
                                                ("message", body forbidden_reply)])))))
     = VObj [("status", VNum 403); ("message", body forbidden_reply)].
Proof. vm_compute. split; reflexivity. Qed.
End FurtherConcrete.
